(** * Open3D slab hash map (Open3D/Core/Hashmap/HashmapCUDA.h)

    A shallow embedding of the warp-cooperative hash table: bucket head
    slabs, chained slabs of 31 pair pointers and one next pointer, and the
    lock-step Insert / Search / Remove protocols executed by a warp of 32
    lanes.  Unsigned 32-bit handles are integers in [0, 2^32); a warp is a
    list of 32 per-lane values; device memory is a record of arrays that is
    threaded through every operation. *)

From Stdlib Require Import ZArith List Lia Bool QArith.
From Stdlib.Strings Require Import Byte.
From stdpp Require Import base list.
Import ListNotations.
Open Scope Z_scope.

(** ** Constants *)

(** [#define MAX_KEY_BYTESIZE 32] *)
Definition MAX_KEY_BYTESIZE : Z := 32.

(** Modelled from the spec: the constants of the absent allocator headers.
    A slab is 31 pair pointers and one next pointer, which the static
    assertion [sizeof(Slab) == WARP_WIDTH * sizeof(ptr_t)] ties to a warp
    of 32 lanes; lane 31 reads the next pointer; the head slabs are set to
    0xFF bytes at construction, which makes the empty markers 0xFFFFFFFF. *)
Definition WARP_WIDTH : Z := 32.
Definition BASE_UNIT_SIZE : Z := 32.
Definition NEXT_SLAB_PTR_LANE : Z := 31.
Definition ACTIVE_LANES_MASK : Z := 0xFFFFFFFF.
Definition PAIR_PTR_LANES_MASK : Z := 0x7FFFFFFF.
Definition EMPTY_PAIR_PTR : Z := 0xFFFFFFFF.
Definition EMPTY_SLAB_PTR : Z := 0xFFFFFFFF.
Definition HEAD_SLAB_PTR : Z := 0xFFFFFFFE.
Definition NULL_ITERATOR : Z := 0xFFFFFFFF.

Definition ptr_t := Z.
Definition key_t := list byte.

Definition to_u32 (x : Z) : Z := x mod 2 ^ 32.
Definition to_u64 (x : Z) : Z := x mod 2 ^ 64.
(** conversion to [int] (two's complement, 32 bits) *)
Definition to_i32 (x : Z) : Z := (x + 2 ^ 31) mod 2 ^ 32 - 2 ^ 31.

(** ** Arrays indexed by a 32-bit handle *)

Definition in_range {A} (l : list A) (i : Z) : bool :=
  (0 <=? i) && (i <? Z.of_nat (length l)).

Definition zget {A} (l : list A) (i : Z) : option A :=
  if in_range l i then l !! Z.to_nat i else None.

(** A store outside the array is not tracked. *)
Definition zset {A} (l : list A) (i : Z) (x : A) : list A :=
  if in_range l i then <[Z.to_nat i := x]> l else l.

(** ** Warp intrinsics *)

(** bit i of the result is the predicate of lane i *)
Fixpoint lane_bits (preds : list bool) : Z :=
  match preds with
  | [] => 0
  | b :: bs => Z.b2z b + 2 * lane_bits bs
  end.

(** [__ballot_sync(mask, pred)]: the lanes of [mask] whose predicate holds *)
Definition ballot_sync (mask : Z) (preds : list bool) : Z :=
  Z.land mask (lane_bits preds).

Fixpoint ffs_pos (p : positive) : Z :=
  match p with
  | xO q => 1 + ffs_pos q
  | _ => 1
  end.

(** [__ffs(x)]: one plus the position of the lowest set bit, 0 for 0 *)
Definition ffs (x : Z) : Z :=
  match x with
  | Zpos p => ffs_pos p
  | _ => 0
  end.

(** [__popc(x)] *)
Fixpoint popc_pos (p : positive) : Z :=
  match p with
  | xH => 1
  | xO q => popc_pos q
  | xI q => 1 + popc_pos q
  end.

Definition popc (x : Z) : Z :=
  match x with
  | Zpos p => popc_pos p
  | _ => 0
  end.

(** [__shfl_sync(mask, var, src_lane, WARP_WIDTH)]: the value held by
    [src_lane]; [dflt] stands for a lane outside the warp. *)
Definition shfl_sync {A} (dflt : A) (vars : list A) (src_lane : Z) : A :=
  default dflt (zget vars src_lane).

(** ** Keys as bytes and 4-byte words *)

Definition byte_at (l : list byte) (i : nat) : byte := nth i l x00.

Definition byte_val (b : byte) : Z := Z.of_N (Byte.to_N b).

(** [((int32_t* )key_ptr)[i]], little endian, as a signed integer *)
Definition int_at (l : list byte) (i : nat) : Z :=
  to_i32 (byte_val (byte_at l (4 * i))
          + 2 ^ 8 * byte_val (byte_at l (4 * i + 1))
          + 2 ^ 16 * byte_val (byte_at l (4 * i + 2))
          + 2 ^ 24 * byte_val (byte_at l (4 * i + 3))).

(** the first [n] bytes behind a pointer *)
Definition read_bytes (l : list byte) (n : nat) : list byte :=
  map (byte_at l) (seq 0 n).

(** ** DefaultHash *)

Definition FNV_OFFSET_BASIS : Z := 14695981039346656037.
Definition FNV_PRIME : Z := 1099511628211.

Definition chunks_of (key_size : Z) : nat := Z.to_nat (key_size / 4).

(** the loop [for (i = 0; i < chunks; ++i)] of [DefaultHash::operator()],
    entered at index [i] with [n] rounds left *)
Fixpoint DefaultHash_loop (key_ptr : list byte) (n i : nat) (hash : Z) : Z :=
  match n with
  | O => hash
  | S n' =>
      let hash := Z.lxor hash (to_u64 (int_at key_ptr i)) in
      let hash := to_u64 (hash * FNV_PRIME) in
      DefaultHash_loop key_ptr n' (S i) hash
  end.

Definition DefaultHash (key_size_ : Z) (key_ptr : list byte) : Z :=
  DefaultHash_loop key_ptr (chunks_of key_size_) 0 FNV_OFFSET_BASIS.

(** ** Device memory *)

(** [class Slab]: [kv_pair_ptrs[31]] followed by [next_slab_ptr], one unit
    per lane *)
Definition Slab := list ptr_t.

Definition empty_slab : Slab := repeat EMPTY_PAIR_PTR 32.

(** Modelled from the spec: InternalNodeManagerContext, the slab allocator
    (section 4.2).  A fixed pool of slab-sized blocks with a free bitmap;
    a slab handle is the index of its block. *)
Record InternalNodeManagerContext := {
  slab_used : list bool;
  slab_mem : list Slab
}.

(** Modelled from the spec: InternalMemoryManagerContext, the pair store
    (section 4.3).  A fixed pool of records of [dsize_key + dsize_value]
    bytes and a stack of free handles; a handle is the index of its
    record. *)
Record InternalMemoryManagerContext := {
  pair_free : list ptr_t;
  pair_mem : list (list byte)
}.

(** [class HashmapCUDAContext] together with the device memory it points
    to.  [stack_init_] is the indeterminate initial content of the
    per-lane array [uint8_t src_key[MAX_KEY_BYTESIZE]]. *)
Record HashmapCUDAContext := {
  num_buckets_ : Z;
  dsize_key_ : Z;
  dsize_value_ : Z;
  bucket_list_head_ : list Slab;
  slab_list_allocator_ctx_ : InternalNodeManagerContext;
  pair_allocator_ctx_ : InternalMemoryManagerContext;
  stack_init_ : list byte
}.

Definition with_heads (c : HashmapCUDAContext) (h : list Slab) :=
  {| num_buckets_ := num_buckets_ c; dsize_key_ := dsize_key_ c;
     dsize_value_ := dsize_value_ c; bucket_list_head_ := h;
     slab_list_allocator_ctx_ := slab_list_allocator_ctx_ c;
     pair_allocator_ctx_ := pair_allocator_ctx_ c;
     stack_init_ := stack_init_ c |}.

Definition with_slabs (c : HashmapCUDAContext) (a : InternalNodeManagerContext) :=
  {| num_buckets_ := num_buckets_ c; dsize_key_ := dsize_key_ c;
     dsize_value_ := dsize_value_ c; bucket_list_head_ := bucket_list_head_ c;
     slab_list_allocator_ctx_ := a;
     pair_allocator_ctx_ := pair_allocator_ctx_ c;
     stack_init_ := stack_init_ c |}.

Definition with_pairs (c : HashmapCUDAContext) (a : InternalMemoryManagerContext) :=
  {| num_buckets_ := num_buckets_ c; dsize_key_ := dsize_key_ c;
     dsize_value_ := dsize_value_ c; bucket_list_head_ := bucket_list_head_ c;
     slab_list_allocator_ctx_ := slab_list_allocator_ctx_ c;
     pair_allocator_ctx_ := a;
     stack_init_ := stack_init_ c |}.

(** [HashmapCUDAContext::ComputeBucket]: [hash_fn_(key) % num_buckets_],
    returned as [uint32_t] *)
Definition ComputeBucket (c : HashmapCUDAContext) (key : list byte) : Z :=
  to_u32 (DefaultHash (dsize_key_ c) key mod num_buckets_ c).

(** ** The allocators *)

(** Modelled from the spec: InternalMemoryManagerContext::Allocate, which
    pops a free record handle and hands back the sentinel when the pool has
    no free block. *)
Definition Allocate (a : InternalMemoryManagerContext)
  : ptr_t * InternalMemoryManagerContext :=
  match pair_free a with
  | [] => (EMPTY_PAIR_PTR, a)
  | p :: rest => (p, {| pair_free := rest; pair_mem := pair_mem a |})
  end.

(** Modelled from the spec: InternalMemoryManagerContext::Free, which
    returns a record handle to the free stack. *)
Definition Free (a : InternalMemoryManagerContext) (p : ptr_t)
  : InternalMemoryManagerContext :=
  {| pair_free := p :: pair_free a; pair_mem := pair_mem a |}.

(** Modelled from the spec: InternalMemoryManagerContext::extract_ptr, the
    record behind a handle. *)
Definition extract_ptr (a : InternalMemoryManagerContext) (p : ptr_t)
  : list byte :=
  default [] (zget (pair_mem a) p).

Definition store_record (a : InternalMemoryManagerContext) (p : ptr_t)
  (r : list byte) : InternalMemoryManagerContext :=
  {| pair_free := pair_free a; pair_mem := zset (pair_mem a) p r |}.

Fixpoint first_free (used : list bool) (i : Z) : option Z :=
  match used with
  | [] => None
  | b :: bs => if b then first_free bs (i + 1) else Some i
  end.

(** Modelled from the spec: InternalNodeManagerContext::WarpAllocate, one
    allocation made by the whole warp: the first block whose bit is free is
    claimed, and the sentinel is handed back when no block is free. *)
Definition WarpAllocate (a : InternalNodeManagerContext)
  : ptr_t * InternalNodeManagerContext :=
  match first_free (slab_used a) 0 with
  | None => (EMPTY_SLAB_PTR, a)
  | Some i => (i, {| slab_used := zset (slab_used a) i true;
                     slab_mem := slab_mem a |})
  end.

(** Modelled from the spec: InternalNodeManagerContext::FreeUntouched,
    which clears the block's bit and leaves its content as it is. *)
Definition FreeUntouched (a : InternalNodeManagerContext) (p : ptr_t)
  : InternalNodeManagerContext :=
  {| slab_used := zset (slab_used a) p false; slab_mem := slab_mem a |}.

(** Modelled from the spec: InternalNodeManager::CountSlabsPerSuperblock,
    the number of claimed blocks of the pool (one superblock). *)
Definition CountSlabsPerSuperblock (a : InternalNodeManagerContext) : list Z :=
  [Z.of_nat (length (filter (fun b => b = true) (slab_used a)))].

Definition AllocateSlab (c : HashmapCUDAContext) : ptr_t * HashmapCUDAContext :=
  let '(p, a) := WarpAllocate (slab_list_allocator_ctx_ c) in
  (p, with_slabs c a).

Definition FreeSlab (c : HashmapCUDAContext) (slab_ptr : ptr_t) : HashmapCUDAContext :=
  with_slabs c (FreeUntouched (slab_list_allocator_ctx_ c) slab_ptr).

(** ** Units of a slab *)

(** the 32 units read by the 32 lanes through
    [get_unit_ptr_from_list_head(src_bucket, lane_id)] or
    [get_unit_ptr_from_list_nodes(curr_slab_ptr, lane_id)] *)
Definition read_slab (c : HashmapCUDAContext) (curr_slab_ptr src_bucket : Z) : Slab :=
  if curr_slab_ptr =? HEAD_SLAB_PTR
  then default empty_slab (zget (bucket_list_head_ c) src_bucket)
  else default empty_slab (zget (slab_mem (slab_list_allocator_ctx_ c)) curr_slab_ptr).

Definition read_unit (c : HashmapCUDAContext) (curr_slab_ptr src_bucket lane : Z) : ptr_t :=
  default EMPTY_PAIR_PTR (zget (read_slab c curr_slab_ptr src_bucket) lane).

Definition write_unit (c : HashmapCUDAContext) (curr_slab_ptr src_bucket lane : Z)
  (v : ptr_t) : HashmapCUDAContext :=
  if curr_slab_ptr =? HEAD_SLAB_PTR
  then match zget (bucket_list_head_ c) src_bucket with
       | Some s => with_heads c (zset (bucket_list_head_ c) src_bucket (zset s lane v))
       | None => c
       end
  else let a := slab_list_allocator_ctx_ c in
       match zget (slab_mem a) curr_slab_ptr with
       | Some s => with_slabs c {| slab_used := slab_used a;
                                   slab_mem := zset (slab_mem a) curr_slab_ptr (zset s lane v) |}
       | None => c
       end.

(** [atomicCAS(unit_data_ptr, compare, val)] *)
Definition atomicCAS (c : HashmapCUDAContext) (curr_slab_ptr src_bucket lane : Z)
  (compare val : ptr_t) : ptr_t * HashmapCUDAContext :=
  let old := read_unit c curr_slab_ptr src_bucket lane in
  (old, if old =? compare then write_unit c curr_slab_ptr src_bucket lane val else c).

(** ** Key broadcast and comparison *)

(** one store [((int* )ret_key_ptr)[i] = ...] into the buffer; [None] is a
    store that leaves the buffer *)
Definition store_word (ret_key : list byte) (i : nat) (src : list byte)
  : option (list byte) :=
  if (4 * Z.of_nat i + 4 <=? Z.of_nat (length ret_key))
  then Some (<[4 * i + 3 := byte_at src (4 * i + 3)]>
             (<[4 * i + 2 := byte_at src (4 * i + 2)]>
              (<[4 * i + 1 := byte_at src (4 * i + 1)]>
               (<[4 * i := byte_at src (4 * i)]> ret_key))))%nat
  else None.

Fixpoint WarpSyncKey_loop (src : list byte) (n i : nat) (ret_key : list byte)
  : option (list byte) :=
  match n with
  | O => Some ret_key
  | S n' =>
      match store_word ret_key i src with
      | Some r => WarpSyncKey_loop src n' (S i) r
      | None => None
      end
  end.

(** [HashmapCUDAContext::WarpSyncKey]: every lane receives the words of the
    key held by lane [lane_id]; [ret_key] is the receiving buffer. *)
Definition WarpSyncKey (c : HashmapCUDAContext) (key_ptr : list (list byte))
  (lane_id : Z) (ret_key : list byte) : option (list byte) :=
  WarpSyncKey_loop (shfl_sync [] key_ptr lane_id) (chunks_of (dsize_key_ c)) 0 ret_key.

(** the array [uint8_t src_key[MAX_KEY_BYTESIZE]] before it is written *)
Definition src_key_buffer (c : HashmapCUDAContext) : list byte :=
  read_bytes (stack_init_ c) (Z.to_nat MAX_KEY_BYTESIZE).

Definition cmp (src dst : list byte) (dsize : Z) : bool :=
  forallb (fun i => Byte.eqb (byte_at src i) (byte_at dst i)) (seq 0 (Z.to_nat dsize)).

Definition is_lane_found (c : HashmapCUDAContext) (key_ptr : list byte)
  (lane_id : nat) (ptr : ptr_t) : bool :=
  negb (Z.land (Z.shiftl 1 (Z.of_nat lane_id)) PAIR_PTR_LANES_MASK =? 0)
  && negb (ptr =? EMPTY_PAIR_PTR)
  && cmp (extract_ptr (pair_allocator_ctx_ c) ptr) key_ptr (dsize_key_ c).

Definition WarpFindKey (c : HashmapCUDAContext) (key_ptr : list byte)
  (unit_data : list ptr_t) : Z :=
  ffs (ballot_sync PAIR_PTR_LANES_MASK (imap (is_lane_found c key_ptr) unit_data)) - 1.

Definition WarpFindEmpty (unit_data : list ptr_t) : Z :=
  ffs (ballot_sync PAIR_PTR_LANES_MASK (map (fun ptr => ptr =? EMPTY_PAIR_PTR) unit_data)) - 1.

(** ** The warp-wide protocols *)

(** what a call yields: its result, a loop still running when the fuel of
    the model is spent, or a store outside the [src_key] array *)
Inductive outcome (A : Type) : Type :=
  | Returned (a : A)
  | OutOfFuel
  | MemoryFault.
Arguments Returned {A} a.
Arguments OutOfFuel {A}.
Arguments MemoryFault {A}.

(** the arguments of a warp call, one entry per lane *)
Record lanes := {
  bucket_id : list Z;
  key : list (list byte);
  value : list (list byte)
}.

(** the variables of a warp call: per lane the request flag
    ([to_search], [to_be_inserted], [to_be_deleted]), [iterator] and
    [mask]; [prev_work_queue] and [curr_slab_ptr] hold the same value in
    every lane *)
Record regs := {
  active : list bool;
  prev_work_queue : Z;
  curr_slab_ptr : Z;
  iterator : list ptr_t;
  mask : list bool
}.

Definition init_regs (lane_active : list bool) : regs :=
  {| active := lane_active; prev_work_queue := 0;
     curr_slab_ptr := HEAD_SLAB_PTR;
     iterator := repeat NULL_ITERATOR 32; mask := repeat false 32 |}.

(** [work_queue = __ballot_sync(ACTIVE_LANES_MASK, to_search)] *)
Definition work_queue (r : regs) : Z := ballot_sync ACTIVE_LANES_MASK (active r).

(** step 0 of the loop: restart from the head slab when the queue changed *)
Definition restart_slab (r : regs) : Z :=
  if negb (prev_work_queue r =? work_queue r) then HEAD_SLAB_PTR else curr_slab_ptr r.

Definition src_lane (r : regs) : Z := ffs (work_queue r) - 1.

Definition src_bucket (L : lanes) (r : regs) : Z :=
  shfl_sync 0 (bucket_id L) (src_lane r).

(** what the warp reads at the top of an iteration: the units of the
    current slab and the lane whose record carries the broadcast key *)
Record observation := {
  unit_data : list ptr_t;
  lane_found : Z
}.

Definition observe (c : HashmapCUDAContext) (L : lanes) (r : regs)
  : option observation :=
  match WarpSyncKey c (key L) (src_lane r) (src_key_buffer c) with
  | None => None
  | Some src_key =>
      let ud := read_slab c (restart_slab r) (src_bucket L r) in
      Some {| unit_data := ud; lane_found := WarpFindKey c src_key ud |}
  end.

(** the rest of one iteration of the loop of [HashmapCUDAContext::Search] *)
Definition Search_resolve (r : regs) (o : observation) : regs :=
  let wq := work_queue r in
  let curr := restart_slab r in
  if 0 <=? lane_found o then
    let found_pair_internal_ptr := shfl_sync EMPTY_PAIR_PTR (unit_data o) (lane_found o) in
    {| active := zset (active r) (src_lane r) false;
       prev_work_queue := wq; curr_slab_ptr := curr;
       iterator := zset (iterator r) (src_lane r) found_pair_internal_ptr;
       mask := zset (mask r) (src_lane r) true |}
  else
    let next_slab_ptr := shfl_sync EMPTY_SLAB_PTR (unit_data o) NEXT_SLAB_PTR_LANE in
    if next_slab_ptr =? EMPTY_SLAB_PTR then
      {| active := zset (active r) (src_lane r) false;
         prev_work_queue := wq; curr_slab_ptr := curr;
         iterator := iterator r; mask := mask r |}
    else
      {| active := active r; prev_work_queue := wq; curr_slab_ptr := next_slab_ptr;
         iterator := iterator r; mask := mask r |}.

Definition Search_body (L : lanes) (c : HashmapCUDAContext) (r : regs)
  : option (HashmapCUDAContext * regs) :=
  match observe c L r with
  | None => None
  | Some o => Some (c, Search_resolve r o)
  end.

(** the rest of one iteration of the loop of [HashmapCUDAContext::Insert];
    [prealloc] holds [prealloc_pair_internal_ptr] of every lane *)
Definition Insert_resolve (L : lanes) (prealloc : list ptr_t)
  (c : HashmapCUDAContext) (r : regs) (o : observation)
  : HashmapCUDAContext * regs :=
  let wq := work_queue r in
  let curr := restart_slab r in
  let lane_empty := WarpFindEmpty (unit_data o) in
  let prealloc_pair_internal_ptr := shfl_sync EMPTY_PAIR_PTR prealloc (src_lane r) in
  if 0 <=? lane_found o then
    (* Branch 1: key already existing, ABORT *)
    (with_pairs c (Free (pair_allocator_ctx_ c) prealloc_pair_internal_ptr),
     {| active := zset (active r) (src_lane r) false;
        prev_work_queue := wq; curr_slab_ptr := curr;
        iterator := iterator r; mask := mask r |})
  else if 0 <=? lane_empty then
    (* Branch 2: empty slot available, try to insert *)
    let '(old_pair_internal_ptr, c') :=
      atomicCAS c curr (src_bucket L r) lane_empty EMPTY_PAIR_PTR
                prealloc_pair_internal_ptr in
    if old_pair_internal_ptr =? EMPTY_PAIR_PTR then
      (c', {| active := zset (active r) (src_lane r) false;
              prev_work_queue := wq; curr_slab_ptr := curr;
              iterator := zset (iterator r) (src_lane r) prealloc_pair_internal_ptr;
              mask := zset (mask r) (src_lane r) true |})
    else
      (c', {| active := active r; prev_work_queue := wq; curr_slab_ptr := curr;
              iterator := iterator r; mask := mask r |})
  else
    (* Branch 3: nothing found in this slab, goto next slab *)
    let next_slab_ptr := shfl_sync EMPTY_SLAB_PTR (unit_data o) NEXT_SLAB_PTR_LANE in
    if negb (next_slab_ptr =? EMPTY_SLAB_PTR) then
      (c, {| active := active r; prev_work_queue := wq; curr_slab_ptr := next_slab_ptr;
             iterator := iterator r; mask := mask r |})
    else
      let '(new_next_slab_ptr, c1) := AllocateSlab c in
      let '(old_next_slab_ptr, c2) :=
        atomicCAS c1 curr (src_bucket L r) NEXT_SLAB_PTR_LANE EMPTY_SLAB_PTR
                  new_next_slab_ptr in
      let c3 := if negb (old_next_slab_ptr =? EMPTY_SLAB_PTR)
                then FreeSlab c2 new_next_slab_ptr else c2 in
      (c3, {| active := active r; prev_work_queue := wq; curr_slab_ptr := curr;
              iterator := iterator r; mask := mask r |}).

Definition Insert_body (L : lanes) (prealloc : list ptr_t)
  (c : HashmapCUDAContext) (r : regs) : option (HashmapCUDAContext * regs) :=
  match observe c L r with
  | None => None
  | Some o => Some (Insert_resolve L prealloc c r o)
  end.

(** the rest of one iteration of the loop of [HashmapCUDAContext::Remove].
    When the chain ends without a match every lane clears its own flag:
    the assignment [to_be_deleted = false] is not guarded by
    [lane_id == src_lane]. *)
Definition Remove_resolve (L : lanes) (c : HashmapCUDAContext) (r : regs)
  (o : observation) : HashmapCUDAContext * regs :=
  let wq := work_queue r in
  let curr := restart_slab r in
  if 0 <=? lane_found o then
    let src_pair_internal_ptr := shfl_sync EMPTY_PAIR_PTR (unit_data o) (lane_found o) in
    let pair_to_delete := read_unit c curr (src_bucket L r) (lane_found o) in
    let '(old_key_value_pair, c') :=
      atomicCAS c curr (src_bucket L r) (lane_found o) pair_to_delete EMPTY_PAIR_PTR in
    if old_key_value_pair =? pair_to_delete then
      (with_pairs c' (Free (pair_allocator_ctx_ c') src_pair_internal_ptr),
       {| active := zset (active r) (src_lane r) false;
          prev_work_queue := wq; curr_slab_ptr := curr;
          iterator := iterator r; mask := zset (mask r) (src_lane r) true |})
    else
      (c', {| active := zset (active r) (src_lane r) false;
              prev_work_queue := wq; curr_slab_ptr := curr;
              iterator := iterator r; mask := mask r |})
  else
    let next_slab_ptr := shfl_sync EMPTY_SLAB_PTR (unit_data o) NEXT_SLAB_PTR_LANE in
    if next_slab_ptr =? EMPTY_SLAB_PTR then
      (c, {| active := map (fun _ => false) (active r);
             prev_work_queue := wq; curr_slab_ptr := curr;
             iterator := iterator r; mask := mask r |})
    else
      (c, {| active := active r; prev_work_queue := wq; curr_slab_ptr := next_slab_ptr;
             iterator := iterator r; mask := mask r |}).

Definition Remove_body (L : lanes) (c : HashmapCUDAContext) (r : regs)
  : option (HashmapCUDAContext * regs) :=
  match observe c L r with
  | None => None
  | Some o => Some (Remove_resolve L c r o)
  end.

(** [while ((work_queue = __ballot_sync(ACTIVE_LANES_MASK, flag)))] *)
Fixpoint warp_loop (fuel : nat)
  (body : HashmapCUDAContext -> regs -> option (HashmapCUDAContext * regs))
  (c : HashmapCUDAContext) (r : regs) : outcome (HashmapCUDAContext * regs) :=
  if work_queue r =? 0 then Returned (c, r)
  else match fuel with
       | O => OutOfFuel
       | S n =>
           match body c r with
           | None => MemoryFault
           | Some (c', r') => warp_loop n body c' r'
           end
       end.

(** the state after [n] iterations of the loop *)
Fixpoint warp_steps (n : nat)
  (body : HashmapCUDAContext -> regs -> option (HashmapCUDAContext * regs))
  (c : HashmapCUDAContext) (r : regs) : option (HashmapCUDAContext * regs) :=
  match n with
  | O => Some (c, r)
  | S n' =>
      if work_queue r =? 0 then Some (c, r)
      else match body c r with
           | None => None
           | Some (c', r') => warp_steps n' body c' r'
           end
  end.

(** [HashmapCUDAContext::Search] *)
Definition Search (fuel : nat) (c : HashmapCUDAContext) (L : lanes)
  (to_search : list bool) : outcome (HashmapCUDAContext * regs) :=
  warp_loop fuel (Search_body L) c (init_regs to_search).

(** the eager allocation of [Insert]: every lane with a request takes a
    record and writes its key and value bytes into it *)
Fixpoint Insert_prealloc (c : HashmapCUDAContext) (to_be_inserted : list bool)
  (keys values : list (list byte)) : HashmapCUDAContext * list ptr_t :=
  match to_be_inserted, keys, values with
  | b :: bs, k :: ks, v :: vs =>
      if b then
        let '(p, a) := Allocate (pair_allocator_ctx_ c) in
        let a := store_record a p (read_bytes k (Z.to_nat (dsize_key_ c))
                                   ++ read_bytes v (Z.to_nat (dsize_value_ c))) in
        let '(c', ps) := Insert_prealloc (with_pairs c a) bs ks vs in
        (c', p :: ps)
      else
        let '(c', ps) := Insert_prealloc c bs ks vs in
        (c', EMPTY_PAIR_PTR :: ps)
  | _, _, _ => (c, [])
  end.

(** [HashmapCUDAContext::Insert] *)
Definition Insert (fuel : nat) (c : HashmapCUDAContext) (L : lanes)
  (to_be_inserted : list bool) : outcome (HashmapCUDAContext * regs) :=
  let '(c1, prealloc) := Insert_prealloc c to_be_inserted (key L) (value L) in
  warp_loop fuel (Insert_body L prealloc) c1 (init_regs to_be_inserted).

(** [HashmapCUDAContext::Remove] *)
Definition Remove (fuel : nat) (c : HashmapCUDAContext) (L : lanes)
  (to_be_deleted : list bool) : outcome (HashmapCUDAContext * regs) :=
  warp_loop fuel (Remove_body L) c (init_regs to_be_deleted).

(** ** Kernels *)

(** an entry of the output arrays written by a thread: the index [tid],
    [iterators[tid]] and [masks[tid]].  The address of a record stands for
    itself as its handle. *)
Definition write := (nat * (ptr_t * bool))%type.

(** the arguments handed to the lanes of warp [w]: lane [l] is thread
    [tid = 32 * w + l]; a thread with [tid >= num_keys] has no request, and
    its key is never read *)
Definition warp_lanes (c : HashmapCUDAContext) (keys values : list (list byte))
  (num_keys w : nat) : lanes * list bool :=
  let tids := seq (32 * w) 32 in
  ({| bucket_id := map (fun tid => if (tid <? num_keys)%nat
                                   then ComputeBucket c (nth tid keys []) else 0) tids;
      key := map (fun tid => if (tid <? num_keys)%nat then nth tid keys [] else []) tids;
      value := map (fun tid => if (tid <? num_keys)%nat then nth tid values [] else []) tids |},
   map (fun tid => (tid <? num_keys)%nat) tids).

(** [if (tid < num_keys) { iterators[tid] = ...; masks[tid] = ...; }] *)
Definition warp_writes (num_keys w : nat) (r : regs) : list write :=
  map (fun l => ((32 * w + l)%nat,
                 (nth l (iterator r) NULL_ITERATOR, nth l (mask r) false)))
      (seq 0 (Nat.min 32 (num_keys - 32 * w))).

Definition kernel_warp
  (op : HashmapCUDAContext -> lanes -> list bool -> outcome (HashmapCUDAContext * regs))
  (c : HashmapCUDAContext) (keys values : list (list byte)) (num_keys w : nat)
  : outcome (HashmapCUDAContext * list write) :=
  if (num_keys <=? 32 * w)%nat then Returned (c, [])
  else
    let '(L, lane_active) := warp_lanes c keys values num_keys w in
    match op c L lane_active with
    | Returned (c', r) => Returned (c', warp_writes num_keys w r)
    | OutOfFuel => OutOfFuel
    | MemoryFault => MemoryFault
    end.

(** the warps of a launch, run one after the other in the order [sched] in
    which the device schedules them; the interleaving of two warps inside
    their loops is outside this model *)
Fixpoint launch
  (warp : HashmapCUDAContext -> nat -> outcome (HashmapCUDAContext * list write))
  (sched : list nat) (c : HashmapCUDAContext)
  : outcome (HashmapCUDAContext * list write) :=
  match sched with
  | [] => Returned (c, [])
  | w :: rest =>
      match warp c w with
      | Returned (c', tr) =>
          match launch warp rest c' with
          | Returned (c'', tr') => Returned (c'', tr ++ tr')
          | OutOfFuel => OutOfFuel
          | MemoryFault => MemoryFault
          end
      | OutOfFuel => OutOfFuel
      | MemoryFault => MemoryFault
      end
  end.

(** [InsertKernel], [SearchKernel] and [RemoveKernel]: every thread with a
    request calls the warp protocol and stores its outcome *)
Definition InsertKernel (fuel : nat) (sched : list nat) (c : HashmapCUDAContext)
  (keys values : list (list byte)) (num_keys : nat)
  : outcome (HashmapCUDAContext * list write) :=
  launch (fun c' w => kernel_warp (Insert fuel) c' keys values num_keys w) sched c.

Definition SearchKernel (fuel : nat) (sched : list nat) (c : HashmapCUDAContext)
  (keys : list (list byte)) (num_queries : nat)
  : outcome (HashmapCUDAContext * list write) :=
  launch (fun c' w => kernel_warp (Search fuel) c' keys [] num_queries w) sched c.

Definition RemoveKernel (fuel : nat) (sched : list nat) (c : HashmapCUDAContext)
  (keys : list (list byte)) (num_keys : nat)
  : outcome (HashmapCUDAContext * list write) :=
  launch (fun c' w => kernel_warp (Remove fuel) c' keys [] num_keys w) sched c.

(** the values stored at index [i] of an output array, in program order *)
Definition written (tr : list write) (i : nat) : list (ptr_t * bool) :=
  map snd (filter (fun e => fst e = i) tr).

(** the output arrays after the launch *)
Definition output_iterators (tr : list write) (num_keys : nat) : list ptr_t :=
  map (fun i => fst (default (NULL_ITERATOR, false) (last (written tr i)))) (seq 0 num_keys).

Definition output_masks (tr : list write) (num_keys : nat) : list bool :=
  map (fun i => snd (default (NULL_ITERATOR, false) (last (written tr i)))) (seq 0 num_keys).


(** ** The host class HashmapCUDA *)

(** [HashmapCUDA::HashmapCUDA]; [num_slabs] is the size of the pool of the
    slab allocator and [stack_init] the content the stack happens to hold.
    Modelled from the spec: the pools start with every record free and
    every slab free and empty. *)
Definition HashmapCUDA (max_bucket_count max_keyvalue_count dsize_key dsize_value : Z)
  (num_slabs : nat) (stack_init : list byte) : HashmapCUDAContext :=
  {| num_buckets_ := max_bucket_count;
     dsize_key_ := dsize_key;
     dsize_value_ := dsize_value;
     bucket_list_head_ := repeat empty_slab (Z.to_nat max_bucket_count);
     slab_list_allocator_ctx_ :=
       {| slab_used := repeat false num_slabs;
          slab_mem := repeat empty_slab num_slabs |};
     pair_allocator_ctx_ :=
       {| pair_free := map Z.of_nat (seq 0 (Z.to_nat max_keyvalue_count));
          pair_mem := repeat [] (Z.to_nat max_keyvalue_count) |};
     stack_init_ := stack_init |}.

(** [HashmapCUDA::Insert], [HashmapCUDA::Search], [HashmapCUDA::Remove] *)
Definition HashmapCUDA_Insert := InsertKernel.
Definition HashmapCUDA_Search := SearchKernel.
Definition HashmapCUDA_Remove := RemoveKernel.

(** Modelled from the spec: HashmapCUDA::ExtractIterators, declared in the
    class and defined elsewhere: the key bytes and the value bytes of the
    record behind each iterator. *)
Definition ExtractIterators (c : HashmapCUDAContext) (iterators : list ptr_t)
  : list (list byte * list byte) :=
  map (fun it =>
         let rec := extract_ptr (pair_allocator_ctx_ c) it in
         (read_bytes rec (Z.to_nat (dsize_key_ c)),
          read_bytes (skipn (Z.to_nat (dsize_key_ c)) rec) (Z.to_nat (dsize_value_ c))))
      iterators.

(** ** Profiling *)

Definition count_units (units : list ptr_t) : Z :=
  popc (ballot_sync PAIR_PTR_LANES_MASK
          (map (fun u => negb (u =? EMPTY_PAIR_PTR)) units)).

(** the loop [while (next != EMPTY_SLAB_PTR)] of CountElemsPerBucketKernel *)
Fixpoint count_chain (fuel : nat) (c : HashmapCUDAContext) (next : ptr_t) (count : Z)
  : outcome Z :=
  if next =? EMPTY_SLAB_PTR then Returned count
  else match fuel with
       | O => OutOfFuel
       | S n =>
           let src_unit_data :=
             default empty_slab (zget (slab_mem (slab_list_allocator_ctx_ c)) next) in
           count_chain n c
             (shfl_sync EMPTY_SLAB_PTR src_unit_data NEXT_SLAB_PTR_LANE)
             (to_u32 (count + count_units src_unit_data))
       end.

(** [CountElemsPerBucketKernel] for the warp of bucket [wid] *)
Definition CountElemsPerBucketKernel (fuel : nat) (c : HashmapCUDAContext) (wid : Z)
  : outcome Z :=
  let src_unit_data := default empty_slab (zget (bucket_list_head_ c) wid) in
  count_chain fuel c (shfl_sync EMPTY_SLAB_PTR src_unit_data NEXT_SLAB_PTR_LANE)
              (to_u32 (0 + count_units src_unit_data)).

Fixpoint collect_counts (fuel : nat) (c : HashmapCUDAContext) (wids : list Z)
  : outcome (list Z) :=
  match wids with
  | [] => Returned []
  | wid :: rest =>
      match CountElemsPerBucketKernel fuel c wid with
      | Returned n =>
          match collect_counts fuel c rest with
          | Returned ns => Returned (to_i32 n :: ns)
          | OutOfFuel => OutOfFuel
          | MemoryFault => MemoryFault
          end
      | OutOfFuel => OutOfFuel
      | MemoryFault => MemoryFault
      end
  end.

(** [HashmapCUDA::CountElemsPerBucket]: one warp per bucket; the grid has
    [(num_buckets_ * 32 + 127) / 128] blocks of 128 threads, computed in
    32 bits, and a bucket without a warp keeps the 0 it was filled with *)
Definition CountElemsPerBucket (fuel : nat) (c : HashmapCUDAContext) : outcome (list Z) :=
  let num_blocks := to_u32 (num_buckets_ c * 32 + 128 - 1) / 128 in
  let warps := Z.min (num_buckets_ c) (num_blocks * 4) in
  match collect_counts fuel c (map Z.of_nat (seq 0 (Z.to_nat warps))) with
  | Returned ns => Returned (ns ++ repeat 0 (Z.to_nat (num_buckets_ c - warps)))
  | OutOfFuel => OutOfFuel
  | MemoryFault => MemoryFault
  end.

(** [std::accumulate] over [int] *)
Definition accumulate_int (l : list Z) (init : Z) : Z :=
  fold_left (fun acc x => to_i32 (acc + x)) l init.

(** [std::accumulate] with the [uint32_t] initial value [num_buckets_] *)
Definition accumulate_u32 (l : list Z) (init : Z) : Z :=
  fold_left (fun acc x => to_u32 (acc + x)) l init.

(** [HashmapCUDA::ComputeLoadFactor].  The quotient of the two counts is
    kept exact; the rounding of the division in [double] is not part of
    the model. *)
Definition ComputeLoadFactor (fuel : nat) (c : HashmapCUDAContext) : outcome Q :=
  match CountElemsPerBucket fuel c with
  | Returned elems_per_bucket =>
      let total_elems_stored := accumulate_int elems_per_bucket 0 in
      let slabs_per_bucket := CountSlabsPerSuperblock (slab_list_allocator_ctx_ c) in
      let total_slabs_stored := to_i32 (accumulate_u32 slabs_per_bucket (num_buckets_ c)) in
      Returned (inject_Z total_elems_stored
                / inject_Z (to_i32 (total_slabs_stored * WARP_WIDTH)))%Q
  | OutOfFuel => OutOfFuel
  | MemoryFault => MemoryFault
  end.

(** * Definitions used by the statements *)

(** the first lane whose predicate holds, -1 when there is none *)
Fixpoint find_first (l : list bool) : Z :=
  match l with
  | [] => -1
  | true :: _ => 0
  | false :: t => let i := find_first t in if i <? 0 then -1 else i + 1
  end.

(** the key of a 32-bit integer, as the bytes the device reads *)
Definition u32_bytes (n : Z) : list byte :=
  map (fun k => default x00 (Byte.of_N (Z.to_N ((n / 2 ^ (8 * Z.of_nat k)) mod 256))))
      (seq 0 4).

(** ** The hash as the text describes it *)

(** the 4-byte words of a key of [key_size] bytes *)
Definition key_words (key_size : Z) (key : list byte) : list Z :=
  map (int_at key) (seq 0 (chunks_of key_size)).

(** start from the offset basis; for each word XOR the word in, then
    multiply by the prime, in 64 bits *)
Definition fnv_accumulate (words : list Z) : Z :=
  fold_left (fun hash w => to_u64 (Z.lxor hash (to_u64 w) * FNV_PRIME))
            words FNV_OFFSET_BASIS.

Definition ComputeBucket_spec (num_buckets key_size : Z) (key : list byte) : Z :=
  fnv_accumulate (key_words key_size key) mod num_buckets.

(** ** Slot and slab counts as the text describes them *)

(** the number of data slots of a slab: 31 *)
Definition slotsPerSlab : Z := 31.

(** the occupied data slots of one slab *)
Definition occupied_in (s : Slab) : Z :=
  Z.of_nat (length (filter (fun u => u <> EMPTY_PAIR_PTR) (take 31 s))).

Definition sum_Z (l : list Z) : Z := fold_right Z.add 0 l.

(** the occupied data slots of the whole table: head slabs and pool *)
Definition occupied_slots (c : HashmapCUDAContext) : Z :=
  sum_Z (map occupied_in (bucket_list_head_ c))
  + sum_Z (map occupied_in (slab_mem (slab_list_allocator_ctx_ c))).

(** the allocated slabs, head slabs included *)
Definition total_slabs (c : HashmapCUDAContext) : Z :=
  num_buckets_ c
  + Z.of_nat (length (filter (fun b => b = true) (slab_used (slab_list_allocator_ctx_ c)))).

(** ** Tables used as concrete inputs *)

Definition returned_state (c0 : HashmapCUDAContext)
  (o : outcome (HashmapCUDAContext * list write)) : HashmapCUDAContext :=
  match o with Returned (c, _) => c | _ => c0 end.

Definition keys_of (l : list Z) : list (list byte) := map u32_bytes l.

(** one bucket, room for 64 pairs, 4-byte keys and values, 4 pool slabs *)
Definition table0 : HashmapCUDAContext := Eval vm_compute in HashmapCUDA 1 64 4 4 4 [].

(** keys 1..31 with values 10..310: the head slab is full *)
Definition table31 : HashmapCUDAContext := Eval vm_compute in
  returned_state table0
    (HashmapCUDA_Insert 100 [0%nat] table0
       (keys_of (map Z.of_nat (seq 1 31)))
       (keys_of (map (fun k => 10 * Z.of_nat k) (seq 1 31))) 31).

(** then key 32 with value 320: it goes to a second slab *)
Definition table32 : HashmapCUDAContext := Eval vm_compute in
  returned_state table31
    (HashmapCUDA_Insert 100 [0%nat] table31 (keys_of [32]) (keys_of [320]) 1).

(** then key 1 is removed: slot 0 of the head slab is empty again *)
Definition table32_less1 : HashmapCUDAContext := Eval vm_compute in
  returned_state table32
    (HashmapCUDA_Remove 100 [0%nat] table32 (keys_of [1]) 1).

(** then key 32 is inserted once more, with value 99 *)
Definition table32_twice : HashmapCUDAContext := Eval vm_compute in
  returned_state table32_less1
    (HashmapCUDA_Insert 100 [0%nat] table32_less1 (keys_of [32]) (keys_of [99]) 1).

(** then key 32 is removed once *)
Definition table32_once : HashmapCUDAContext := Eval vm_compute in
  returned_state table32_twice
    (HashmapCUDA_Remove 100 [0%nat] table32_twice (keys_of [32]) 1).

(** room for one pair only, holding key 1 *)
Definition table_one_pair : HashmapCUDAContext := Eval vm_compute in
  returned_state (HashmapCUDA 1 1 4 4 4 [])
    (HashmapCUDA_Insert 100 [0%nat] (HashmapCUDA 1 1 4 4 4 [])
       (keys_of [1]) (keys_of [10]) 1).






(** ** Chains *)

(** the slab a cursor designates: the head slab of the bucket, or a slab of
    the pool *)
Definition slab_at (c : HashmapCUDAContext) (curr b : Z) : option Slab :=
  if curr =? HEAD_SLAB_PTR then zget (bucket_list_head_ c) b
  else zget (slab_mem (slab_list_allocator_ctx_ c)) curr.

(** the next pointer behind a cursor *)
Definition next_of (c : HashmapCUDAContext) (curr b : Z) : Z :=
  shfl_sync EMPTY_SLAB_PTR (read_slab c curr b) NEXT_SLAB_PTR_LANE.

(** [rest] lists the slabs that follow [curr] in the chain of bucket [b],
    up to the slab whose next pointer is empty *)
Fixpoint path (c : HashmapCUDAContext) (b curr : Z) (rest : list Z) : Prop :=
  is_Some (slab_at c curr b) /\
  match rest with
  | [] => next_of c curr b = EMPTY_SLAB_PTR
  | q :: rest' =>
      next_of c curr b = q /\ q <> EMPTY_SLAB_PTR /\ q <> HEAD_SLAB_PTR
      /\ path c b q rest'
  end.

(** every slab has one unit per lane *)
Definition slabs_len (c : HashmapCUDAContext) : Prop :=
  Forall (fun s : Slab => length s = 32%nat) (bucket_list_head_ c)
  /\ Forall (fun s : Slab => length s = 32%nat) (slab_mem (slab_list_allocator_ctx_ c)).

Definition regs_ok (r : regs) : Prop :=
  length (active r) = 32%nat /\ length (iterator r) = 32%nat /\ length (mask r) = 32%nat.

(** a slab reference: two cursors designate the same slab when they agree
    here *)
Definition same_slab (curr b curr' b' : Z) : Prop :=
  if curr =? HEAD_SLAB_PTR
  then curr' = HEAD_SLAB_PTR /\ b' = b
  else curr' = curr.

(** a unit holds a record whose key bytes equal the broadcast key *)
Definition matches (c : HashmapCUDAContext) (key_ptr : list byte) (u : ptr_t) : bool :=
  negb (u =? EMPTY_PAIR_PTR)
  && cmp (extract_ptr (pair_allocator_ctx_ c) u) key_ptr (dsize_key_ c).

(** the key of a lane as every lane holds it after the broadcast *)
Definition sync_key (c : HashmapCUDAContext) (k : list byte) : list byte :=
  default [] (WarpSyncKey_loop k (chunks_of (dsize_key_ c)) 0 (src_key_buffer c)).

(** the first data lane of a slab whose record carries key [k], and the
    first empty data lane *)
Definition found_in (c : HashmapCUDAContext) (k : list byte) (ud : Slab) : Z :=
  find_first (map (matches c (sync_key c k)) (take 31 ud)).

Definition empty_in (ud : Slab) : Z :=
  find_first (map (fun u => u =? EMPTY_PAIR_PTR) (take 31 ud)).

(** ** One request along its chain *)

(** the outcome of a Search request that stands at slab [curr] of bucket
    [b] and has the slabs [rest] ahead *)
Fixpoint search_walk (c : HashmapCUDAContext) (k : list byte) (b curr : Z)
  (rest : list Z) : ptr_t * bool :=
  let ud := read_slab c curr b in
  if 0 <=? found_in c k ud
  then (shfl_sync EMPTY_PAIR_PTR ud (found_in c k ud), true)
  else match rest with
       | [] => (NULL_ITERATOR, false)
       | q :: rest' => search_walk c k b q rest'
       end.

(** the outcome of an Insert request with the record [p] in hand: the
    table it leaves and whether the key went in *)
Fixpoint insert_walk (c : HashmapCUDAContext) (k : list byte) (b : Z) (p : ptr_t)
  (curr : Z) (rest : list Z) : HashmapCUDAContext * bool :=
  let ud := read_slab c curr b in
  if 0 <=? found_in c k ud
  then (with_pairs c (Free (pair_allocator_ctx_ c) p), false)
  else if 0 <=? empty_in ud
  then (write_unit c curr b (empty_in ud) p, true)
  else match rest with
       | q :: rest' => insert_walk c k b p q rest'
       | [] =>
           let '(n, c1) := AllocateSlab c in
           (write_unit (write_unit c1 curr b NEXT_SLAB_PTR_LANE n) n b 0 p, true)
       end.

(** the outcome of a Remove request *)
Fixpoint remove_walk (c : HashmapCUDAContext) (k : list byte) (b curr : Z)
  (rest : list Z) : HashmapCUDAContext * bool :=
  let ud := read_slab c curr b in
  if 0 <=? found_in c k ud
  then let c' := write_unit c curr b (found_in c k ud) EMPTY_PAIR_PTR in
       (with_pairs c' (Free (pair_allocator_ctx_ c')
                         (shfl_sync EMPTY_PAIR_PTR ud (found_in c k ud))), true)
  else match rest with
       | [] => (c, false)
       | q :: rest' => remove_walk c k b q rest'
       end.

(** the key of the source lane *)
Definition src_key_of (L : lanes) (r : regs) : list byte :=
  shfl_sync [] (key L) (src_lane r).

(** the pool of the slab allocator: a bit and a block per handle, handles
    below the head marker, and every free block empty *)
Definition pool_ok (c : HashmapCUDAContext) : Prop :=
  length (slab_used (slab_list_allocator_ctx_ c))
  = length (slab_mem (slab_list_allocator_ctx_ c))
  /\ Z.of_nat (length (slab_mem (slab_list_allocator_ctx_ c))) < HEAD_SLAB_PTR
  /\ (forall n : nat, slab_used (slab_list_allocator_ctx_ c) !! n = Some false ->
        slab_mem (slab_list_allocator_ctx_ c) !! n = Some empty_slab).

(** the record a lane holds for its request *)
Definition src_prealloc (prealloc : list ptr_t) (r : regs) : ptr_t :=
  shfl_sync EMPTY_PAIR_PTR prealloc (src_lane r).

(** ** The shape of a table *)

(** [chains] lists, bucket by bucket, the pool slabs of the chain behind
    the head slab: each list is the path from its head, no slab is on two
    chains or twice on one, and the slabs on chains are the claimed ones *)
Definition chains_ok (c : HashmapCUDAContext) (chains : list (list Z)) : Prop :=
  length chains = length (bucket_list_head_ c)
  /\ (forall (b : nat) (ch : list Z), chains !! b = Some ch ->
        path c (Z.of_nat b) HEAD_SLAB_PTR ch)
  /\ NoDup (concat chains)
  /\ (forall n : Z, n ∈ concat chains <->
        0 <= n /\ slab_used (slab_list_allocator_ctx_ c) !! Z.to_nat n = Some true).

Definition table_ok (c : HashmapCUDAContext) (chains : list (list Z)) : Prop :=
  0 < num_buckets_ c < 2 ^ 32
  /\ Z.of_nat (length (bucket_list_head_ c)) = num_buckets_ c
  /\ slabs_len c /\ pool_ok c /\ chains_ok c chains.

(** the free blocks of the slab pool *)
Definition free_slabs (c : HashmapCUDAContext) : nat :=
  length (filter (fun b => b = false) (slab_used (slab_list_allocator_ctx_ c))).

(** the last slab of a chain: the head slab when the chain is empty *)
Definition chain_tail (ch : list Z) : Z := default HEAD_SLAB_PTR (last ch).

(** what no operation changes: the sizes fixed at construction *)
Definition same_config (c c' : HashmapCUDAContext) : Prop :=
  num_buckets_ c' = num_buckets_ c
  /\ dsize_key_ c' = dsize_key_ c
  /\ dsize_value_ c' = dsize_value_ c
  /\ stack_init_ c' = stack_init_ c
  /\ length (pair_mem (pair_allocator_ctx_ c')) = length (pair_mem (pair_allocator_ctx_ c)).

(** the requests a warp still holds *)
Definition count_active (r : regs) : nat :=
  length (filter (fun b => b = true) (active r)).

(** the bucket of every lane is a bucket of the table *)
Definition lanes_ok (c : HashmapCUDAContext) (L : lanes) : Prop :=
  Forall (fun b => 0 <= b < num_buckets_ c) (bucket_id L).

(** the indices of the output arrays that warp [w] writes *)
Definition warp_tids (num_keys w : nat) : list nat :=
  seq (32 * w) (Nat.min 32 (num_keys - 32 * w)).


(** the occupied data slots on the chain of a bucket: its head slab and
    the pool slabs [ch] *)
Definition chain_count (c : HashmapCUDAContext) (b : Z) (ch : list Z) : Z :=
  occupied_in (read_slab c HEAD_SLAB_PTR b)
  + sum_Z (map (fun q => occupied_in (read_slab c q b)) ch).

(** the occupied data slots of a pool slab *)
Definition pool_occupied (c : HashmapCUDAContext) (q : Z) : Z :=
  occupied_in (default empty_slab (zget (slab_mem (slab_list_allocator_ctx_ c)) q)).


(** ** Keys and records *)

#[global] Instance byte_eqdec : EqDecision byte := Byte.byte_eq_dec.

(** the key bytes of a request: the [dsize_key_] bytes behind its pointer *)
Definition key_of (c : HashmapCUDAContext) (k : list byte) : list byte :=
  read_bytes k (Z.to_nat (dsize_key_ c)).

(** the key bytes of the record behind a handle *)
Definition key_bytes (c : HashmapCUDAContext) (u : ptr_t) : list byte :=
  key_of c (extract_ptr (pair_allocator_ctx_ c) u).

(** the handles held by the occupied data slots of a slab *)
Definition occupied_units (s : Slab) : list ptr_t :=
  filter (fun u => u <> EMPTY_PAIR_PTR) (take 31 s).

(** the handles held by the occupied data slots of the whole table, head
    slabs and pool, slot by slot *)
Definition table_units (c : HashmapCUDAContext) : list ptr_t :=
  concat (map occupied_units (bucket_list_head_ c))
  ++ concat (map occupied_units (slab_mem (slab_list_allocator_ctx_ c))).

(** no two occupied data slots reference records with equal key bytes *)
Definition unique_keys (c : HashmapCUDAContext) : Prop :=
  NoDup (map (key_bytes c) (table_units c)).

(** the key sizes for which the broadcast hands over the whole key: whole
    4-byte words, at most 32 bytes *)
Definition key_size_ok (c : HashmapCUDAContext) : Prop :=
  0 <= dsize_key_ c <= MAX_KEY_BYTESIZE /\ dsize_key_ c mod 4 = 0.

(** what the lanes with an open request hold, in lane order *)
Fixpoint in_hand {A} (xs : list A) (act : list bool) : list A :=
  match xs, act with
  | x :: xs', a :: rest => if a then x :: in_hand xs' rest else in_hand xs' rest
  | _, _ => []
  end.

(** the pair store as the table sees it: [held] lists the handles that sit
    in a data slot or with a lane; they are records of the pool, none of
    them is free or held twice, and no two carry the same key *)
Definition store_ok (c : HashmapCUDAContext) (held : list ptr_t) : Prop :=
  NoDup (held ++ pair_free (pair_allocator_ctx_ c))
  /\ Forall (fun u => 0 <= u < Z.of_nat (length (pair_mem (pair_allocator_ctx_ c))))
            (held ++ pair_free (pair_allocator_ctx_ c))
  /\ Z.of_nat (length (pair_mem (pair_allocator_ctx_ c))) <= EMPTY_PAIR_PTR
  /\ NoDup (map (key_bytes c) held).

(** the record Insert writes for a request *)
Definition record_of (c : HashmapCUDAContext) (k v : list byte) : list byte :=
  read_bytes k (Z.to_nat (dsize_key_ c)) ++ read_bytes v (Z.to_nat (dsize_value_ c)).




(** ** A caller's sequence of batch Inserts *)







(** ** The spatial hasher of the voxel hash table *)

(** [SpatialHasher::operator()] on a key [(key(0), key(1), key(2))]: the
    products are taken in [int] (wrapping: an overflow is not defined by
    the language and wraps on the device), [%] is the remainder of the
    truncated division, and the result is converted to [size_t] *)
Definition SpatialHasher (bucket_count_ : Z) (key : Z * Z * Z) : Z :=
  let p0 := 73856093 in
  let p1 := 19349669 in
  let p2 := 83492791 in
  let r := Z.rem (Z.lxor (Z.lxor (to_i32 (fst (fst key) * p0))
                                 (to_i32 (snd (fst key) * p1)))
                         (to_i32 (snd key * p2)))
                 bucket_count_ in
  let r := if r <? 0 then to_i32 (r + bucket_count_) else r in
  to_u64 r.

(** ** What an Insert leaves of the slabs *)

(** the data slots of slab [s'] are those of [s], but for empty slots that
    took the record [p] *)
Definition slab_grows (p : ptr_t) (s s' : Slab) : Prop :=
  Forall2 (fun u u' => u' = u \/ (u = EMPTY_PAIR_PTR /\ u' = p)) (take 31 s) (take 31 s').

(** ** A request on its own *)


(** * Proofs *)

(** ** Lane masks *)

Lemma lane_bits_nonneg l : 0 <= lane_bits l.
Proof. induction l as [|[] l IH]; cbn [lane_bits Z.b2z]; lia. Qed.

Lemma lane_bits_bound l : lane_bits l < 2 ^ Z.of_nat (length l).
Proof.
  induction l as [|b l IH]; [simpl; lia|].
  cbn [lane_bits length]. rewrite Nat2Z.inj_succ, Z.pow_succ_r by lia.
  destruct b; simpl Z.b2z; lia.
Qed.

Lemma find_first_ge l : -1 <= find_first l.
Proof.
  induction l as [|[] l IH]; simpl; try lia.
  destruct (Z.ltb_spec (find_first l) 0); lia.
Qed.

Lemma ffs_pos_pos p : 1 <= ffs_pos p.
Proof. induction p; simpl; lia. Qed.

Lemma ffs_lane_bits l : ffs (lane_bits l) - 1 = find_first l.
Proof.
  induction l as [|b l IH]; [reflexivity|].
  pose proof (lane_bits_nonneg l) as Hn.
  pose proof (find_first_ge l) as Hf.
  cbn [lane_bits find_first]. destruct b; cbn [Z.b2z].
  - destruct (lane_bits l) as [|p|p]; [reflexivity| |lia].
    change (1 + 2 * Z.pos p) with (Z.pos p~1). reflexivity.
  - destruct (lane_bits l) as [|p|p] eqn:E; [| |lia].
    + change (0 + 2 * 0) with 0. rewrite <- IH. reflexivity.
    + change (0 + 2 * Z.pos p) with (Z.pos p~0). cbn [ffs ffs_pos] in *.
      pose proof (ffs_pos_pos p).
      destruct (Z.ltb_spec (find_first l) 0); lia.
Qed.

Lemma lane_bits_app l1 l2 :
  lane_bits (l1 ++ l2) = lane_bits l1 + 2 ^ Z.of_nat (length l1) * lane_bits l2.
Proof.
  induction l1 as [|b l1 IH]; [simpl; lia|].
  cbn [app lane_bits length]. rewrite IH, Nat2Z.inj_succ, Z.pow_succ_r by lia. lia.
Qed.

Lemma ballot_active l :
  length l = 32%nat -> ballot_sync ACTIVE_LANES_MASK l = lane_bits l.
Proof.
  intros Hl. unfold ballot_sync, ACTIVE_LANES_MASK.
  change 0xFFFFFFFF with (Z.ones 32).
  rewrite Z.land_comm, Z.land_ones by lia.
  apply Z.mod_small. pose proof (lane_bits_nonneg l).
  pose proof (lane_bits_bound l). rewrite Hl in *. lia.
Qed.

Lemma ballot_pair l :
  length l = 32%nat -> ballot_sync PAIR_PTR_LANES_MASK l = lane_bits (take 31 l).
Proof.
  intros Hl. unfold ballot_sync, PAIR_PTR_LANES_MASK.
  change 0x7FFFFFFF with (Z.ones 31).
  rewrite Z.land_comm, Z.land_ones by lia.
  rewrite <- (take_drop 31 l) at 1. rewrite lane_bits_app.
  assert (Hlen : Z.of_nat (length (take 31 l)) = 31) by (rewrite length_take; lia).
  rewrite Hlen.
  pose proof (lane_bits_nonneg (take 31 l)).
  pose proof (lane_bits_bound (take 31 l)) as Hb. rewrite Hlen in Hb.
  rewrite Z.mul_comm, Z.mod_add by lia.
  apply Z.mod_small. lia.
Qed.

Lemma find_first_none l : find_first l = -1 <-> Forall (fun b => b = false) l.
Proof.
  induction l as [|[] l IH]; simpl.
  - split; auto.
  - split; [lia|]. intros H. inversion H; discriminate.
  - pose proof (find_first_ge l). destruct (Z.ltb_spec (find_first l) 0).
    + split; auto. intros _. constructor; auto. apply IH. lia.
    + split; [lia|]. intros H'. inversion H'; subst. apply IH in H4. lia.
Qed.

Lemma find_first_some l i :
  0 <= i -> find_first l = i ->
  l !! Z.to_nat i = Some true /\ (forall j, (j < Z.to_nat i)%nat -> l !! j = Some false).
Proof.
  revert i. induction l as [|[] l IH]; simpl; intros i Hi H.
  - lia.
  - subst. split; [reflexivity|]. intros j Hj. simpl in Hj. lia.
  - destruct (Z.ltb_spec (find_first l) 0); [lia|].
    destruct (IH (i - 1)) as [H1 H2]; [lia..|].
    replace (Z.to_nat i) with (S (Z.to_nat (i - 1))) by lia.
    split; [exact H1|]. intros [|j] Hj; [reflexivity|]. simpl. apply H2. lia.
Qed.

Lemma find_first_lt l : find_first l < Z.of_nat (length l).
Proof.
  induction l as [|[] l IH]; cbn [find_first length]; try lia.
  destruct (Z.ltb_spec (find_first l) 0); lia.
Qed.

(** ** The hash function *)

Lemma DefaultHash_loop_fold key n i h :
  DefaultHash_loop key n i h =
  fold_left (fun hash w => to_u64 (Z.lxor hash (to_u64 w) * FNV_PRIME))
            (map (int_at key) (seq i n)) h.
Proof.
  revert i h. induction n as [|n IH]; intros i h; [reflexivity|].
  cbn [DefaultHash_loop seq map fold_left]. apply IH.
Qed.

Lemma DefaultHash_range key n i h : 0 <= h < 2 ^ 64 ->
  0 <= DefaultHash_loop key n i h < 2 ^ 64.
Proof.
  revert i h. induction n as [|n IH]; intros i h Hh; [exact Hh|].
  cbn [DefaultHash_loop]. apply IH. unfold to_u64. apply Z.mod_pos_bound. lia.
Qed.

Lemma read_bytes_byte_at k1 k2 n j :
  read_bytes k1 n = read_bytes k2 n -> (j < n)%nat -> byte_at k1 j = byte_at k2 j.
Proof.
  unfold read_bytes. intros H Hj.
  assert (Hn : nth j (map (byte_at k1) (seq 0 n)) x00 = nth j (map (byte_at k2) (seq 0 n)) x00)
    by (rewrite H; reflexivity).
  rewrite !(nth_indep _ x00 (byte_at k1 0)) in Hn at 1 by (rewrite length_map, length_seq; lia).
  rewrite map_nth in Hn.
  rewrite (nth_indep _ _ (byte_at k2 0)) in Hn by (rewrite length_map, length_seq; lia).
  rewrite map_nth in Hn. rewrite seq_nth in Hn by lia. exact Hn.
Qed.


Lemma chunks_of_le key_size : 0 <= key_size ->
  (4 * chunks_of key_size <= Z.to_nat key_size)%nat.
Proof.
  intros H. unfold chunks_of.
  pose proof (Z.mul_div_le key_size 4 ltac:(lia)).
  pose proof (Z.div_pos key_size 4 H ltac:(lia)). lia.
Qed.


Lemma ComputeBucket_fold c k :
  0 < num_buckets_ c < 2 ^ 32 ->
  ComputeBucket c k = ComputeBucket_spec (num_buckets_ c) (dsize_key_ c) k.
Proof.
  intros Hnb.
  unfold ComputeBucket, ComputeBucket_spec, DefaultHash, fnv_accumulate, key_words.
  rewrite DefaultHash_loop_fold. unfold to_u32. apply Z.mod_small.
  pose proof (Z.mod_pos_bound
    (fold_left (fun hash w => to_u64 (Z.lxor hash (to_u64 w) * FNV_PRIME))
       (map (int_at k) (seq 0 (chunks_of (dsize_key_ c)))) FNV_OFFSET_BASIS)
    (num_buckets_ c) ltac:(lia)). lia.
Qed.

Lemma ComputeBucket_range c k :
  0 < num_buckets_ c < 2 ^ 32 -> 0 <= ComputeBucket c k < num_buckets_ c.
Proof.
  intros Hnb. rewrite ComputeBucket_fold by exact Hnb.
  unfold ComputeBucket_spec. apply Z.mod_pos_bound. lia.
Qed.




(** ** The key broadcast *)

Lemma store_word_some buf i src :
  (4 * i + 4 <= length buf)%nat ->
  exists buf', store_word buf i src = Some buf' /\ length buf' = length buf.
Proof.
  intros H. unfold store_word.
  destruct (Z.leb_spec (4 * Z.of_nat i + 4) (Z.of_nat (length buf))); [|lia].
  eexists. split; [reflexivity|]. rewrite !length_insert. reflexivity.
Qed.

Lemma WarpSyncKey_loop_some src n i buf :
  (4 * (i + n) <= length buf)%nat ->
  exists buf', WarpSyncKey_loop src n i buf = Some buf' /\ length buf' = length buf.
Proof.
  revert i buf. induction n as [|n IH]; intros i buf H.
  - exists buf. split; reflexivity.
  - cbn [WarpSyncKey_loop].
    destruct (store_word_some buf i src) as (b1 & -> & Hl); [lia|].
    destruct (IH (S i) b1) as (b2 & -> & Hl2); [lia|].
    exists b2. split; [reflexivity|]. congruence.
Qed.

Lemma src_key_buffer_length c : length (src_key_buffer c) = 32%nat.
Proof. unfold src_key_buffer, read_bytes. rewrite length_map, length_seq. reflexivity. Qed.

Lemma chunks_of_bound key_size n : key_size <= Z.of_nat n ->
  (4 * chunks_of key_size <= n)%nat.
Proof.
  intros H. destruct (Z.le_gt_cases 0 key_size) as [Hk|Hk].
  - pose proof (chunks_of_le key_size Hk). lia.
  - unfold chunks_of. assert (key_size / 4 < 0) by (apply Z.div_lt_upper_bound; lia). lia.
Qed.

Lemma WarpSyncKey_some c keys lane :
  dsize_key_ c <= MAX_KEY_BYTESIZE ->
  exists buf, WarpSyncKey c keys lane (src_key_buffer c) = Some buf
              /\ length buf = 32%nat.
Proof.
  intros H. unfold WarpSyncKey.
  destruct (WarpSyncKey_loop_some (shfl_sync [] keys lane) (chunks_of (dsize_key_ c)) 0
              (src_key_buffer c)) as (b & Hb & Hl).
  - rewrite src_key_buffer_length. pose proof (chunks_of_bound (dsize_key_ c) 32 H). lia.
  - exists b. split; [exact Hb|]. rewrite Hl. apply src_key_buffer_length.
Qed.

Lemma observe_some c L r :
  dsize_key_ c <= MAX_KEY_BYTESIZE -> exists o, observe c L r = Some o.
Proof.
  intros H. unfold observe.
  destruct (WarpSyncKey_some c (key L) (src_lane r) H) as (b & -> & _). eauto.
Qed.

(** C10: with a key size of at most MAX_KEY_BYTESIZE = 32 bytes, every
    store of the key broadcast stays inside the 32-byte [src_key] array, so
    an iteration of Search, Insert or Remove never leaves the array. *)
Theorem WarpSyncKey_within_src_key (c : HashmapCUDAContext) :
  dsize_key_ c <= MAX_KEY_BYTESIZE ->
  (forall (keys : list (list byte)) (lane : Z),
      exists buf, WarpSyncKey c keys lane (src_key_buffer c) = Some buf
                  /\ length buf = Z.to_nat MAX_KEY_BYTESIZE)
  /\ (forall (L : lanes) (prealloc : list ptr_t) (r : regs),
        Search_body L c r <> None
        /\ Insert_body L prealloc c r <> None
        /\ Remove_body L c r <> None).
Proof.
  intros H. split.
  - intros keys lane. apply WarpSyncKey_some. exact H.
  - intros L prealloc r. unfold Search_body, Insert_body, Remove_body.
    destruct (observe_some c L r H) as (o & ->). repeat split; discriminate.
Qed.

Lemma WarpSyncKey_within_src_key_witness :
  let c := HashmapCUDA 7 16 32 4 2 [] in
  exists buf, WarpSyncKey c [repeat x01 32] 0 (src_key_buffer c) = Some buf
              /\ length buf = Z.to_nat MAX_KEY_BYTESIZE.
Proof.
  assert (Hk : dsize_key_ (HashmapCUDA 7 16 32 4 2 []) <= MAX_KEY_BYTESIZE)
    by (vm_compute; discriminate).
  exact (proj1 (WarpSyncKey_within_src_key (HashmapCUDA 7 16 32 4 2 []) Hk)
               [repeat x01 32] 0).
Defined.

(** a key of 36 bytes makes the ninth store leave the array *)
Example WarpSyncKey_36_leaves_src_key :
  WarpSyncKey (HashmapCUDA 7 16 36 4 2 []) [repeat x01 36] 0
              (src_key_buffer (HashmapCUDA 7 16 36 4 2 [])) = None.
Proof. vm_compute. reflexivity. Qed.
(** ** Runs on concrete tables *)

Example table32_search_all :
  output_masks
    (match HashmapCUDA_Search 100 [0%nat] table32 (keys_of (map Z.of_nat (seq 1 32))) 32 with
     | Returned (_, tr) => tr | _ => [] end) 32 = repeat true 32.
Proof. vm_compute. reflexivity. Qed.

(** ** The loop of a warp call *)

Section WarpLoop.
Variable body : HashmapCUDAContext -> regs -> option (HashmapCUDAContext * regs).



Lemma warp_loop_of_steps n c r c' r' fuel :
  warp_steps n body c r = Some (c', r') -> work_queue r' = 0 -> (n <= fuel)%nat ->
  warp_loop fuel body c r = Returned (c', r').
Proof.
  revert c r fuel. induction n as [|n IH]; intros c r fuel Hs Hq Hf.
  - cbn [warp_steps] in Hs. injection Hs as -> ->.
    destruct fuel; cbn [warp_loop]; rewrite Hq; reflexivity.
  - cbn [warp_steps] in Hs. destruct (work_queue r =? 0) eqn:E.
    + injection Hs as -> ->. destruct fuel; cbn [warp_loop]; rewrite E; reflexivity.
    + destruct fuel as [|fuel]; [lia|]. cbn [warp_loop]. rewrite E.
      destruct (body c r) as [[c1 r1]|]; [|discriminate].
      apply IH; [exact Hs|exact Hq|lia].
Qed.


End WarpLoop.


(** ** Arrays and slabs *)

Lemma in_range_spec {A} (l : list A) i :
  in_range l i = true <-> 0 <= i < Z.of_nat (length l).
Proof. unfold in_range. rewrite andb_true_iff, Z.leb_le, Z.ltb_lt. tauto. Qed.

Lemma zget_Some {A} (l : list A) i x :
  zget l i = Some x <-> 0 <= i < Z.of_nat (length l) /\ l !! Z.to_nat i = Some x.
Proof.
  unfold zget. destruct (in_range l i) eqn:E.
  - apply in_range_spec in E. tauto.
  - split; [discriminate|]. intros [H _]. apply in_range_spec in H. congruence.
Qed.

Lemma zget_is_Some {A} (l : list A) i :
  is_Some (zget l i) <-> 0 <= i < Z.of_nat (length l).
Proof.
  split.
  - intros [x Hx]. apply zget_Some in Hx. tauto.
  - intros H. unfold zget. rewrite (proj2 (in_range_spec l i) H).
    apply lookup_lt_is_Some. lia.
Qed.

Lemma zget_None {A} (l : list A) i :
  zget l i = None <-> ~ (0 <= i < Z.of_nat (length l)).
Proof.
  rewrite <- zget_is_Some. rewrite eq_None_not_Some. tauto.
Qed.

Lemma zset_length {A} (l : list A) i x : length (zset l i x) = length l.
Proof. unfold zset. destruct (in_range l i); [apply length_insert|reflexivity]. Qed.

Lemma zget_zset_eq {A} (l : list A) i x :
  0 <= i < Z.of_nat (length l) -> zget (zset l i x) i = Some x.
Proof.
  intros H. unfold zget, zset. rewrite (proj2 (in_range_spec l i) H).
  unfold in_range. rewrite length_insert.
  fold (in_range l i). rewrite (proj2 (in_range_spec l i) H).
  apply list_lookup_insert_eq. lia.
Qed.

Lemma zget_zset_ne {A} (l : list A) i j x :
  i <> j -> zget (zset l i x) j = zget l j.
Proof.
  intros H. unfold zget, zset. destruct (in_range l i) eqn:E; [|reflexivity].
  unfold in_range. rewrite length_insert. fold (in_range l j).
  destruct (in_range l j) eqn:E2; [|reflexivity].
  apply in_range_spec in E, E2. apply list_lookup_insert_ne. lia.
Qed.

Lemma zset_id {A} (l : list A) i x : zget l i = Some x -> zset l i x = l.
Proof.
  intros H. apply zget_Some in H as [Hr Hl]. unfold zset.
  rewrite (proj2 (in_range_spec l i) Hr). apply list_insert_id. exact Hl.
Qed.

Lemma zset_out {A} (l : list A) i x : zget l i = None -> zset l i x = l.
Proof.
  intros H. apply zget_None in H. unfold zset.
  destruct (in_range l i) eqn:E; [|reflexivity]. apply in_range_spec in E. tauto.
Qed.

Lemma take_zset_ge {A} (l : list A) n i x :
  Z.of_nat n <= i -> take n (zset l i x) = take n l.
Proof.
  intros H. unfold zset. destruct (in_range l i); [|reflexivity].
  apply take_insert_ge. lia.
Qed.

Lemma lookup_repeat {A} (x y : A) n i :
  repeat x n !! i = Some y <-> y = x /\ (i < n)%nat.
Proof.
  revert i. induction n as [|n IH]; intros i; cbn [repeat].
  - split; [discriminate|lia].
  - destruct i as [|i]; cbn.
    + split; [intros [= ->]; split; [reflexivity|lia]|intros [-> _]; reflexivity].
    + rewrite IH. split; intros [? ?]; split; auto; lia.
Qed.

Lemma shfl_sync_zget {A} (d : A) l i x : zget l i = Some x -> shfl_sync d l i = x.
Proof. unfold shfl_sync. intros ->. reflexivity. Qed.

(** the projections of an updated context *)
Lemma read_slab_slab_at c curr b s : slab_at c curr b = Some s -> read_slab c curr b = s.
Proof. unfold slab_at, read_slab. destruct (curr =? HEAD_SLAB_PTR); intros ->; reflexivity. Qed.

Lemma read_slab_length c curr b : slabs_len c -> length (read_slab c curr b) = 32%nat.
Proof.
  intros [Hh Hn]. unfold read_slab.
  destruct (curr =? HEAD_SLAB_PTR).
  - destruct (zget (bucket_list_head_ c) b) as [s|] eqn:E; [|reflexivity].
    apply zget_Some in E as [_ E]. cbn [default].
    eapply Forall_lookup_1 in Hh; eauto.
  - destruct (zget _ curr) as [s|] eqn:E; [|reflexivity].
    apply zget_Some in E as [_ E]. cbn [default].
    eapply Forall_lookup_1 in Hn; eauto.
Qed.

Lemma same_slab_dec curr b curr' b' :
  {same_slab curr b curr' b'} + {~ same_slab curr b curr' b'}.
Proof.
  unfold same_slab. destruct (curr =? HEAD_SLAB_PTR).
  - destruct (Z.eq_dec curr' HEAD_SLAB_PTR), (Z.eq_dec b' b); tauto.
  - apply Z.eq_dec.
Qed.

Lemma slab_at_write_same c curr b lane v curr' b' s :
  same_slab curr b curr' b' -> slab_at c curr b = Some s ->
  slab_at (write_unit c curr b lane v) curr' b' = Some (zset s lane v).
Proof.
  unfold same_slab, slab_at, write_unit. destruct (curr =? HEAD_SLAB_PTR) eqn:E.
  - intros [-> ->] H. rewrite H. cbn. change (HEAD_SLAB_PTR =? HEAD_SLAB_PTR) with true.
    cbv iota. apply zget_zset_eq. apply zget_is_Some. eauto.
  - intros -> H. rewrite H. cbn. rewrite E.
    apply zget_zset_eq. apply zget_is_Some. eauto.
Qed.

Lemma slab_at_write_other c curr b lane v curr' b' :
  ~ same_slab curr b curr' b' ->
  slab_at (write_unit c curr b lane v) curr' b' = slab_at c curr' b'.
Proof.
  unfold same_slab, slab_at, write_unit. destruct (curr =? HEAD_SLAB_PTR) eqn:E.
  - intros Hn. destruct (zget (bucket_list_head_ c) b) as [s|]; [|reflexivity].
    cbn. destruct (curr' =? HEAD_SLAB_PTR) eqn:E'; [|reflexivity].
    apply Z.eqb_eq in E'. apply zget_zset_ne. intros ->. tauto.
  - intros Hn. destruct (zget _ curr) as [s|]; [|reflexivity].
    cbn. destruct (curr' =? HEAD_SLAB_PTR) eqn:E'; [reflexivity|].
    apply zget_zset_ne. congruence.
Qed.

Lemma read_slab_default c curr b :
  read_slab c curr b = default empty_slab (slab_at c curr b).
Proof. unfold read_slab, slab_at. destruct (curr =? HEAD_SLAB_PTR); reflexivity. Qed.

Lemma read_slab_write_other c curr b lane v curr' b' :
  ~ same_slab curr b curr' b' ->
  read_slab (write_unit c curr b lane v) curr' b' = read_slab c curr' b'.
Proof. intros H. rewrite !read_slab_default, slab_at_write_other by exact H. reflexivity. Qed.

Lemma read_slab_write_same c curr b lane v s :
  slab_at c curr b = Some s ->
  read_slab (write_unit c curr b lane v) curr b = zset s lane v.
Proof.
  intros H. rewrite read_slab_default.
  rewrite (slab_at_write_same c curr b lane v curr b s); [reflexivity| |exact H].
  unfold same_slab. destruct (curr =? HEAD_SLAB_PTR) eqn:E; [|reflexivity].
  apply Z.eqb_eq in E. tauto.
Qed.

Lemma write_unit_none c curr b lane v :
  slab_at c curr b = None -> write_unit c curr b lane v = c.
Proof.
  unfold slab_at, write_unit. destruct (curr =? HEAD_SLAB_PTR); intros ->; reflexivity.
Qed.

Lemma write_unit_pairs c curr b lane v :
  pair_allocator_ctx_ (write_unit c curr b lane v) = pair_allocator_ctx_ c.
Proof.
  unfold write_unit. destruct (curr =? HEAD_SLAB_PTR).
  - destruct (zget _ b); reflexivity.
  - destruct (zget _ curr); reflexivity.
Qed.

Lemma write_unit_config c curr b lane v :
  num_buckets_ (write_unit c curr b lane v) = num_buckets_ c
  /\ dsize_key_ (write_unit c curr b lane v) = dsize_key_ c
  /\ dsize_value_ (write_unit c curr b lane v) = dsize_value_ c
  /\ stack_init_ (write_unit c curr b lane v) = stack_init_ c
  /\ slab_used (slab_list_allocator_ctx_ (write_unit c curr b lane v))
     = slab_used (slab_list_allocator_ctx_ c)
  /\ length (bucket_list_head_ (write_unit c curr b lane v)) = length (bucket_list_head_ c)
  /\ length (slab_mem (slab_list_allocator_ctx_ (write_unit c curr b lane v)))
     = length (slab_mem (slab_list_allocator_ctx_ c)).
Proof.
  unfold write_unit. destruct (curr =? HEAD_SLAB_PTR).
  - destruct (zget _ b); cbn; rewrite ?zset_length; repeat split; reflexivity.
  - destruct (zget _ curr); cbn; rewrite ?zset_length; repeat split; reflexivity.
Qed.

Lemma Forall_zset {A} (P : A -> Prop) l i x :
  Forall P l -> P x -> Forall P (zset l i x).
Proof.
  intros Hl Hx. unfold zset. destruct (in_range l i); [|exact Hl].
  apply Forall_insert; assumption.
Qed.

Lemma write_unit_slabs_len c curr b lane v :
  slabs_len c -> slabs_len (write_unit c curr b lane v).
Proof.
  intros [Hh Hn]. unfold write_unit, slabs_len. destruct (curr =? HEAD_SLAB_PTR).
  - destruct (zget _ b) as [s|] eqn:E; [|split; assumption]. cbn. split; [|exact Hn].
    apply Forall_zset; [exact Hh|]. rewrite zset_length.
    apply zget_Some in E as [_ E]. eapply Forall_lookup_1 in Hh; eauto.
  - destruct (zget _ curr) as [s|] eqn:E; [|split; assumption]. cbn. split; [exact Hh|].
    apply Forall_zset; [exact Hn|]. rewrite zset_length.
    apply zget_Some in E as [_ E]. eapply Forall_lookup_1 in Hn; eauto.
Qed.

(** ** Votes of a warp *)

Lemma work_queue_bits r : regs_ok r -> work_queue r = lane_bits (active r).
Proof. intros [H _]. apply ballot_active. exact H. Qed.

Lemma src_lane_find r : regs_ok r -> src_lane r = find_first (active r).
Proof. intros H. unfold src_lane. rewrite work_queue_bits by exact H. apply ffs_lane_bits. Qed.

Lemma ffs_nonneg x : 0 <= x -> 0 <= ffs x.
Proof. destruct x; simpl; try lia. pose proof (ffs_pos_pos p). lia. Qed.

Lemma ffs_zero x : 0 <= x -> (ffs x = 0 <-> x = 0).
Proof.
  destruct x; simpl; try lia. pose proof (ffs_pos_pos p). intros _. split; [lia|discriminate].
Qed.

Lemma work_queue_zero r : regs_ok r -> (work_queue r = 0 <-> src_lane r = -1).
Proof.
  intros H. unfold src_lane. rewrite work_queue_bits by exact H.
  pose proof (lane_bits_nonneg (active r)) as Hn.
  pose proof (ffs_zero _ Hn). pose proof (ffs_nonneg _ Hn). lia.
Qed.

Lemma work_queue_running r : regs_ok r -> 0 <= src_lane r -> (work_queue r =? 0) = false.
Proof.
  intros H Hs. apply Z.eqb_neq. intros Hz. apply work_queue_zero in Hz; [lia|exact H].
Qed.

Lemma lane_bits_clear l i :
  l !! i = Some true -> lane_bits (<[i := false]> l) = lane_bits l - 2 ^ Z.of_nat i.
Proof.
  revert i. induction l as [|b l IH]; intros [|i] H; try discriminate.
  - cbn in H. injection H as ->. cbn [list_insert lane_bits Z.b2z]. cbn. lia.
  - cbn [lookup list_lookup] in H. cbn [insert list_insert lane_bits].
    rewrite IH by exact H. rewrite Nat2Z.inj_succ, Z.pow_succ_r by lia. lia.
Qed.

Lemma src_lane_range r : regs_ok r -> 0 <= src_lane r ->
  src_lane r < 32 /\ active r !! Z.to_nat (src_lane r) = Some true.
Proof.
  intros H Hs. rewrite src_lane_find in * by exact H.
  pose proof (find_first_lt (active r)) as Hlt. destruct H as [Hl _]. rewrite Hl in Hlt.
  split; [lia|]. apply (find_first_some _ _ Hs eq_refl).
Qed.

(** clearing the flag of the source lane changes the queue *)
Lemma work_queue_clear r r' :
  regs_ok r -> 0 <= src_lane r ->
  active r' = zset (active r) (src_lane r) false ->
  regs_ok r' -> work_queue r' <> work_queue r.
Proof.
  intros H Hs Ha H'. rewrite !work_queue_bits by assumption.
  destruct (src_lane_range r H Hs) as [Hlt Hact].
  rewrite Ha. unfold zset. destruct H as [Hl _].
  rewrite (proj2 (in_range_spec (active r) (src_lane r))) by lia.
  rewrite lane_bits_clear by exact Hact.
  assert (0 < 2 ^ Z.of_nat (Z.to_nat (src_lane r))) by (apply Z.pow_pos_nonneg; lia). lia.
Qed.

Lemma lane_bits_all_false l : lane_bits (map (fun _ : bool => false) l) = 0.
Proof. induction l as [|b l IH]; cbn [map lane_bits Z.b2z]; lia. Qed.

Lemma pair_lane_bit (i : nat) : (i < 31)%nat ->
  negb (Z.land (Z.shiftl 1 (Z.of_nat i)) PAIR_PTR_LANES_MASK =? 0) = true.
Proof.
  intros H. do 31 (destruct i as [|i]; [reflexivity|]). lia.
Qed.

Lemma WarpFindKey_found_in c k ud :
  length ud = 32%nat -> WarpFindKey c (sync_key c k) ud = found_in c k ud.
Proof.
  intros Hl. unfold WarpFindKey, found_in.
  rewrite ballot_pair by (rewrite length_imap; exact Hl).
  rewrite ffs_lane_bits. f_equal.
  apply list_eq. intros i.
  rewrite list_lookup_fmap.
  destruct (decide (i < 31)%nat) as [Hi|Hi].
  - rewrite !lookup_take_lt by exact Hi. rewrite list_lookup_imap.
    destruct (ud !! i) as [u|]; [|reflexivity]. cbn.
    unfold is_lane_found, matches. rewrite pair_lane_bit by exact Hi. reflexivity.
  - rewrite !lookup_take_ge by lia. reflexivity.
Qed.

Lemma WarpFindEmpty_empty_in ud :
  length ud = 32%nat -> WarpFindEmpty ud = empty_in ud.
Proof.
  intros Hl. unfold WarpFindEmpty, empty_in.
  rewrite ballot_pair by (rewrite length_map; exact Hl).
  rewrite ffs_lane_bits. f_equal. rewrite <- fmap_take. reflexivity.
Qed.

Lemma found_in_take c k ud ud' : take 31 ud = take 31 ud' -> found_in c k ud = found_in c k ud'.
Proof. unfold found_in. intros ->. reflexivity. Qed.

Lemma empty_in_take ud ud' : take 31 ud = take 31 ud' -> empty_in ud = empty_in ud'.
Proof. unfold empty_in. intros ->. reflexivity. Qed.

Lemma find_first_map_some {A} (f : A -> bool) (l : list A) :
  0 <= find_first (map f l) ->
  exists u, l !! Z.to_nat (find_first (map f l)) = Some u /\ f u = true.
Proof.
  intros H. destruct (find_first_some (map f l) _ H eq_refl) as [Hi _].
  rewrite list_lookup_fmap in Hi.
  destruct (l !! Z.to_nat (find_first (map f l))) as [u|]; [|discriminate].
  cbn in Hi. injection Hi as Hi. eauto.
Qed.

Lemma find_first_take_some {A} (f : A -> bool) (ud : list A) :
  0 <= find_first (map f (take 31 ud)) ->
  find_first (map f (take 31 ud)) < 31 /\
  exists u, zget ud (find_first (map f (take 31 ud))) = Some u /\ f u = true.
Proof.
  intros H. pose proof (find_first_lt (map f (take 31 ud))) as Hlt.
  rewrite length_map, length_take in Hlt.
  destruct (find_first_map_some f (take 31 ud) H) as (u & E & Hu).
  split; [lia|]. exists u. split; [|exact Hu]. apply zget_Some.
  apply lookup_take_Some in E as [E Hlt']. split; [|exact E].
  apply lookup_lt_Some in E. lia.
Qed.

Lemma empty_in_some ud : 0 <= empty_in ud ->
  empty_in ud < 31 /\ zget ud (empty_in ud) = Some EMPTY_PAIR_PTR.
Proof.
  intros H. unfold empty_in in *.
  destruct (find_first_take_some _ ud H) as (Hlt & u & Hu & Hb).
  apply Z.eqb_eq in Hb. subst u. split; assumption.
Qed.

Lemma empty_in_none ud : empty_in ud = -1 ->
  forall i u, (i < 31)%nat -> ud !! i = Some u -> u <> EMPTY_PAIR_PTR.
Proof.
  intros H i u Hi Hu. unfold empty_in in H. apply find_first_none in H.
  rewrite Forall_fmap in H. eapply Forall_lookup_1 in H.
  2: { rewrite lookup_take_lt by exact Hi. exact Hu. }
  cbn in H. apply Z.eqb_neq in H. exact H.
Qed.

Lemma found_in_some c k ud : 0 <= found_in c k ud ->
  found_in c k ud < 31 /\
  exists u, zget ud (found_in c k ud) = Some u /\ matches c (sync_key c k) u = true.
Proof. intros H. apply (find_first_take_some _ ud H). Qed.

Lemma found_in_ge c k ud : -1 <= found_in c k ud.
Proof. apply find_first_ge. Qed.

Lemma empty_in_ge ud : -1 <= empty_in ud.
Proof. apply find_first_ge. Qed.

Lemma found_in_empty_slab c k : found_in c k empty_slab = -1.
Proof.
  unfold found_in. apply find_first_none. rewrite Forall_fmap.
  apply Forall_forall. intros u Hu.
  cbn. unfold matches.
  assert (u = EMPTY_PAIR_PTR) as ->.
  { apply elem_of_take in Hu as (i & Hu & _). unfold empty_slab in Hu.
    apply lookup_repeat in Hu. tauto. }
  reflexivity.
Qed.

Lemma empty_in_empty_slab : empty_in empty_slab = 0.
Proof. reflexivity. Qed.

(** ** One iteration of a loop *)

Lemma observe_eq c L r :
  dsize_key_ c <= MAX_KEY_BYTESIZE -> slabs_len c ->
  observe c L r =
  Some {| unit_data := read_slab c (restart_slab r) (src_bucket L r);
          lane_found := found_in c (src_key_of L r)
                          (read_slab c (restart_slab r) (src_bucket L r)) |}.
Proof.
  intros Hk Hlen. unfold observe.
  destruct (WarpSyncKey_some c (key L) (src_lane r) Hk) as (buf & Hb & _).
  rewrite Hb. f_equal. f_equal.
  rewrite <- WarpFindKey_found_in by (apply read_slab_length; exact Hlen).
  unfold sync_key, src_key_of. unfold WarpSyncKey in Hb. rewrite Hb. reflexivity.
Qed.

Lemma warp_steps_S body c r c1 r1 n :
  (work_queue r =? 0) = false -> body c r = Some (c1, r1) ->
  warp_steps (S n) body c r = warp_steps n body c1 r1.
Proof. intros Hq Hb. cbn [warp_steps]. rewrite Hq, Hb. reflexivity. Qed.

(** a lane that keeps its request keeps the cursor it was given *)
Lemma restart_slab_moved r r1 q :
  active r1 = active r -> prev_work_queue r1 = work_queue r -> curr_slab_ptr r1 = q ->
  restart_slab r1 = q /\ src_lane r1 = src_lane r /\ work_queue r1 = work_queue r.
Proof.
  intros Ha Hp Hc.
  assert (Hw : work_queue r1 = work_queue r) by (unfold work_queue; rewrite Ha; reflexivity).
  unfold restart_slab, src_lane. rewrite Hw, Hp, Z.eqb_refl. cbn. auto.
Qed.

(** ** A Search request *)

Lemma Search_request c L rest : forall r curr,
  dsize_key_ c <= MAX_KEY_BYTESIZE -> slabs_len c -> regs_ok r ->
  0 <= src_lane r -> restart_slab r = curr ->
  path c (src_bucket L r) curr rest ->
  exists n r',
    (1 <= n <= 1 + length rest)%nat
    /\ warp_steps n (Search_body L) c r = Some (c, r')
    /\ active r' = zset (active r) (src_lane r) false
    /\ prev_work_queue r' = work_queue r
    /\ (let res := search_walk c (src_key_of L r) (src_bucket L r) curr rest in
        iterator r' = (if snd res then zset (iterator r) (src_lane r) (fst res)
                       else iterator r)
        /\ mask r' = (if snd res then zset (mask r) (src_lane r) true else mask r)).
Proof.
  induction rest as [|q rest IH]; intros r curr Hk Hlen Hr Hs Hc Hp.
  - pose proof (work_queue_running r Hr Hs) as Hq.
    assert (Hb : Search_body L c r = Some (c, Search_resolve r
              {| unit_data := read_slab c curr (src_bucket L r);
                 lane_found := found_in c (src_key_of L r)
                                 (read_slab c curr (src_bucket L r)) |})).
    { unfold Search_body. rewrite observe_eq by assumption. rewrite Hc. reflexivity. }
    exists 1%nat. eexists. split; [cbn; lia|].
    split; [rewrite (warp_steps_S _ _ _ _ _ 0 Hq Hb); reflexivity|].
    unfold Search_resolve. cbn [unit_data lane_found search_walk].
    destruct (0 <=? found_in c (src_key_of L r) (read_slab c curr (src_bucket L r))) eqn:E.
    + cbn. auto.
    + destruct Hp as [_ Hp]. unfold next_of in Hp. rewrite Hp.
      rewrite Z.eqb_refl. cbn. auto.
  - pose proof (work_queue_running r Hr Hs) as Hq.
    assert (Hb : Search_body L c r = Some (c, Search_resolve r
              {| unit_data := read_slab c curr (src_bucket L r);
                 lane_found := found_in c (src_key_of L r)
                                 (read_slab c curr (src_bucket L r)) |})).
    { unfold Search_body. rewrite observe_eq by assumption. rewrite Hc. reflexivity. }
    unfold Search_resolve in Hb. cbn [unit_data lane_found] in Hb.
    cbn [search_walk].
    destruct (0 <=? found_in c (src_key_of L r) (read_slab c curr (src_bucket L r))) eqn:E.
    + exists 1%nat. eexists. split; [cbn [length]; lia|].
      split; [rewrite (warp_steps_S _ _ _ _ _ 0 Hq Hb); reflexivity|].
      cbn. auto.
    + destruct Hp as (_ & Hn & Hne & Hnh & Hp). unfold next_of in Hn.
      rewrite Hn in Hb. apply Z.eqb_neq in Hne. rewrite Hne in Hb.
      match type of Hb with _ = Some (_, ?x) => set (r1 := x) in * end.
      destruct (restart_slab_moved r r1 q eq_refl eq_refl eq_refl) as (Hc1 & Hs1 & Hw1).
      assert (Hb1 : src_bucket L r1 = src_bucket L r)
        by (unfold src_bucket; rewrite Hs1; reflexivity).
      assert (Hk1 : src_key_of L r1 = src_key_of L r)
        by (unfold src_key_of; rewrite Hs1; reflexivity).
      destruct (IH r1 q Hk Hlen) as (n & r' & Hn' & Hst & Ha & Hpw & Hres).
      * exact Hr.
      * rewrite Hs1. exact Hs.
      * exact Hc1.
      * rewrite Hb1. exact Hp.
      * exists (S n), r'. split; [cbn [length]; lia|].
        split; [rewrite (warp_steps_S _ _ _ _ _ n Hq Hb); exact Hst|].
        rewrite Hs1 in Ha, Hres. rewrite Hw1 in Hpw. rewrite Hb1, Hk1 in Hres.
        split; [exact Ha|]. split; [exact Hpw|]. exact Hres.
Qed.

(** ** An Insert request *)

Lemma first_free_spec used i n :
  first_free used i = Some n ->
  i <= n < i + Z.of_nat (length used)
  /\ used !! Z.to_nat (n - i) = Some false.
Proof.
  revert i. induction used as [|b used IH]; intros i H; [discriminate|].
  cbn [first_free] in H. destruct b.
  - apply IH in H as [H1 H2]. cbn [length]. split; [lia|].
    replace (Z.to_nat (n - i)) with (S (Z.to_nat (n - (i + 1)))) by lia. exact H2.
  - injection H as <-. cbn [length]. split; [lia|].
    replace (i - i) with 0 by lia. reflexivity.
Qed.

Lemma first_free_none used i :
  first_free used i = None <-> Forall (fun b => b = true) used.
Proof.
  revert i. induction used as [|b used IH]; intros i; cbn [first_free].
  - split; auto.
  - destruct b.
    + rewrite IH. split; [intros H; constructor; auto|intros H; inversion H; auto].
    + split; [discriminate|]. intros H. inversion H. discriminate.
Qed.

Lemma found_in_ctx c c' k ud :
  pair_allocator_ctx_ c' = pair_allocator_ctx_ c ->
  dsize_key_ c' = dsize_key_ c -> stack_init_ c' = stack_init_ c ->
  found_in c' k ud = found_in c k ud.
Proof.
  intros Hp Hd Hs. unfold found_in, matches, sync_key, src_key_buffer.
  rewrite Hp, Hd, Hs. reflexivity.
Qed.

Lemma Insert_body_eq c L prealloc r :
  dsize_key_ c <= MAX_KEY_BYTESIZE -> slabs_len c ->
  Insert_body L prealloc c r =
  Some (Insert_resolve L prealloc c r
          {| unit_data := read_slab c (restart_slab r) (src_bucket L r);
             lane_found := found_in c (src_key_of L r)
                             (read_slab c (restart_slab r) (src_bucket L r)) |}).
Proof. intros Hk Hlen. unfold Insert_body. rewrite observe_eq by assumption. reflexivity. Qed.

Lemma read_unit_zget c curr b lane u :
  zget (read_slab c curr b) lane = Some u -> read_unit c curr b lane = u.
Proof. unfold read_unit. intros ->. reflexivity. Qed.

Lemma AllocateSlab_some c n :
  first_free (slab_used (slab_list_allocator_ctx_ c)) 0 = Some n ->
  AllocateSlab c
  = (n, with_slabs c {| slab_used := zset (slab_used (slab_list_allocator_ctx_ c)) n true;
                        slab_mem := slab_mem (slab_list_allocator_ctx_ c) |}).
Proof. intros H. unfold AllocateSlab, WarpAllocate. rewrite H. reflexivity. Qed.

Lemma zget_32 (ud : list Z) i : length ud = 32%nat -> 0 <= i < 32 -> is_Some (zget ud i).
Proof. intros Hl Hi. apply zget_is_Some. lia. Qed.

(** the three iterations that extend a full chain and fill the first slot
    of the new slab *)
Lemma Insert_request_tail c L prealloc r curr n :
  dsize_key_ c <= MAX_KEY_BYTESIZE -> slabs_len c -> regs_ok r -> pool_ok c ->
  0 <= src_lane r -> restart_slab r = curr ->
  path c (src_bucket L r) curr [] ->
  found_in c (src_key_of L r) (read_slab c curr (src_bucket L r)) = -1 ->
  empty_in (read_slab c curr (src_bucket L r)) = -1 ->
  first_free (slab_used (slab_list_allocator_ctx_ c)) 0 = Some n ->
  exists r',
    warp_steps 3 (Insert_body L prealloc) c r
    = Some (write_unit (write_unit (snd (AllocateSlab c)) curr (src_bucket L r)
                          NEXT_SLAB_PTR_LANE n)
                       n (src_bucket L r) 0 (src_prealloc prealloc r), r')
    /\ active r' = zset (active r) (src_lane r) false
    /\ prev_work_queue r' = work_queue r
    /\ iterator r' = zset (iterator r) (src_lane r) (src_prealloc prealloc r)
    /\ mask r' = zset (mask r) (src_lane r) true.
Proof.
  intros Hk Hlen Hr Hpool Hs Hc [Hsl Hnext] Hf He Hff.
  set (b := src_bucket L r) in *. set (k := src_key_of L r) in *.
  set (p := src_prealloc prealloc r).
  pose proof (work_queue_running r Hr Hs) as Hq.
  destruct Hsl as [ud Hud]. pose proof (read_slab_slab_at _ _ _ _ Hud) as Hrd.
  assert (Hudlen : length ud = 32%nat) by (rewrite <- Hrd; apply read_slab_length; exact Hlen).
  rewrite Hrd in Hf, He. unfold next_of in Hnext. rewrite Hrd in Hnext.
  pose proof (first_free_spec _ _ _ Hff) as [Hrange Hfree].
  rewrite Z.sub_0_r in Hfree.
  destruct Hpool as (Hpl & Hph & Hpe).
  pose proof (Hpe _ Hfree) as Hmem.
  rewrite (AllocateSlab_some c n Hff). cbn [snd].
  set (c1 := with_slabs c _).
  assert (Hn0 : n <> HEAD_SLAB_PTR) by lia.
  assert (Hn0' : (n =? HEAD_SLAB_PTR) = false) by (apply Z.eqb_neq; exact Hn0).
  assert (Hne : n <> EMPTY_SLAB_PTR) by (unfold EMPTY_SLAB_PTR, HEAD_SLAB_PTR in *; lia).
  assert (Hud1 : slab_at c1 curr b = Some ud) by exact Hud.
  (* iteration 1: allocate and link *)
  set (r1 := {| active := active r; prev_work_queue := work_queue r;
                curr_slab_ptr := curr; iterator := iterator r; mask := mask r |}).
  set (c2 := write_unit c1 curr b NEXT_SLAB_PTR_LANE n).
  assert (Hb1 : Insert_body L prealloc c r = Some (c2, r1)).
  { rewrite Insert_body_eq by assumption. unfold Insert_resolve.
    cbn [unit_data lane_found]. rewrite Hc. fold b k. rewrite Hrd.
    rewrite WarpFindEmpty_empty_in by exact Hudlen.
    rewrite Hf, He. cbn [Z.leb Z.compare].
    rewrite Hnext, Z.eqb_refl. cbn [negb].
    rewrite (AllocateSlab_some c n Hff). fold c1.
    unfold atomicCAS.
    assert (Hru : read_unit c1 curr b NEXT_SLAB_PTR_LANE = EMPTY_SLAB_PTR).
    { unfold read_unit. rewrite (read_slab_slab_at c1 curr b ud Hud1).
      exact Hnext. }
    rewrite Hru, Z.eqb_refl. cbn [negb]. reflexivity. }
  destruct (restart_slab_moved r r1 curr eq_refl eq_refl eq_refl) as (Hc1 & Hs1 & Hw1).
  (* iteration 2: follow the new link *)
  assert (Hlen2 : slabs_len c2) by (apply write_unit_slabs_len; exact Hlen).
  assert (Hk2 : dsize_key_ c2 <= MAX_KEY_BYTESIZE)
    by (unfold c2; rewrite (proj1 (proj2 (write_unit_config c1 curr b NEXT_SLAB_PTR_LANE n))); exact Hk).
  assert (Hrd2 : read_slab c2 curr b = zset ud NEXT_SLAB_PTR_LANE n)
    by (apply read_slab_write_same; exact Hud1).
  assert (Hfc2 : forall x, found_in c2 k x = found_in c k x).
  { intros x. apply found_in_ctx.
    - unfold c2. rewrite write_unit_pairs. reflexivity.
    - unfold c2. rewrite (proj1 (proj2 (write_unit_config c1 curr b NEXT_SLAB_PTR_LANE n))).
      reflexivity.
    - unfold c2. rewrite (proj1 (proj2 (proj2 (proj2 (write_unit_config c1 curr b NEXT_SLAB_PTR_LANE n))))).
      reflexivity. }
  assert (Htk : take 31 (zset ud NEXT_SLAB_PTR_LANE n) = take 31 ud)
    by (apply take_zset_ge; unfold NEXT_SLAB_PTR_LANE; lia).
  set (r2 := {| active := active r; prev_work_queue := work_queue r;
                curr_slab_ptr := n; iterator := iterator r; mask := mask r |}).
  assert (Hb2 : Insert_body L prealloc c2 r1 = Some (c2, r2)).
  { rewrite Insert_body_eq by assumption. unfold Insert_resolve.
    cbn [unit_data lane_found]. rewrite Hc1.
    replace (src_bucket L r1) with b by (unfold b, src_bucket; rewrite Hs1; reflexivity).
    replace (src_key_of L r1) with k by (unfold k, src_key_of; rewrite Hs1; reflexivity).
    rewrite Hrd2.
    rewrite WarpFindEmpty_empty_in by (rewrite zset_length; exact Hudlen).
    rewrite Hfc2, (found_in_take c k _ ud Htk), (empty_in_take _ ud Htk).
    rewrite Hf, He. cbn [Z.leb Z.compare].
    assert (Hnx : shfl_sync EMPTY_SLAB_PTR (zset ud NEXT_SLAB_PTR_LANE n) NEXT_SLAB_PTR_LANE = n).
    { apply shfl_sync_zget. apply zget_zset_eq. apply zget_is_Some.
      apply zget_32; [exact Hudlen|unfold NEXT_SLAB_PTR_LANE; lia]. }
    rewrite Hnx. apply Z.eqb_neq in Hne. rewrite Hne. cbn [negb].
    rewrite Hw1. reflexivity. }
  destruct (restart_slab_moved r r2 n eq_refl eq_refl eq_refl) as (Hc2 & Hs2 & Hw2).
  (* iteration 3: the first slot of the new slab *)
  assert (Hnot : ~ same_slab curr b n b).
  { unfold same_slab. destruct (curr =? HEAD_SLAB_PTR) eqn:E; [tauto|].
    intros ->. unfold slab_at in Hud. rewrite E in Hud.
    apply zget_Some in Hud as [_ Hud]. rewrite Hmem in Hud. injection Hud as <-.
    rewrite empty_in_empty_slab in He. discriminate. }
  assert (Hrd3 : slab_at c2 n b = Some empty_slab).
  { unfold c2. rewrite slab_at_write_other by exact Hnot.
    unfold slab_at. rewrite Hn0'. apply zget_Some. split; [|exact Hmem].
    cbn. lia. }
  eexists. split.
  - rewrite (warp_steps_S _ _ _ _ _ 2 Hq Hb1).
    rewrite (warp_steps_S _ _ _ c2 r2 1); [| rewrite Hw1; exact Hq | exact Hb2].
    rewrite (warp_steps_S _ _ _ (write_unit c2 n b 0 p)
               {| active := zset (active r) (src_lane r) false;
                  prev_work_queue := work_queue r; curr_slab_ptr := n;
                  iterator := zset (iterator r) (src_lane r) p;
                  mask := zset (mask r) (src_lane r) true |} 0);
      [reflexivity | rewrite Hw2; exact Hq |].
    rewrite Insert_body_eq by assumption. unfold Insert_resolve.
    cbn [unit_data lane_found]. rewrite Hc2.
    replace (src_bucket L r2) with b by (unfold b, src_bucket; rewrite Hs2; reflexivity).
    replace (src_key_of L r2) with k by (unfold k, src_key_of; rewrite Hs2; reflexivity).
    replace (src_prealloc prealloc r2) with p
      by (unfold p, src_prealloc; rewrite Hs2; reflexivity).
    rewrite (read_slab_slab_at c2 n b _ Hrd3).
    rewrite Hfc2, found_in_empty_slab.
    rewrite WarpFindEmpty_empty_in by reflexivity. rewrite empty_in_empty_slab.
    cbn [Z.leb Z.compare]. unfold atomicCAS.
    assert (Hru : read_unit c2 n b 0 = EMPTY_PAIR_PTR).
    { apply read_unit_zget. rewrite (read_slab_slab_at c2 n b _ Hrd3). reflexivity. }
    rewrite Hru, Z.eqb_refl. rewrite Hs2, Hw2. reflexivity.
  - cbn. auto.
Qed.

Lemma Insert_request c L prealloc rest : forall r curr,
  dsize_key_ c <= MAX_KEY_BYTESIZE -> slabs_len c -> regs_ok r -> pool_ok c ->
  0 <= src_lane r -> restart_slab r = curr ->
  path c (src_bucket L r) curr rest ->
  is_Some (first_free (slab_used (slab_list_allocator_ctx_ c)) 0) ->
  let res := insert_walk c (src_key_of L r) (src_bucket L r)
               (src_prealloc prealloc r) curr rest in
  exists n r',
    (1 <= n <= 3 + length rest)%nat
    /\ warp_steps n (Insert_body L prealloc) c r = Some (fst res, r')
    /\ active r' = zset (active r) (src_lane r) false
    /\ prev_work_queue r' = work_queue r
    /\ iterator r' = (if snd res then zset (iterator r) (src_lane r) (src_prealloc prealloc r)
                      else iterator r)
    /\ mask r' = (if snd res then zset (mask r) (src_lane r) true else mask r).
Proof.
  induction rest as [|q rest IH]; intros r curr Hk Hlen Hr Hpool Hs Hc Hp Hfree res;
    pose proof (work_queue_running r Hr Hs) as Hq;
    pose proof (Insert_body_eq c L prealloc r Hk Hlen) as Hb;
    unfold Insert_resolve in Hb; cbn [unit_data lane_found] in Hb; rewrite Hc in Hb;
    rewrite WarpFindEmpty_empty_in in Hb by (apply read_slab_length; exact Hlen);
    fold (src_prealloc prealloc r) in Hb;
    unfold res; cbn [insert_walk];
    pose proof (found_in_ge c (src_key_of L r) (read_slab c curr (src_bucket L r))) as Hfg;
    pose proof (empty_in_ge (read_slab c curr (src_bucket L r))) as Heg;
    destruct (Z.leb_spec 0 (found_in c (src_key_of L r) (read_slab c curr (src_bucket L r))))
      as [Hf|Hf].
  1, 3: (exists 1%nat; eexists; split; [cbn [length]; lia|];
         split; [rewrite (warp_steps_S _ _ _ _ _ 0 Hq Hb); reflexivity|cbn; auto]).
  all: destruct (Z.leb_spec 0 (empty_in (read_slab c curr (src_bucket L r)))) as [He|He].
  1, 3: (destruct (empty_in_some _ He) as [_ Hz];
         unfold atomicCAS in Hb; rewrite (read_unit_zget _ _ _ _ _ Hz), Z.eqb_refl in Hb;
         exists 1%nat; eexists; split; [cbn [length]; lia|];
         split; [rewrite (warp_steps_S _ _ _ _ _ 0 Hq Hb); reflexivity|cbn; auto]).
  - (* the chain ends here: a new slab *)
    destruct Hfree as [n Hn].
    destruct (Insert_request_tail c L prealloc r curr n Hk Hlen Hr Hpool Hs Hc Hp
                ltac:(lia) ltac:(lia) Hn) as (r' & Hst & Hrest).
    exists 3%nat, r'. split; [cbn [length]; lia|].
    rewrite (AllocateSlab_some c n Hn). rewrite (AllocateSlab_some c n Hn) in Hst.
    cbn [fst snd] in *. split; [exact Hst|exact Hrest].
  - (* the chain goes on *)
    destruct Hp as (_ & Hn & Hne & Hnh & Hp). unfold next_of in Hn.
    rewrite Hn in Hb. apply Z.eqb_neq in Hne. rewrite Hne in Hb. cbn [negb] in Hb.
    match type of Hb with _ = Some (_, ?x) => set (r1 := x) in * end.
    destruct (restart_slab_moved r r1 q eq_refl eq_refl eq_refl) as (Hc1 & Hs1 & Hw1).
    assert (Hb1 : src_bucket L r1 = src_bucket L r)
      by (unfold src_bucket; rewrite Hs1; reflexivity).
    assert (Hk1 : src_key_of L r1 = src_key_of L r)
      by (unfold src_key_of; rewrite Hs1; reflexivity).
    assert (Hp1 : src_prealloc prealloc r1 = src_prealloc prealloc r)
      by (unfold src_prealloc; rewrite Hs1; reflexivity).
    destruct (IH r1 q Hk Hlen Hr Hpool) as (n & r' & Hn' & Hst & Ha & Hpw & Hres);
      [rewrite Hs1; exact Hs|exact Hc1|rewrite Hb1; exact Hp|exact Hfree|].
    exists (S n), r'. split; [cbn [length]; lia|].
    rewrite Hb1, Hk1, Hp1, Hs1, Hw1 in *.
    split; [rewrite (warp_steps_S _ _ _ _ _ n Hq Hb); exact Hst|].
    split; [exact Ha|]. split; [exact Hpw|]. exact Hres.
Qed.

(** ** A Remove request *)

Lemma Remove_body_eq c L r :
  dsize_key_ c <= MAX_KEY_BYTESIZE -> slabs_len c ->
  Remove_body L c r =
  Some (Remove_resolve L c r
          {| unit_data := read_slab c (restart_slab r) (src_bucket L r);
             lane_found := found_in c (src_key_of L r)
                             (read_slab c (restart_slab r) (src_bucket L r)) |}).
Proof. intros Hk Hlen. unfold Remove_body. rewrite observe_eq by assumption. reflexivity. Qed.

Lemma Remove_request c L rest : forall r curr,
  dsize_key_ c <= MAX_KEY_BYTESIZE -> slabs_len c -> regs_ok r ->
  0 <= src_lane r -> restart_slab r = curr ->
  path c (src_bucket L r) curr rest ->
  let res := remove_walk c (src_key_of L r) (src_bucket L r) curr rest in
  exists n r',
    (1 <= n <= 1 + length rest)%nat
    /\ warp_steps n (Remove_body L) c r = Some (fst res, r')
    /\ active r' = (if snd res then zset (active r) (src_lane r) false
                    else map (fun _ => false) (active r))
    /\ prev_work_queue r' = work_queue r
    /\ iterator r' = iterator r
    /\ mask r' = (if snd res then zset (mask r) (src_lane r) true else mask r).
Proof.
  induction rest as [|q rest IH]; intros r curr Hk Hlen Hr Hs Hc Hp res;
    pose proof (work_queue_running r Hr Hs) as Hq;
    pose proof (Remove_body_eq c L r Hk Hlen) as Hb;
    unfold Remove_resolve in Hb; cbn [unit_data lane_found] in Hb; rewrite Hc in Hb;
    unfold res; cbn [remove_walk];
    destruct (Z.leb_spec 0 (found_in c (src_key_of L r) (read_slab c curr (src_bucket L r))))
      as [Hf|Hf].
  1, 3: (unfold atomicCAS in Hb; rewrite Z.eqb_refl in Hb;
         assert (Hu : read_unit c curr (src_bucket L r)
                        (found_in c (src_key_of L r) (read_slab c curr (src_bucket L r)))
                      = shfl_sync EMPTY_PAIR_PTR (read_slab c curr (src_bucket L r))
                          (found_in c (src_key_of L r) (read_slab c curr (src_bucket L r))))
           by reflexivity;
         exists 1%nat; eexists; split; [cbn [length]; lia|];
         split; [rewrite (warp_steps_S _ _ _ _ _ 0 Hq Hb); reflexivity|cbn; auto]).
  - destruct Hp as [_ Hp]. unfold next_of in Hp. rewrite Hp, Z.eqb_refl in Hb.
    exists 1%nat. eexists. split; [cbn [length]; lia|].
    split; [rewrite (warp_steps_S _ _ _ _ _ 0 Hq Hb); reflexivity|cbn; auto].
  - destruct Hp as (_ & Hn & Hne & Hnh & Hp). unfold next_of in Hn.
    rewrite Hn in Hb. apply Z.eqb_neq in Hne. rewrite Hne in Hb.
    match type of Hb with _ = Some (_, ?x) => set (r1 := x) in * end.
    destruct (restart_slab_moved r r1 q eq_refl eq_refl eq_refl) as (Hc1 & Hs1 & Hw1).
    assert (Hb1 : src_bucket L r1 = src_bucket L r)
      by (unfold src_bucket; rewrite Hs1; reflexivity).
    assert (Hk1 : src_key_of L r1 = src_key_of L r)
      by (unfold src_key_of; rewrite Hs1; reflexivity).
    destruct (IH r1 q Hk Hlen Hr) as (n & r' & Hn' & Hst & Ha & Hpw & Hres);
      [rewrite Hs1; exact Hs|exact Hc1|rewrite Hb1; exact Hp|].
    exists (S n), r'. split; [cbn [length]; lia|].
    rewrite Hb1, Hk1, Hs1, Hw1 in *.
    split; [rewrite (warp_steps_S _ _ _ _ _ n Hq Hb); exact Hst|].
    split; [exact Ha|]. split; [exact Hpw|]. exact Hres.
Qed.

(** ** Paths under updates *)

Lemma next_of_write_data c s b0 lane v curr b :
  lane <> NEXT_SLAB_PTR_LANE ->
  next_of (write_unit c s b0 lane v) curr b = next_of c curr b.
Proof.
  intros Hl. unfold next_of. rewrite !read_slab_default.
  destruct (same_slab_dec s b0 curr b) as [Hs|Hs].
  - destruct (slab_at c s b0) as [sl|] eqn:E.
    + rewrite (slab_at_write_same c s b0 lane v curr b sl Hs E).
      assert (Hsame : slab_at c curr b = Some sl).
      { unfold same_slab, slab_at in *. destruct (s =? HEAD_SLAB_PTR) eqn:E1.
        - destruct Hs as [-> ->]. exact E.
        - subst curr. rewrite E1. exact E. }
      rewrite Hsame. cbn [from_option id]. unfold shfl_sync. rewrite zget_zset_ne by exact Hl.
      reflexivity.
    + rewrite write_unit_none by exact E. reflexivity.
  - rewrite slab_at_write_other by exact Hs. reflexivity.
Qed.

Lemma slab_at_write_is_Some c s b0 lane v curr b :
  is_Some (slab_at (write_unit c s b0 lane v) curr b) <-> is_Some (slab_at c curr b).
Proof.
  destruct (same_slab_dec s b0 curr b) as [Hs|Hs].
  - destruct (slab_at c s b0) as [sl|] eqn:E.
    + rewrite (slab_at_write_same c s b0 lane v curr b sl Hs E).
      assert (Hsame : slab_at c curr b = Some sl).
      { unfold same_slab, slab_at in *. destruct (s =? HEAD_SLAB_PTR) eqn:E1.
        - destruct Hs as [-> ->]. exact E.
        - subst curr. rewrite E1. exact E. }
      rewrite Hsame. split; eauto.
    + rewrite write_unit_none by exact E. reflexivity.
  - rewrite slab_at_write_other by exact Hs. reflexivity.
Qed.

Lemma path_write_data c s b0 lane v b rest : forall curr,
  lane <> NEXT_SLAB_PTR_LANE ->
  path c b curr rest -> path (write_unit c s b0 lane v) b curr rest.
Proof.
  induction rest as [|q rest IH]; intros curr Hl; cbn [path];
    rewrite next_of_write_data, slab_at_write_is_Some by exact Hl.
  - tauto.
  - intros (H1 & H2 & H3 & H4 & H5). repeat split; auto.
Qed.

(** a path reads only the slabs it visits *)
Lemma path_ext c c' b rest : forall curr,
  (forall s, s = curr \/ s ∈ rest -> slab_at c' s b = slab_at c s b) ->
  path c b curr rest -> path c' b curr rest.
Proof.
  induction rest as [|q rest IH]; intros curr Hext; cbn [path]; unfold next_of;
    rewrite !read_slab_default, (Hext curr) by auto.
  - tauto.
  - intros (H1 & H2 & H3 & H4 & H5). repeat split; auto.
    apply IH; [|exact H5]. intros s [->|Hs]; apply Hext; right.
    + apply list_elem_of_here.
    + apply list_elem_of_further. exact Hs.
Qed.

Lemma path_nodes c b rest : forall curr,
  path c b curr rest ->
  Forall (fun q => q <> HEAD_SLAB_PTR /\ q <> EMPTY_SLAB_PTR
                   /\ is_Some (zget (slab_mem (slab_list_allocator_ctx_ c)) q)) rest.
Proof.
  induction rest as [|q rest IH]; intros curr; cbn [path]; [constructor|].
  intros (H1 & H2 & H3 & H4 & H5). constructor; [|eapply IH; exact H5].
  split; [exact H4|]. split; [exact H3|].
  destruct rest; cbn [path] in H5; destruct H5 as [H5 _];
    unfold slab_at in H5; apply Z.eqb_neq in H4; rewrite H4 in H5; exact H5.
Qed.

Lemma path_app c b rest1 : forall curr rest2 q,
  path c b curr (rest1 ++ q :: rest2) -> path c b q rest2.
Proof.
  induction rest1 as [|x rest1 IH]; intros curr rest2 q; cbn [app path].
  - tauto.
  - intros (_ & _ & _ & _ & H). eapply IH. exact H.
Qed.

(** ** The shape of a table is kept *)

Lemma table_ok_with_pairs c chains a :
  table_ok c chains -> table_ok (with_pairs c a) chains.
Proof.
  intros (H1 & H2 & H3 & H4 & H5 & H6 & H7 & H8).
  split; [exact H1|]. split; [exact H2|]. split; [exact H3|]. split; [exact H4|].
  split; [exact H5|]. split; [|split; [exact H7|exact H8]].
  intros b ch Hb. eapply path_ext; [|apply (H6 b ch Hb)]. reflexivity.
Qed.

Lemma table_ok_write_data c chains s b0 lane v :
  table_ok c chains -> lane <> NEXT_SLAB_PTR_LANE ->
  (s = HEAD_SLAB_PTR \/
   (0 <= s /\ slab_used (slab_list_allocator_ctx_ c) !! Z.to_nat s = Some true)) ->
  table_ok (write_unit c s b0 lane v) chains.
Proof.
  intros (H1 & H2 & H3 & (Hp1 & Hp2 & Hp3) & H5 & H6 & H7 & H8) Hl Hs.
  destruct (write_unit_config c s b0 lane v) as (C1 & C2 & C3 & C4 & C5 & C6 & C7).
  unfold table_ok, pool_ok, chains_ok. rewrite C1, C5, C6, C7.
  split; [exact H1|]. split; [exact H2|].
  split; [apply write_unit_slabs_len; exact H3|].
  split; [split; [exact Hp1|split; [exact Hp2|]]|].
  - intros n Hn. pose proof (Hp3 n Hn) as Hm.
    unfold write_unit. destruct (s =? HEAD_SLAB_PTR) eqn:E.
    + destruct (zget (bucket_list_head_ c) b0); exact Hm.
    + destruct (zget (slab_mem (slab_list_allocator_ctx_ c)) s) as [sl|] eqn:E2; [|exact Hm].
      cbn. apply Z.eqb_neq in E. destruct Hs as [Hs|[Hs0 Hs]]; [contradiction|].
      unfold zset. destruct (in_range _ s); [|exact Hm].
      rewrite list_lookup_insert_ne; [exact Hm|]. intros <-. congruence.
  - split; [exact H5|]. split; [|split; [exact H7|exact H8]].
    intros b ch Hb. apply path_write_data; [exact Hl|]. apply (H6 b ch Hb).
Qed.

(** *** Chains as a partition of the claimed slabs *)

Lemma chains_split (chains : list (list Z)) b ch :
  chains !! b = Some ch -> chains = take b chains ++ ch :: drop (S b) chains.
Proof. intros H. symmetry. apply take_drop_middle. exact H. Qed.

Lemma elem_of_chain_concat (chains : list (list Z)) b ch x :
  chains !! b = Some ch -> x ∈ ch -> x ∈ concat chains.
Proof.
  intros H Hx. rewrite (chains_split chains b ch H), concat_app, concat_cons.
  apply elem_of_app. right. apply elem_of_app. left. exact Hx.
Qed.

Lemma chain_NoDup (chains : list (list Z)) b ch :
  NoDup (concat chains) -> chains !! b = Some ch -> NoDup ch.
Proof.
  intros Hnd H. rewrite (chains_split chains b ch H), concat_app, concat_cons in Hnd.
  apply NoDup_app in Hnd as (_ & _ & Hnd). apply NoDup_app in Hnd as (Hnd & _ & _).
  exact Hnd.
Qed.

Lemma chains_disjoint (chains : list (list Z)) b b' ch ch' x :
  NoDup (concat chains) -> chains !! b = Some ch -> chains !! b' = Some ch' ->
  b <> b' -> x ∈ ch -> x ∈ ch' -> False.
Proof.
  revert b b'. induction chains as [|c0 chains IH]; intros b b' Hnd Hb Hb' Hne Hx Hx';
    [discriminate|].
  cbn [concat] in Hnd. apply NoDup_app in Hnd as (_ & Hdis & Hnd).
  destruct b as [|b], b' as [|b']; cbn in Hb, Hb'.
  - lia.
  - injection Hb as ->. apply (Hdis x Hx). eapply elem_of_chain_concat; eauto.
  - injection Hb' as ->. apply (Hdis x Hx'). eapply elem_of_chain_concat; eauto.
  - eapply (IH b b'); eauto.
Qed.

Lemma concat_insert_snoc (chains : list (list Z)) b ch n :
  chains !! b = Some ch ->
  concat (<[b := ch ++ [n]]> chains) ≡ₚ n :: concat chains.
Proof.
  intros H. rewrite insert_take_drop by (eapply lookup_lt_Some; exact H).
  rewrite (chains_split chains b ch H) at 3.
  rewrite !concat_app, !concat_cons.
  rewrite <- app_assoc. cbn [app].
  rewrite (Permutation_middle (concat (take b chains)) _ n).
  apply Permutation_app_head. rewrite <- Permutation_middle. reflexivity.
Qed.

Lemma chain_tail_cons q rest : chain_tail (q :: rest) = default q (last rest).
Proof. unfold chain_tail. rewrite last_cons. destruct (last rest); reflexivity. Qed.

Lemma last_elem_of (rest : list Z) x : last rest = Some x -> x ∈ rest.
Proof. intros H. apply last_Some in H as [l' ->]. apply elem_of_app. right. apply list_elem_of_here. Qed.

Lemma same_slab_bucket t b x : same_slab t b x b <-> x = t.
Proof.
  unfold same_slab. destruct (t =? HEAD_SLAB_PTR) eqn:E.
  - apply Z.eqb_eq in E. subst t. tauto.
  - tauto.
Qed.

(** linking a fresh empty slab behind the last slab of a path *)
Lemma path_snoc c b n rest : forall curr,
  slabs_len c ->
  path c b curr rest -> NoDup (curr :: rest) ->
  n ∉ curr :: rest -> n <> HEAD_SLAB_PTR -> n <> EMPTY_SLAB_PTR ->
  slab_at c n b = Some empty_slab ->
  path (write_unit c (default curr (last rest)) b NEXT_SLAB_PTR_LANE n) b curr
       (rest ++ [n]).
Proof.
  induction rest as [|q rest IH]; intros curr Hlen Hp Hnd Hn Hnh Hne Hslab.
  - cbn [last default from_option id app]. cbn [path] in *. destruct Hp as [[sl Hsl] Hnext].
    assert (Hsl32 : length sl = 32%nat).
    { rewrite <- (read_slab_slab_at c curr b sl Hsl). apply read_slab_length. exact Hlen. }
    assert (Hncurr : n <> curr) by (intros ->; apply Hn; apply list_elem_of_here).
    split; [apply slab_at_write_is_Some; eauto|].
    split.
    { unfold next_of. rewrite (read_slab_write_same c curr b _ _ sl Hsl).
      apply shfl_sync_zget. apply zget_zset_eq. apply zget_is_Some.
      apply zget_32; [exact Hsl32|unfold NEXT_SLAB_PTR_LANE; lia]. }
    split; [exact Hne|]. split; [exact Hnh|].
    split; [apply slab_at_write_is_Some; rewrite Hslab; eauto|].
    unfold next_of. rewrite read_slab_write_other.
    + rewrite (read_slab_slab_at c n b _ Hslab). reflexivity.
    + rewrite same_slab_bucket. exact Hncurr.
  - cbn [app path] in *. destruct Hp as (Hs & Hnx & Hqe & Hqh & Hp).
    assert (Ht : default curr (last (q :: rest)) = default q (last rest))
      by (rewrite last_cons; destruct (last rest); reflexivity).
    rewrite Ht.
    assert (Htin : default q (last rest) ∈ q :: rest).
    { destruct (last rest) as [x|] eqn:E; cbn.
      - apply list_elem_of_further. apply last_elem_of. exact E.
      - apply list_elem_of_here. }
    apply NoDup_cons in Hnd as [Hcurr Hnd].
    assert (Hdiff : ~ same_slab (default q (last rest)) b curr b).
    { rewrite same_slab_bucket. intros ->. contradiction. }
    split; [apply slab_at_write_is_Some; exact Hs|].
    split.
    { unfold next_of. rewrite read_slab_write_other by exact Hdiff. exact Hnx. }
    split; [exact Hqe|]. split; [exact Hqh|].
    apply IH; try assumption.
    intros Hin. apply Hn. apply list_elem_of_further. exact Hin.
Qed.

Lemma chain_head_not_in c b ch : path c b HEAD_SLAB_PTR ch -> HEAD_SLAB_PTR ∉ ch.
Proof.
  intros Hp Hin. apply path_nodes in Hp.
  eapply Forall_forall in Hp; [|exact Hin]. destruct Hp as [Hp _]. congruence.
Qed.

Lemma chain_tail_on_chain ch : chain_tail ch = HEAD_SLAB_PTR \/ chain_tail ch ∈ ch.
Proof.
  unfold chain_tail. destruct (last ch) as [x|] eqn:E; cbn; [right|left; reflexivity].
  apply last_elem_of. exact E.
Qed.

Lemma table_ok_link c chains (b : nat) ch n :
  table_ok c chains -> chains !! b = Some ch ->
  first_free (slab_used (slab_list_allocator_ctx_ c)) 0 = Some n ->
  table_ok (write_unit (snd (AllocateSlab c)) (chain_tail ch) (Z.of_nat b)
              NEXT_SLAB_PTR_LANE n)
           (<[b := ch ++ [n]]> chains).
Proof.
  intros (H1 & H2 & H3 & (Hp1 & Hp2 & Hp3) & H5 & H6 & H7 & H8) Hb Hff.
  rewrite (AllocateSlab_some c n Hff). cbn [snd].
  set (c1 := with_slabs c _).
  pose proof (first_free_spec _ _ _ Hff) as [Hrange Hfree]. rewrite Z.sub_0_r in Hfree.
  pose proof (Hp3 _ Hfree) as Hmem.
  assert (Hnh : n <> HEAD_SLAB_PTR) by lia.
  assert (Hne : n <> EMPTY_SLAB_PTR) by (unfold EMPTY_SLAB_PTR, HEAD_SLAB_PTR in *; lia).
  assert (Hnin : n ∉ concat chains).
  { intros Hin. apply H8 in Hin as [_ Hin]. congruence. }
  pose proof (H6 b ch Hb) as Hpath.
  pose proof (chain_head_not_in _ _ _ Hpath) as Hhead.
  assert (Hslabn : slab_at c1 n (Z.of_nat b) = Some empty_slab).
  { unfold slab_at. apply Z.eqb_neq in Hnh. rewrite Hnh.
    apply zget_Some. split; [cbn; lia|exact Hmem]. }
  assert (Htail_used : chain_tail ch = HEAD_SLAB_PTR \/
            (0 <= chain_tail ch /\
             slab_used (slab_list_allocator_ctx_ c) !! Z.to_nat (chain_tail ch) = Some true)).
  { destruct (chain_tail_on_chain ch) as [Ht|Ht]; [left; exact Ht|right].
    apply H8. eapply elem_of_chain_concat; eauto. }
  destruct (write_unit_config c1 (chain_tail ch) (Z.of_nat b) NEXT_SLAB_PTR_LANE n)
    as (C1 & C2 & C3 & C4 & C5 & C6 & C7).
  unfold table_ok, pool_ok, chains_ok. rewrite C1, C5, C6, C7.
  split; [exact H1|]. split; [exact H2|].
  split; [apply write_unit_slabs_len; exact H3|].
  split; [split; [|split; [exact Hp2|]]|].
  - cbn. rewrite zset_length. exact Hp1.
  - intros m Hm. cbn in Hm.
    assert (Hmn : m <> Z.to_nat n).
    { intros ->. unfold zset in Hm.
      rewrite (proj2 (in_range_spec _ n)) in Hm by lia.
      rewrite list_lookup_insert_eq in Hm by lia. discriminate. }
    assert (Hm' : slab_used (slab_list_allocator_ctx_ c) !! m = Some false).
    { unfold zset in Hm. destruct (in_range _ n); [|exact Hm].
      rewrite list_lookup_insert_ne in Hm by congruence. exact Hm. }
    pose proof (Hp3 m Hm') as Hmm.
    unfold write_unit. destruct (chain_tail ch =? HEAD_SLAB_PTR) eqn:E.
    + destruct (zget (bucket_list_head_ c1) (Z.of_nat b)); exact Hmm.
    + destruct (zget (slab_mem (slab_list_allocator_ctx_ c1)) (chain_tail ch)) as [sl|] eqn:E2;
        [|exact Hmm].
      cbn. apply Z.eqb_neq in E. destruct Htail_used as [Ht|[Ht0 Ht]]; [contradiction|].
      unfold zset. destruct (in_range _ (chain_tail ch)); [|exact Hmm].
      rewrite list_lookup_insert_ne; [exact Hmm|]. intros <-. congruence.
  - split; [rewrite length_insert; exact H5|].
    split; [|split].
    + intros b' ch' Hb'. destruct (decide (b' = b)) as [->|Hbb].
      * rewrite list_lookup_insert_eq in Hb' by (eapply lookup_lt_Some; exact Hb).
        injection Hb' as <-. unfold chain_tail.
        apply path_snoc; try assumption.
        -- eapply path_ext; [|exact Hpath]. reflexivity.
        -- apply NoDup_cons. split; [exact Hhead|]. eapply chain_NoDup; eauto.
        -- intros Hin. apply elem_of_cons in Hin as [Hin|Hin]; [contradiction|].
           apply Hnin. eapply elem_of_chain_concat; eauto.
      * rewrite list_lookup_insert_ne in Hb' by congruence.
        eapply path_ext; [|apply (H6 b' ch' Hb')].
        intros s Hs. transitivity (slab_at c1 s (Z.of_nat b')); [|reflexivity].
        apply slab_at_write_other.
        unfold same_slab. destruct (chain_tail ch =? HEAD_SLAB_PTR) eqn:E.
        -- intros [_ Heq]. apply Nat2Z.inj in Heq. congruence.
        -- apply Z.eqb_neq in E. intros ->.
           destruct (chain_tail_on_chain ch) as [Ht|Ht]; [contradiction|].
           destruct Hs as [Hs|Hs]; [contradiction|].
           eapply (chains_disjoint chains b b'); eauto.
    + rewrite (concat_insert_snoc chains b ch n Hb).
      apply NoDup_cons. split; assumption.
    + intros m. rewrite (concat_insert_snoc chains b ch n Hb).
      rewrite elem_of_cons, H8. cbn. unfold zset.
      rewrite (proj2 (in_range_spec _ n)) by lia.
      destruct (decide (m = n)) as [->|Hmn].
      * rewrite list_lookup_insert_eq by lia. split; [intros _; split; [lia|reflexivity]|auto].
      * split.
        -- intros [?|[? ?]]; [contradiction|]. split; [assumption|].
           rewrite list_lookup_insert_ne by lia. assumption.
        -- intros [? Hm]. right. split; [assumption|].
           destruct (decide (Z.to_nat n = Z.to_nat m)) as [Heq|Hneq]; [lia|].
           rewrite list_lookup_insert_ne in Hm by exact Hneq. exact Hm.
Qed.

(** ** What a request leaves behind *)


Lemma same_config_trans c1 c2 c3 :
  same_config c1 c2 -> same_config c2 c3 -> same_config c1 c3.
Proof.
  intros (A1 & A2 & A3 & A4 & A5) (B1 & B2 & B3 & B4 & B5).
  unfold same_config. rewrite B1, B2, B3, B4, B5. auto.
Qed.

Lemma same_config_write c s b lane v : same_config c (write_unit c s b lane v).
Proof.
  destruct (write_unit_config c s b lane v) as (C1 & C2 & C3 & C4 & C5 & C6 & C7).
  unfold same_config. rewrite write_unit_pairs. auto.
Qed.

Lemma free_slabs_claim used n :
  used !! n = Some false ->
  S (length (filter (fun b => b = false) (<[n := true]> used)))
  = length (filter (fun b => b = false) used).
Proof.
  revert n. induction used as [|b used IH]; intros [|n] H; try discriminate.
  - cbn in H. injection H as ->. cbn [insert list_insert].
    rewrite filter_cons_False by discriminate.
    rewrite filter_cons_True by reflexivity. reflexivity.
  - cbn in H. cbn [insert list_insert]. specialize (IH n H).
    destruct b.
    + rewrite !filter_cons_False by discriminate. exact IH.
    + rewrite !filter_cons_True by reflexivity. cbn [length]. f_equal. exact IH.
Qed.

Lemma free_slabs_write c s b lane v : free_slabs (write_unit c s b lane v) = free_slabs c.
Proof.
  unfold free_slabs.
  rewrite (proj1 (proj2 (proj2 (proj2 (proj2 (write_unit_config c s b lane v)))))).
  reflexivity.
Qed.

Lemma free_slabs_alloc c n :
  first_free (slab_used (slab_list_allocator_ctx_ c)) 0 = Some n ->
  S (free_slabs (snd (AllocateSlab c))) = free_slabs c.
Proof.
  intros Hff. rewrite (AllocateSlab_some c n Hff). cbn [snd]. unfold free_slabs. cbn.
  pose proof (first_free_spec _ _ _ Hff) as [Hrange Hfree]. rewrite Z.sub_0_r in Hfree.
  unfold zset. rewrite (proj2 (in_range_spec _ n)) by lia.
  apply free_slabs_claim. exact Hfree.
Qed.

Lemma free_slabs_first_free c :
  (0 < free_slabs c)%nat ->
  is_Some (first_free (slab_used (slab_list_allocator_ctx_ c)) 0).
Proof.
  unfold free_slabs. intros H.
  destruct (first_free (slab_used (slab_list_allocator_ctx_ c)) 0) eqn:E; [eauto|].
  apply first_free_none in E. exfalso.
  induction (slab_used (slab_list_allocator_ctx_ c)) as [|b used IH]; [cbn in H; lia|].
  inversion E; subst. rewrite filter_cons_False in H by discriminate. auto.
Qed.

Lemma on_chain_used c chains (b : nat) ch pre curr rest :
  table_ok c chains -> chains !! b = Some ch ->
  HEAD_SLAB_PTR :: ch = pre ++ curr :: rest ->
  curr = HEAD_SLAB_PTR \/
  (0 <= curr /\ slab_used (slab_list_allocator_ctx_ c) !! Z.to_nat curr = Some true).
Proof.
  intros (_ & _ & _ & _ & _ & _ & _ & H8) Hb Hsplit.
  assert (Hin : curr ∈ HEAD_SLAB_PTR :: ch).
  { rewrite Hsplit. apply elem_of_app. right. apply list_elem_of_here. }
  apply elem_of_cons in Hin as [Hin|Hin]; [left; exact Hin|right].
  apply H8. eapply elem_of_chain_concat; eauto.
Qed.

Lemma chain_tail_split ch pre curr :
  HEAD_SLAB_PTR :: ch = pre ++ [curr] -> chain_tail ch = curr.
Proof.
  intros H. unfold chain_tail.
  assert (Hl : last (HEAD_SLAB_PTR :: ch) = Some curr) by (rewrite H; apply last_snoc).
  rewrite last_cons in Hl. destruct (last ch); cbn; congruence.
Qed.

Lemma insert_walk_ok c chains (b : nat) ch k p :
  table_ok c chains -> chains !! b = Some ch ->
  is_Some (first_free (slab_used (slab_list_allocator_ctx_ c)) 0) ->
  forall rest curr pre, HEAD_SLAB_PTR :: ch = pre ++ curr :: rest ->
  exists chains',
    table_ok (fst (insert_walk c k (Z.of_nat b) p curr rest)) chains'
    /\ same_config c (fst (insert_walk c k (Z.of_nat b) p curr rest))
    /\ (free_slabs c <= S (free_slabs (fst (insert_walk c k (Z.of_nat b) p curr rest))))%nat.
Proof.
  intros Hok Hb Hfree. induction rest as [|q rest IH]; intros curr pre Hsplit;
    cbn [insert_walk];
    destruct (0 <=? found_in c k (read_slab c curr (Z.of_nat b))).
  1, 3: (exists chains; cbn [fst]; split; [apply table_ok_with_pairs; exact Hok|];
         split; [repeat split|unfold free_slabs; cbn; lia]).
  all: destruct (Z.leb_spec 0 (empty_in (read_slab c curr (Z.of_nat b)))) as [He|He].
  1, 3: (exists chains; cbn [fst]; destruct (empty_in_some _ He) as [Hlt _];
         split; [apply table_ok_write_data;
                 [exact Hok|unfold NEXT_SLAB_PTR_LANE; lia|
                  eapply on_chain_used; eauto]|];
         split; [apply same_config_write|rewrite free_slabs_write; lia]).
  - destruct Hfree as [n Hn].
    pose proof (chain_tail_split ch pre curr Hsplit) as Htail.
    pose proof (table_ok_link c chains b ch n Hok Hb Hn) as Hlink.
    rewrite Htail in Hlink.
    pose proof (free_slabs_alloc c n Hn) as Hfs.
    rewrite (AllocateSlab_some c n Hn) in *. cbn [snd fst] in *.
    exists (<[b := ch ++ [n]]> chains).
    split; [|split].
    + apply table_ok_write_data; [exact Hlink|unfold NEXT_SLAB_PTR_LANE; lia|].
      right. pose proof (first_free_spec _ _ _ Hn) as [Hrange _].
      split; [lia|].
      rewrite (proj1 (proj2 (proj2 (proj2 (proj2 (write_unit_config _ _ _ _ _)))))).
      cbn. unfold zset. rewrite (proj2 (in_range_spec _ n)) by lia.
      apply list_lookup_insert_eq. lia.
    + eapply same_config_trans; [|apply same_config_write].
      eapply same_config_trans; [|apply same_config_write]. repeat split.
    + rewrite !free_slabs_write. lia.
  - apply (IH q (pre ++ [curr])). rewrite <- app_assoc. exact Hsplit.
Qed.


(** ** A warp call, request by request *)

Lemma count_clear (l : list bool) i :
  l !! i = Some true ->
  S (length (filter (fun b => b = true) (<[i := false]> l)))
  = length (filter (fun b => b = true) l).
Proof.
  revert i. induction l as [|b l IH]; intros [|i] H; try discriminate.
  - cbn in H. injection H as ->. cbn [insert list_insert].
    rewrite filter_cons_False by discriminate.
    rewrite filter_cons_True by reflexivity. reflexivity.
  - cbn in H. cbn [insert list_insert]. specialize (IH i H).
    destruct b.
    + rewrite !filter_cons_True by reflexivity. cbn [length]. f_equal. exact IH.
    + rewrite !filter_cons_False by discriminate. exact IH.
Qed.

Lemma regs_after_clear r r' :
  regs_ok r -> 0 <= src_lane r ->
  active r' = zset (active r) (src_lane r) false ->
  prev_work_queue r' = work_queue r ->
  length (iterator r') = 32%nat -> length (mask r') = 32%nat ->
  regs_ok r' /\ restart_slab r' = HEAD_SLAB_PTR /\ S (count_active r') = count_active r.
Proof.
  intros Hr Hs Ha Hp Hi Hm.
  assert (Hr' : regs_ok r').
  { split; [|split; assumption]. rewrite Ha, zset_length. apply Hr. }
  split; [exact Hr'|]. split.
  - unfold restart_slab. rewrite Hp.
    pose proof (work_queue_clear r r' Hr Hs Ha Hr') as Hne.
    destruct (Z.eqb_spec (work_queue r) (work_queue r')); [congruence|reflexivity].
  - unfold count_active. rewrite Ha. destruct (src_lane_range r Hr Hs) as [Hlt Hact].
    unfold zset. destruct Hr as [Hl _].
    rewrite (proj2 (in_range_spec (active r) (src_lane r))) by lia.
    apply count_clear. exact Hact.
Qed.

Lemma length_if_zset {A} (b : bool) (l : list A) i x :
  length (if b then zset l i x else l) = length l.
Proof. destruct b; [apply zset_length|reflexivity]. Qed.

Lemma count_active_pos r : regs_ok r -> 0 <= src_lane r -> (0 < count_active r)%nat.
Proof.
  intros Hr Hs. destruct (src_lane_range r Hr Hs) as [_ Hact].
  unfold count_active. revert Hact. generalize (Z.to_nat (src_lane r)).
  induction (active r) as [|b l IH]; intros [|i] H; try discriminate.
  - cbn in H. injection H as ->. rewrite filter_cons_True by reflexivity. cbn. lia.
  - cbn in H. specialize (IH i H). destruct b.
    + rewrite filter_cons_True by reflexivity. cbn. lia.
    + rewrite filter_cons_False by discriminate. exact IH.
Qed.


Section WarpRun.
Variable body : HashmapCUDAContext -> regs -> option (HashmapCUDAContext * regs).
Variable Inv : HashmapCUDAContext -> regs -> Prop.
Hypothesis Inv_regs : forall c r, Inv c r -> regs_ok r.
Hypothesis Inv_step : forall c r, Inv c r -> 0 <= src_lane r ->
  exists n c' r', warp_steps n body c r = Some (c', r') /\ Inv c' r'
                  /\ (count_active r' < count_active r)%nat.


End WarpRun.

Lemma init_regs_ok act : length act = 32%nat ->
  regs_ok (init_regs act) /\ restart_slab (init_regs act) = HEAD_SLAB_PTR.
Proof.
  intros H. split.
  - split; [exact H|]. split; cbn; reflexivity.
  - unfold restart_slab. cbn. destruct (negb _); reflexivity.
Qed.

Lemma src_bucket_range c L r : 0 < num_buckets_ c < 2 ^ 32 -> lanes_ok c L ->
  0 <= src_bucket L r < num_buckets_ c.
Proof.
  intros Hnb HL. unfold src_bucket, shfl_sync.
  destruct (zget (bucket_id L) (src_lane r)) as [b|] eqn:E; cbn; [|lia].
  apply zget_Some in E as [_ E]. eapply Forall_lookup_1 in HL; eauto.
Qed.

Lemma bucket_chain c chains b :
  table_ok c chains -> 0 <= b < num_buckets_ c ->
  exists ch, chains !! Z.to_nat b = Some ch /\ path c b HEAD_SLAB_PTR ch.
Proof.
  intros (H1 & H2 & H3 & H4 & H5 & H6 & H7 & H8) Hb.
  destruct (lookup_lt_is_Some_2 chains (Z.to_nat b)) as [ch Hch]; [lia|].
  exists ch. split; [exact Hch|].
  pose proof (H6 _ _ Hch) as Hp. rewrite Z2Nat.id in Hp by lia. exact Hp.
Qed.

(** ** A request from the head of its chain *)

Lemma Search_step c chains L r :
  table_ok c chains -> dsize_key_ c <= MAX_KEY_BYTESIZE -> lanes_ok c L ->
  regs_ok r -> restart_slab r = HEAD_SLAB_PTR -> 0 <= src_lane r ->
  exists ch n r',
    chains !! Z.to_nat (src_bucket L r) = Some ch
    /\ warp_steps n (Search_body L) c r = Some (c, r')
    /\ regs_ok r' /\ restart_slab r' = HEAD_SLAB_PTR
    /\ S (count_active r') = count_active r
    /\ active r' = zset (active r) (src_lane r) false
    /\ (let res := search_walk c (src_key_of L r) (src_bucket L r) HEAD_SLAB_PTR ch in
        iterator r' = (if snd res then zset (iterator r) (src_lane r) (fst res)
                       else iterator r)
        /\ mask r' = (if snd res then zset (mask r) (src_lane r) true else mask r)).
Proof.
  intros Hok Hk HL Hr Hc Hs.
  pose proof Hok as (Hnb & _ & Hlen & _).
  destruct (bucket_chain c chains (src_bucket L r) Hok (src_bucket_range c L r Hnb HL))
    as (ch & Hch & Hp).
  destruct (Search_request c L ch r HEAD_SLAB_PTR Hk Hlen Hr Hs Hc Hp)
    as (n & r' & _ & Hst & Ha & Hpw & Hi & Hm).
  exists ch, n, r'. split; [exact Hch|]. split; [exact Hst|].
  destruct (regs_after_clear r r' Hr Hs Ha Hpw) as (R1 & R2 & R3).
  - rewrite Hi, length_if_zset. apply Hr.
  - rewrite Hm, length_if_zset. apply Hr.
  - repeat split; try assumption; apply R1.
Qed.

Lemma Insert_step c chains L prealloc r :
  table_ok c chains -> dsize_key_ c <= MAX_KEY_BYTESIZE -> lanes_ok c L ->
  regs_ok r -> restart_slab r = HEAD_SLAB_PTR -> 0 <= src_lane r ->
  (0 < free_slabs c)%nat ->
  exists ch n r',
    chains !! Z.to_nat (src_bucket L r) = Some ch
    /\ (let res := insert_walk c (src_key_of L r) (src_bucket L r)
                     (src_prealloc prealloc r) HEAD_SLAB_PTR ch in
        warp_steps n (Insert_body L prealloc) c r = Some (fst res, r')
        /\ iterator r' = (if snd res
                          then zset (iterator r) (src_lane r) (src_prealloc prealloc r)
                          else iterator r)
        /\ mask r' = (if snd res then zset (mask r) (src_lane r) true else mask r))
    /\ regs_ok r' /\ restart_slab r' = HEAD_SLAB_PTR
    /\ S (count_active r') = count_active r
    /\ active r' = zset (active r) (src_lane r) false.
Proof.
  intros Hok Hk HL Hr Hc Hs Hfree.
  pose proof Hok as (Hnb & _ & Hlen & Hpool & _).
  destruct (bucket_chain c chains (src_bucket L r) Hok (src_bucket_range c L r Hnb HL))
    as (ch & Hch & Hp).
  destruct (Insert_request c L prealloc ch r HEAD_SLAB_PTR Hk Hlen Hr Hpool Hs Hc Hp
              (free_slabs_first_free c Hfree))
    as (n & r' & _ & Hst & Ha & Hpw & Hi & Hm).
  exists ch, n, r'. split; [exact Hch|].
  destruct (regs_after_clear r r' Hr Hs Ha Hpw) as (R1 & R2 & R3).
  - rewrite Hi, length_if_zset. apply Hr.
  - rewrite Hm, length_if_zset. apply Hr.
  - repeat split; try assumption; apply R1.
Qed.

Lemma Remove_step c chains L r :
  table_ok c chains -> dsize_key_ c <= MAX_KEY_BYTESIZE -> lanes_ok c L ->
  regs_ok r -> restart_slab r = HEAD_SLAB_PTR -> 0 <= src_lane r ->
  exists ch n r',
    chains !! Z.to_nat (src_bucket L r) = Some ch
    /\ (let res := remove_walk c (src_key_of L r) (src_bucket L r) HEAD_SLAB_PTR ch in
        warp_steps n (Remove_body L) c r = Some (fst res, r')
        /\ active r' = (if snd res then zset (active r) (src_lane r) false
                        else map (fun _ => false) (active r))
        /\ mask r' = (if snd res then zset (mask r) (src_lane r) true else mask r))
    /\ iterator r' = iterator r
    /\ regs_ok r' /\ restart_slab r' = HEAD_SLAB_PTR
    /\ (count_active r' < count_active r)%nat.
Proof.
  intros Hok Hk HL Hr Hc Hs.
  pose proof Hok as (Hnb & _ & Hlen & _).
  destruct (bucket_chain c chains (src_bucket L r) Hok (src_bucket_range c L r Hnb HL))
    as (ch & Hch & Hp).
  destruct (Remove_request c L ch r HEAD_SLAB_PTR Hk Hlen Hr Hs Hc Hp)
    as (n & r' & _ & Hst & Ha & Hpw & Hi & Hm).
  exists ch, n, r'. split; [exact Hch|]. split; [auto|]. split; [exact Hi|].
  destruct (snd (remove_walk c (src_key_of L r) (src_bucket L r) HEAD_SLAB_PTR ch)).
  - destruct (regs_after_clear r r' Hr Hs Ha Hpw) as (R1 & R2 & R3).
    + rewrite Hi. apply Hr.
    + rewrite Hm, zset_length. apply Hr.
    + repeat split; try assumption; try apply R1. lia.
  - assert (Hr' : regs_ok r').
    { split; [rewrite Ha, length_map; apply Hr|]. rewrite Hi, Hm. apply Hr. }
    assert (Hq' : work_queue r' = 0).
    { rewrite work_queue_bits by exact Hr'. rewrite Ha. apply lane_bits_all_false. }
    split; [exact Hr'|]. split.
    + unfold restart_slab. rewrite Hpw, Hq'.
      pose proof (work_queue_running r Hr Hs) as Hq.
      rewrite Hq. reflexivity.
    + pose proof (count_active_pos r Hr Hs).
      assert (count_active r' = 0%nat); [|lia].
      unfold count_active. rewrite Ha. clear.
      induction (active r) as [|x l IH]; [reflexivity|].
      cbn [map]. rewrite filter_cons_False by discriminate. exact IH.
Qed.

(** ** Whole warp calls keep the shape of the table *)






(** ** Kernels *)

Lemma count_ltb_seq N m : forall a,
  length (filter (fun b => b = true) (map (fun tid => (tid <? N)%nat) (seq a m)))
  = Nat.min m (N - a).
Proof.
  induction m as [|m IH]; intros a; [reflexivity|].
  cbn [seq map]. destruct (Nat.ltb_spec a N).
  - rewrite filter_cons_True by reflexivity. cbn [length]. rewrite IH. lia.
  - rewrite filter_cons_False by discriminate. rewrite IH. lia.
Qed.

Lemma warp_lanes_facts c keys values N w :
  0 < num_buckets_ c < 2 ^ 32 ->
  length (snd (warp_lanes c keys values N w)) = 32%nat
  /\ lanes_ok c (fst (warp_lanes c keys values N w))
  /\ count_active (init_regs (snd (warp_lanes c keys values N w)))
     = length (warp_tids N w).
Proof.
  intros Hnb. unfold warp_lanes. cbn [fst snd]. split; [|split].
  - rewrite length_map, length_seq. reflexivity.
  - unfold lanes_ok. cbn [bucket_id]. apply Forall_forall. intros b Hb.
    apply list_elem_of_In, in_map_iff in Hb as (tid & <- & _).
    destruct (tid <? N)%nat; [|lia].
    apply ComputeBucket_range. exact Hnb.
  - unfold count_active, warp_tids. cbn [active init_regs].
    rewrite count_ltb_seq, length_seq. reflexivity.
Qed.



Section Launch.
Variable warp : nat -> HashmapCUDAContext -> nat
                -> outcome (HashmapCUDAContext * list write).
Variable Inv : list nat -> HashmapCUDAContext -> Prop.
Variable N : nat.
Hypothesis Inv_warp : forall w rest c, Inv (w :: rest) c ->
  exists n c' tr, Inv rest c' /\ map fst tr = warp_tids N w
    /\ forall fuel, (n <= fuel)%nat -> warp fuel c w = Returned (c', tr).

End Launch.


Lemma kernel_warp_busy op c keys values N w c' r :
  (32 * w < N)%nat ->
  op c (fst (warp_lanes c keys values N w)) (snd (warp_lanes c keys values N w))
  = Returned (c', r) ->
  kernel_warp op c keys values N w = Returned (c', warp_writes N w r).
Proof.
  intros H Hop. unfold kernel_warp.
  destruct (Nat.leb_spec N (32 * w)); [lia|].
  destruct (warp_lanes c keys values N w) as [L act]. cbn [fst snd] in Hop.
  rewrite Hop. reflexivity.
Qed.




(** ** A fresh table *)

Lemma Forall_repeat {A} (P : A -> Prop) x n : P x -> Forall P (repeat x n).
Proof. intros H. induction n; cbn; constructor; auto. Qed.

Lemma concat_repeat_nil {A} n : concat (repeat (@nil A) n) = [].
Proof. induction n; cbn; auto. Qed.

Lemma HashmapCUDA_table_ok nb cap dk dv num_slabs stack_init :
  0 < nb < 2 ^ 32 -> Z.of_nat num_slabs < HEAD_SLAB_PTR ->
  table_ok (HashmapCUDA nb cap dk dv num_slabs stack_init) (repeat [] (Z.to_nat nb)).
Proof.
  intros Hnb Hslabs. set (c := HashmapCUDA nb cap dk dv num_slabs stack_init).
  assert (Hh : bucket_list_head_ c = repeat empty_slab (Z.to_nat nb)) by reflexivity.
  assert (Hu : slab_used (slab_list_allocator_ctx_ c) = repeat false num_slabs)
    by reflexivity.
  assert (Hm : slab_mem (slab_list_allocator_ctx_ c) = repeat empty_slab num_slabs)
    by reflexivity.
  assert (Hn : num_buckets_ c = nb) by reflexivity.
  unfold table_ok, slabs_len, pool_ok, chains_ok. rewrite Hh, Hu, Hm, Hn.
  rewrite !repeat_length.
  split; [exact Hnb|]. split; [lia|].
  split; [split; apply Forall_repeat; reflexivity|].
  split; [split; [reflexivity|split; [exact Hslabs|]]|].
  - intros n Hn'. apply lookup_repeat in Hn' as [_ Hn']. apply lookup_repeat. auto.
  - split; [reflexivity|]. split; [|split].
    + intros b ch Hb. apply lookup_repeat in Hb as [-> Hb]. cbn [path].
      assert (Hs : slab_at c HEAD_SLAB_PTR (Z.of_nat b) = Some empty_slab).
      { unfold slab_at. cbn [Z.eqb HEAD_SLAB_PTR]. rewrite Pos.eqb_refl, Hh.
        apply zget_Some. rewrite repeat_length.
        split; [lia|]. apply lookup_repeat. split; [reflexivity|lia]. }
      split; [eauto|]. unfold next_of. rewrite (read_slab_slab_at _ _ _ _ Hs). reflexivity.
    + rewrite concat_repeat_nil. constructor.
    + intros n. rewrite concat_repeat_nil. split; [intros H; inversion H|].
      intros [_ H]. apply lookup_repeat in H as [H _]. discriminate.
Qed.

Lemma HashmapCUDA_free_slabs nb cap dk dv num_slabs stack_init :
  free_slabs (HashmapCUDA nb cap dk dv num_slabs stack_init) = num_slabs.
Proof.
  unfold free_slabs, HashmapCUDA. cbn. induction num_slabs as [|n IH]; [reflexivity|].
  cbn [repeat]. rewrite filter_cons_True by reflexivity. cbn [length]. rewrite IH. reflexivity.
Qed.

(** ** The indices written by a launch *)




(** ** Batch calls run to completion *)





(** ** A key stored twice *)

(** how the tables of this section come about, call by call *)
Example table31_built :
  HashmapCUDA_Insert 100 [0%nat] (HashmapCUDA 1 64 4 4 4 [])
    (keys_of (map Z.of_nat (seq 1 31)))
    (keys_of (map (fun k => 10 * Z.of_nat k) (seq 1 31))) 31
  = Returned (table31, map (fun i => (i, (Z.of_nat i, true))) (seq 0 31)).
Proof. vm_compute. reflexivity. Qed.

Example table32_built :
  HashmapCUDA_Insert 100 [0%nat] table31 (keys_of [32]) (keys_of [320]) 1
  = Returned (table32, [(0%nat, (31, true))]).
Proof. vm_compute. reflexivity. Qed.

Example table32_less1_built :
  HashmapCUDA_Remove 100 [0%nat] table32 (keys_of [1]) 1
  = Returned (table32_less1, [(0%nat, (NULL_ITERATOR, true))]).
Proof. vm_compute. reflexivity. Qed.

(** C4: the code departs from the claim.  Key 32 is present with value 320
    (Search finds it), yet a further Insert of key 32 with value 99 reports
    success=true, stores a second record in the slot that the removal of
    key 1 left empty in the head slab, and Search(32) now returns the
    value 99. *)
Theorem insert_of_present_key_succeeds :
  HashmapCUDA_Search 100 [0%nat] table32_less1 (keys_of [32]) 1
  = Returned (table32_less1, [(0%nat, (31, true))])
  /\ ExtractIterators table32_less1 [31] = [(u32_bytes 32, u32_bytes 320)]
  /\ HashmapCUDA_Insert 100 [0%nat] table32_less1 (keys_of [32]) (keys_of [99]) 1
     = Returned (table32_twice, [(0%nat, (0, true))])
  /\ HashmapCUDA_Search 100 [0%nat] table32_twice (keys_of [32]) 1
     = Returned (table32_twice, [(0%nat, (0, true))])
  /\ ExtractIterators table32_twice [0] = [(u32_bytes 32, u32_bytes 99)].
Proof. vm_compute. repeat split; reflexivity. Qed.

(** C2: the code departs from the claim.  The pair (32, 320) was inserted
    with success=true (into [table31]) and key 32 was never removed, yet
    after the second Insert of key 32 the iterator that Search(32) returns
    yields the value bytes of 99, not of 320; the record of the first pair
    is still in the table, behind iterator 31. *)
Theorem search_yields_later_value :
  HashmapCUDA_Insert 100 [0%nat] table31 (keys_of [32]) (keys_of [320]) 1
  = Returned (table32, [(0%nat, (31, true))])
  /\ output_iterators
       (match HashmapCUDA_Search 100 [0%nat] table32_twice (keys_of [32]) 1 with
        | Returned (_, tr) => tr
        | _ => []
        end) 1 = [0]
  /\ ExtractIterators table32_twice [0] = [(u32_bytes 32, u32_bytes 99)]
  /\ ExtractIterators table32_twice [31] = [(u32_bytes 32, u32_bytes 320)].
Proof. vm_compute. repeat split; reflexivity. Qed.

(** C3: the code departs from the claim.  Remove(32) reports success=true
    on the table that holds key 32 twice, yet the Search(32) that follows
    reports success=true, and a second Remove(32) reports success=true and
    frees a second record. *)
Theorem search_succeeds_after_remove :
  HashmapCUDA_Remove 100 [0%nat] table32_twice (keys_of [32]) 1
  = Returned (table32_once, [(0%nat, (NULL_ITERATOR, true))])
  /\ HashmapCUDA_Search 100 [0%nat] table32_once (keys_of [32]) 1
     = Returned (table32_once, [(0%nat, (31, true))])
  /\ output_masks
       (match HashmapCUDA_Remove 100 [0%nat] table32_once (keys_of [32]) 1 with
        | Returned (_, tr) => tr
        | _ => []
        end) 1 = [true]
  /\ pair_free (pair_allocator_ctx_ table32_once) = 0 :: pair_free (pair_allocator_ctx_ table32_twice)
  /\ pair_free (pair_allocator_ctx_
                  (returned_state table32_once
                     (HashmapCUDA_Remove 100 [0%nat] table32_once (keys_of [32]) 1)))
     = 31 :: 0 :: pair_free (pair_allocator_ctx_ table32_twice).
Proof. vm_compute. repeat split; reflexivity. Qed.

(** ** Counting occupied slots *)

Lemma popc_pos_pos p : 1 <= popc_pos p.
Proof. induction p; simpl; lia. Qed.

Lemma popc_lane_bits l :
  popc (lane_bits l) = Z.of_nat (length (filter (fun b => b = true) l)).
Proof.
  induction l as [|b l IH]; [reflexivity|].
  pose proof (lane_bits_nonneg l) as Hn.
  cbn [lane_bits]. destruct b; cbn [Z.b2z].
  - rewrite filter_cons_True by reflexivity. cbn [length]. rewrite Nat2Z.inj_succ, <- IH.
    destruct (lane_bits l) as [|p|p]; [reflexivity| |lia].
    change (1 + 2 * Z.pos p) with (Z.pos p~1). cbn [popc popc_pos]. lia.
  - rewrite filter_cons_False by discriminate. rewrite <- IH.
    destruct (lane_bits l) as [|p|p]; [reflexivity| |lia].
    change (0 + 2 * Z.pos p) with (Z.pos p~0). reflexivity.
Qed.

Lemma filter_map_length {A} (f : A -> bool) (P : A -> Prop) `{forall x, Decision (P x)}
  (l : list A) :
  (forall x, f x = true <-> P x) ->
  length (filter (fun b => b = true) (map f l)) = length (filter P l).
Proof.
  intros Hf. induction l as [|x l IH]; [reflexivity|].
  cbn [map]. destruct (f x) eqn:E.
  - rewrite filter_cons_True by reflexivity.
    rewrite (filter_cons_True P) by (apply Hf; exact E). cbn [length]. rewrite IH. reflexivity.
  - rewrite filter_cons_False by discriminate.
    rewrite (filter_cons_False P); [exact IH|]. intros HP. apply Hf in HP. congruence.
Qed.

Lemma count_units_occupied units :
  length units = 32%nat -> count_units units = occupied_in units.
Proof.
  intros Hl. unfold count_units, occupied_in.
  rewrite ballot_pair by (rewrite length_map; exact Hl).
  rewrite popc_lane_bits, <- fmap_take. f_equal.
  apply filter_map_length. intros u. rewrite negb_true_iff, Z.eqb_neq. reflexivity.
Qed.

Lemma occupied_in_range s : 0 <= occupied_in s <= 31.
Proof.
  unfold occupied_in.
  pose proof (length_filter (fun u => u <> EMPTY_PAIR_PTR) (take 31 s)) as H.
  rewrite length_take in H. split; [lia|].
  apply (Z.le_trans _ (Z.of_nat (Nat.min 31 (length s)))); [|lia].
  apply Nat2Z.inj_le. exact H.
Qed.

Lemma occupied_in_empty : occupied_in empty_slab = 0.
Proof. reflexivity. Qed.

Lemma to_u32_small x : 0 <= x < 2 ^ 32 -> to_u32 x = x.
Proof. intros H. unfold to_u32. apply Z.mod_small. exact H. Qed.

Lemma to_i32_small x : 0 <= x < 2 ^ 31 -> to_i32 x = x.
Proof. intros H. unfold to_i32. rewrite Z.mod_small by lia. lia. Qed.

Lemma sum_Z_cons x l : sum_Z (x :: l) = x + sum_Z l.
Proof. reflexivity. Qed.

Lemma sum_Z_app l1 l2 : sum_Z (l1 ++ l2) = sum_Z l1 + sum_Z l2.
Proof. induction l1 as [|x l1 IH]; [reflexivity|]. cbn [app]. rewrite !sum_Z_cons, IH. lia. Qed.

Lemma sum_Z_nonneg (f : Z -> Z) l : (forall x, 0 <= f x) -> 0 <= sum_Z (map f l).
Proof.
  intros H. induction l as [|x l IH]; [cbv; discriminate|].
  cbn [map]. rewrite sum_Z_cons. pose proof (H x). lia.
Qed.

Lemma count_chain_path c b rest : forall curr acc fuel,
  slabs_len c -> path c b curr rest -> (length rest <= fuel)%nat ->
  0 <= acc ->
  acc + sum_Z (map (fun q => occupied_in (read_slab c q b)) rest) < 2 ^ 32 ->
  count_chain fuel c (next_of c curr b) acc
  = Returned (acc + sum_Z (map (fun q => occupied_in (read_slab c q b)) rest)).
Proof.
  induction rest as [|q rest IH]; intros curr acc fuel Hlen Hp Hf Hacc Hb.
  - destruct Hp as [_ Hp]. rewrite Hp. cbn [map]. change (sum_Z []) with 0.
    rewrite Z.add_0_r. destruct fuel; reflexivity.
  - destruct Hp as (_ & Hn & Hqe & Hqh & Hp). rewrite Hn.
    destruct fuel as [|fuel]; [cbn in Hf; lia|].
    cbn [count_chain]. apply Z.eqb_neq in Hqe. rewrite Hqe.
    assert (Hrd : default empty_slab (zget (slab_mem (slab_list_allocator_ctx_ c)) q)
                  = read_slab c q b).
    { unfold read_slab. apply Z.eqb_neq in Hqh. rewrite Hqh. reflexivity. }
    rewrite Hrd. fold (next_of c q b).
    rewrite count_units_occupied by (apply read_slab_length; exact Hlen).
    cbn [map] in *. rewrite sum_Z_cons in *.
    pose proof (occupied_in_range (read_slab c q b)).
    pose proof (sum_Z_nonneg (fun q => occupied_in (read_slab c q b)) rest
                  (fun x => proj1 (occupied_in_range _))).
    rewrite to_u32_small by lia.
    rewrite (IH q (acc + occupied_in (read_slab c q b)) fuel Hlen Hp
               ltac:(cbn [length] in Hf; lia) ltac:(lia) ltac:(lia)).
    f_equal. lia.
Qed.

Lemma CountElemsPerBucketKernel_chain c b ch fuel :
  slabs_len c -> path c b HEAD_SLAB_PTR ch -> (length ch <= fuel)%nat ->
  chain_count c b ch < 2 ^ 32 ->
  CountElemsPerBucketKernel fuel c b = Returned (chain_count c b ch).
Proof.
  intros Hlen Hp Hf Hb. unfold CountElemsPerBucketKernel, chain_count in *.
  assert (Hrd : default empty_slab (zget (bucket_list_head_ c) b)
                = read_slab c HEAD_SLAB_PTR b) by reflexivity.
  rewrite Hrd. fold (next_of c HEAD_SLAB_PTR b).
  rewrite count_units_occupied by (apply read_slab_length; exact Hlen).
  pose proof (occupied_in_range (read_slab c HEAD_SLAB_PTR b)).
  pose proof (sum_Z_nonneg (fun q => occupied_in (read_slab c q b)) ch
                (fun x => proj1 (occupied_in_range _))).
  rewrite Z.add_0_l, to_u32_small by lia.
  apply count_chain_path; try assumption; lia.
Qed.

Lemma collect_counts_chains c fuel l : forall a,
  slabs_len c ->
  (forall i ch, l !! i = Some ch ->
     path c (Z.of_nat (a + i)) HEAD_SLAB_PTR ch /\ (length ch <= fuel)%nat
     /\ chain_count c (Z.of_nat (a + i)) ch < 2 ^ 31) ->
  collect_counts fuel c (map Z.of_nat (seq a (length l)))
  = Returned (imap (fun i ch => chain_count c (Z.of_nat (a + i)) ch) l).
Proof.
  induction l as [|ch l IH]; intros a Hlen H; [reflexivity|].
  cbn [length seq map collect_counts imap].
  destruct (H 0%nat ch eq_refl) as (Hp & Hf & Hb). rewrite Nat.add_0_r in *.
  assert (Hnn : 0 <= chain_count c (Z.of_nat a) ch).
  { unfold chain_count. pose proof (occupied_in_range (read_slab c HEAD_SLAB_PTR (Z.of_nat a))).
    pose proof (sum_Z_nonneg (fun q => occupied_in (read_slab c q (Z.of_nat a))) ch
                  (fun x => proj1 (occupied_in_range _))). lia. }
  rewrite (CountElemsPerBucketKernel_chain c (Z.of_nat a) ch fuel Hlen Hp Hf) by lia.
  rewrite (IH (S a) Hlen).
  - rewrite to_i32_small by lia. f_equal. f_equal.
    apply imap_ext. intros i x _. cbn. f_equal. f_equal. lia.
  - intros i ch' Hi. specialize (H (S i) ch' Hi).
    replace (S a + i)%nat with (a + S i)%nat by lia. exact H.
Qed.

Lemma accumulate_int_sum l : forall acc,
  0 <= acc -> Forall (fun x => 0 <= x) l -> acc + sum_Z l < 2 ^ 31 ->
  accumulate_int l acc = acc + sum_Z l.
Proof.
  unfold accumulate_int. induction l as [|x l IH]; intros acc Hacc Hl Hb.
  - cbn. change (sum_Z []) with 0. lia.
  - inversion Hl; subst. rewrite sum_Z_cons in *. cbn [fold_left].
    assert (0 <= sum_Z l).
    { clear -H2. induction l as [|y l IH]; [cbv; discriminate|].
      inversion H2; subst. rewrite sum_Z_cons. specialize (IH H3). lia. }
    rewrite to_i32_small by lia. rewrite IH by (assumption || lia). lia.
Qed.

(** the chains walk every occupied slot of the pool once *)
Lemma sum_concat (g : Z -> Z) (chains : list (list Z)) :
  sum_Z (map (fun ch => sum_Z (map g ch)) chains) = sum_Z (map g (concat chains)).
Proof.
  induction chains as [|ch chains IH]; [reflexivity|].
  cbn [map concat]. rewrite sum_Z_cons, map_app, sum_Z_app, IH. reflexivity.
Qed.

Lemma sum_Z_perm l1 l2 : l1 ≡ₚ l2 -> sum_Z l1 = sum_Z l2.
Proof.
  induction 1; rewrite ?sum_Z_cons; lia.
Qed.

Lemma map_lookup_seq {A} (d : A) (l : list A) :
  map (fun i => default d (l !! i)) (seq 0 (length l)) = l.
Proof.
  apply list_eq. intros i. rewrite list_lookup_fmap.
  destruct (decide (i < length l)%nat) as [Hi|Hi].
  - rewrite lookup_seq_lt by exact Hi. cbn.
    destruct (lookup_lt_is_Some_2 l i Hi) as [x Hx]. rewrite Hx. reflexivity.
  - rewrite lookup_seq_ge by lia. rewrite lookup_ge_None_2 by lia. reflexivity.
Qed.

Lemma sum_Z_zero (g : Z -> Z) l : (forall x, x ∈ l -> g x = 0) -> sum_Z (map g l) = 0.
Proof.
  induction l as [|x l IH]; intros H; [reflexivity|].
  cbn [map]. rewrite sum_Z_cons, IH, H; [reflexivity|apply list_elem_of_here|].
  intros y Hy. apply H. apply list_elem_of_further. exact Hy.
Qed.

Lemma chains_sum c chains :
  table_ok c chains ->
  sum_Z (map (pool_occupied c) (concat chains))
  = sum_Z (map occupied_in (slab_mem (slab_list_allocator_ctx_ c))).
Proof.
  intros (_ & _ & _ & (Hp1 & Hp2 & Hp3) & H5 & H6 & H7 & H8).
  set (mem := slab_mem (slab_list_allocator_ctx_ c)) in *.
  set (all := map Z.of_nat (seq 0 (length mem))).
  assert (Hall : sum_Z (map (pool_occupied c) all) = sum_Z (map occupied_in mem)).
  { unfold all. rewrite map_map.
    rewrite <- (map_lookup_seq empty_slab mem) at 2. rewrite map_map.
    f_equal. apply map_ext_in. intros i Hi. apply in_seq in Hi.
    unfold pool_occupied, zget. fold mem.
    rewrite (proj2 (in_range_spec mem (Z.of_nat i))) by lia.
    rewrite Nat2Z.id. reflexivity. }
  rewrite <- Hall.
  assert (Hz : sum_Z (map (pool_occupied c)
                        (filter (fun n => ~ n ∈ concat chains) all)) = 0).
  { apply sum_Z_zero. intros x Hx. apply list_elem_of_filter in Hx as [Hnot Hx].
    unfold all in Hx. apply list_elem_of_fmap in Hx as (i & -> & Hi).
    apply elem_of_seq in Hi.
    assert (Hu : slab_used (slab_list_allocator_ctx_ c) !! i = Some false).
    { destruct (lookup_lt_is_Some_2 (slab_used (slab_list_allocator_ctx_ c)) i) as [u Hu];
        [lia|].
      destruct u; [|exact Hu]. exfalso. apply Hnot. apply H8.
      rewrite Nat2Z.id. split; [lia|exact Hu]. }
    specialize (Hp3 i Hu). unfold pool_occupied, zget. fold mem.
    rewrite (proj2 (in_range_spec mem (Z.of_nat i))) by lia.
    rewrite Nat2Z.id, Hp3. reflexivity. }
  rewrite <- (sum_Z_perm _ _ (Permutation_map (pool_occupied c)
                (filter_app_complement (fun n => n ∈ concat chains) all))).
  rewrite map_app, sum_Z_app, Hz, Z.add_0_r.
  apply sum_Z_perm, Permutation_map. symmetry.
  apply NoDup_Permutation.
  - apply NoDup_filter. unfold all. apply NoDup_fmap_2; [|apply NoDup_seq].
    intros x y. apply Nat2Z.inj.
  - exact H7.
  - intros x. rewrite list_elem_of_filter. split; [tauto|]. intros Hx.
    split; [exact Hx|]. apply H8 in Hx as [Hx0 Hx].
    unfold all. apply list_elem_of_fmap. exists (Z.to_nat x). split; [lia|].
    apply elem_of_seq. apply lookup_lt_Some in Hx. lia.
Qed.

Lemma chain_count_pool c b ch :
  Forall (fun q => q <> HEAD_SLAB_PTR) ch ->
  chain_count c b ch
  = occupied_in (read_slab c HEAD_SLAB_PTR b) + sum_Z (map (pool_occupied c) ch).
Proof.
  intros H. unfold chain_count. f_equal. f_equal. apply map_ext_in. intros q Hq.
  rewrite Forall_forall in H. specialize (H q (proj2 (list_elem_of_In _ _) Hq)).
  unfold pool_occupied, read_slab. apply Z.eqb_neq in H. rewrite H. reflexivity.
Qed.

Lemma counts_sum c l : forall hs a,
  length l = length hs ->
  (forall i h, hs !! i = Some h -> read_slab c HEAD_SLAB_PTR (Z.of_nat (a + i)) = h) ->
  Forall (Forall (fun q => q <> HEAD_SLAB_PTR)) l ->
  sum_Z (imap (fun i ch => chain_count c (Z.of_nat (a + i)) ch) l)
  = sum_Z (map occupied_in hs) + sum_Z (map (pool_occupied c) (concat l)).
Proof.
  induction l as [|ch l IH]; intros [|h hs] a Hl Hh Hn; try discriminate.
  - reflexivity.
  - cbn [imap map concat]. rewrite !sum_Z_cons, map_app, sum_Z_app.
    apply Forall_cons in Hn as [Hn1 Hn2].
    rewrite (chain_count_pool c _ ch) by exact Hn1.
    rewrite (Hh 0%nat h eq_refl).
    rewrite (imap_ext _ (fun i ch => chain_count c (Z.of_nat (S a + i)) ch) l).
    2: { intros i x _. cbn. f_equal. f_equal. lia. }
    assert (Hl' : length l = length hs) by (cbn in Hl; lia).
    assert (Hh' : forall i h', hs !! i = Some h' ->
              read_slab c HEAD_SLAB_PTR (Z.of_nat (S a + i)) = h').
    { intros i h' Hi. replace (S a + i)%nat with (a + S i)%nat by lia. apply Hh. exact Hi. }
    rewrite (IH hs (S a) Hl' Hh' Hn2). lia.
Qed.

Lemma heads_read c (i : nat) h :
  bucket_list_head_ c !! i = Some h -> read_slab c HEAD_SLAB_PTR (Z.of_nat i) = h.
Proof.
  intros H. apply read_slab_slab_at. unfold slab_at. cbn.
  apply zget_Some. rewrite Nat2Z.id. split; [|exact H].
  apply lookup_lt_Some in H. lia.
Qed.

Lemma chains_counts_sum c chains :
  table_ok c chains ->
  sum_Z (imap (fun i ch => chain_count c (Z.of_nat i) ch) chains) = occupied_slots c.
Proof.
  intros Hok. pose proof Hok as (_ & _ & _ & _ & H5 & H6 & _).
  unfold occupied_slots. rewrite <- (chains_sum c chains Hok).
  apply (counts_sum c chains (bucket_list_head_ c) 0 H5).
  - intros i h Hi. apply heads_read. exact Hi.
  - apply Forall_forall. intros ch Hch. apply list_elem_of_lookup in Hch as [b Hb].
    eapply Forall_impl; [apply (path_nodes _ _ _ _ (H6 b ch Hb))|].
    cbn. tauto.
Qed.

Lemma sum_occupied_le (l : list Slab) : sum_Z (map occupied_in l) <= 31 * Z.of_nat (length l).
Proof.
  induction l as [|s l IH]; [cbv; discriminate|].
  cbn [map length]. rewrite sum_Z_cons. pose proof (occupied_in_range s). lia.
Qed.

Lemma pool_occupied_le (used : list bool) : forall mem : list Slab,
  length used = length mem ->
  (forall n, used !! n = Some false -> mem !! n = Some empty_slab) ->
  sum_Z (map occupied_in mem)
  <= 31 * Z.of_nat (length (filter (fun b => b = true) used)).
Proof.
  induction used as [|u used IH]; intros [|s mem] Hl He; cbn [length] in Hl;
    try discriminate.
  cbn [map]. rewrite sum_Z_cons. injection Hl as Hl.
  {
    specialize (IH mem Hl (fun n Hn => He (S n) Hn)).
    destruct u.
    + rewrite filter_cons_True by reflexivity. cbn [length].
      pose proof (occupied_in_range s). lia.
    + rewrite filter_cons_False by discriminate.
      assert (s = empty_slab) as ->
        by (specialize (He 0%nat eq_refl); change (Some s = Some empty_slab) in He;
            congruence).
      rewrite occupied_in_empty. lia.
  }
Qed.

Lemma occupied_slots_bound c chains :
  table_ok c chains -> 0 <= occupied_slots c <= 31 * total_slabs c.
Proof.
  intros (Hnb & Hh & _ & (Hp1 & _ & Hp3) & _).
  unfold occupied_slots, total_slabs.
  pose proof (sum_occupied_le (bucket_list_head_ c)).
  pose proof (pool_occupied_le _ _ Hp1 Hp3).
  assert (Hn0 : forall l : list Slab, 0 <= sum_Z (map occupied_in l)).
  { intros l. induction l as [|s l IH]; [cbv; discriminate|].
    cbn [map]. rewrite sum_Z_cons. pose proof (occupied_in_range s). lia. }
  pose proof (Hn0 (bucket_list_head_ c)).
  pose proof (Hn0 (slab_mem (slab_list_allocator_ctx_ c))). lia.
Qed.

Lemma chain_length_le (chains : list (list Z)) : forall (i : nat) ch,
  chains !! i = Some ch -> (length ch <= length (concat chains))%nat.
Proof.
  induction chains as [|c0 chains IH]; intros [|i] ch H; try discriminate;
    cbn [concat]; rewrite length_app.
  - injection H as <-. lia.
  - specialize (IH i ch H). lia.
Qed.

Lemma sum_Z_lookup_le l : forall (i : nat) x,
  Forall (fun y => 0 <= y) l -> l !! i = Some x -> x <= sum_Z l.
Proof.
  induction l as [|y l IH]; intros [|i] x Hl H; try discriminate;
    apply Forall_cons in Hl as [Hy Hl]; rewrite sum_Z_cons.
  - injection H as <-.
    assert (0 <= sum_Z l).
    { clear -Hl. induction l as [|z l IH]; [cbv; discriminate|].
      apply Forall_cons in Hl as [Hz Hl]. rewrite sum_Z_cons. specialize (IH Hl). lia. }
    lia.
  - specialize (IH i x Hl H). lia.
Qed.

Lemma chain_count_nonneg c b ch : 0 <= chain_count c b ch.
Proof.
  unfold chain_count. pose proof (occupied_in_range (read_slab c HEAD_SLAB_PTR b)).
  pose proof (sum_Z_nonneg (fun q => occupied_in (read_slab c q b)) ch
                (fun x => proj1 (occupied_in_range _))). lia.
Qed.

Lemma chain_counts_nonneg c (chains : list (list Z)) :
  Forall (fun y => 0 <= y) (imap (fun i ch => chain_count c (Z.of_nat i) ch) chains).
Proof.
  apply Forall_forall. intros y Hy. apply list_elem_of_lookup in Hy as [i Hi].
  rewrite list_lookup_imap in Hi. destruct (chains !! i); [|discriminate].
  injection Hi as <-. apply chain_count_nonneg.
Qed.

(** the grid of CountElemsPerBucket has a warp for every bucket *)
Lemma count_grid_covers nb :
  0 < nb -> nb * 32 + 127 < 2 ^ 32 ->
  Z.min nb (to_u32 (nb * 32 + 128 - 1) / 128 * 4) = nb.
Proof.
  intros H0 Hb. rewrite to_u32_small by lia. apply Z.min_l.
  pose proof (Z.div_mod (nb * 32 + 128 - 1) 128 ltac:(lia)).
  pose proof (Z.mod_pos_bound (nb * 32 + 128 - 1) 128 ltac:(lia)). lia.
Qed.

Lemma CountElemsPerBucket_chains c chains fuel :
  table_ok c chains -> total_slabs c * WARP_WIDTH < 2 ^ 31 ->
  (length (concat chains) <= fuel)%nat ->
  CountElemsPerBucket fuel c
  = Returned (imap (fun i ch => chain_count c (Z.of_nat i) ch) chains).
Proof.
  intros Hok Hsz Hf. pose proof Hok as (Hnb & Hh & Hlen & Hp & H5 & H6 & _).
  pose proof (occupied_slots_bound c chains Hok) as Hocc.
  pose proof (chains_counts_sum c chains Hok) as Hsum.
  assert (Hts : num_buckets_ c <= total_slabs c) by (unfold total_slabs; lia).
  change WARP_WIDTH with 32 in Hsz.
  unfold CountElemsPerBucket. cbv zeta.
  rewrite count_grid_covers by lia.
  assert (Hl : Z.to_nat (num_buckets_ c) = length chains) by lia.
  rewrite Hl, Z.sub_diag.
  rewrite (collect_counts_chains c fuel chains 0%nat Hlen).
  - change (repeat 0 (Z.to_nat 0)) with (@nil Z). rewrite app_nil_r. reflexivity.
  - intros i ch Hi. cbn [Nat.add]. split; [apply H6; exact Hi|]. split.
    + pose proof (chain_length_le chains i ch Hi). lia.
    + pose proof (sum_Z_lookup_le _ i (chain_count c (Z.of_nat i) ch)
                    (chain_counts_nonneg c chains)) as Hle.
      rewrite list_lookup_imap, Hi in Hle. specialize (Hle eq_refl). lia.
Qed.

Lemma ComputeLoadFactor_value c chains fuel :
  table_ok c chains -> total_slabs c * WARP_WIDTH < 2 ^ 31 ->
  (length (concat chains) <= fuel)%nat ->
  ComputeLoadFactor fuel c
  = Returned (inject_Z (occupied_slots c) / inject_Z (total_slabs c * WARP_WIDTH))%Q.
Proof.
  intros Hok Hsz Hf. unfold ComputeLoadFactor.
  rewrite (CountElemsPerBucket_chains c chains fuel Hok Hsz Hf). cbv zeta.
  pose proof Hok as (Hnb & _).
  pose proof (occupied_slots_bound c chains Hok) as Hocc.
  assert (Hts : num_buckets_ c <= total_slabs c) by (unfold total_slabs; lia).
  change WARP_WIDTH with 32 in *.
  rewrite accumulate_int_sum; [| lia | apply chain_counts_nonneg |].
  2: { rewrite (chains_counts_sum c chains Hok). lia. }
  rewrite (chains_counts_sum c chains Hok), Z.add_0_l.
  unfold CountSlabsPerSuperblock, accumulate_u32. cbn [fold_left].
  fold (total_slabs c).
  rewrite (to_u32_small (total_slabs c)) by lia.
  rewrite (to_i32_small (total_slabs c)) by lia.
  rewrite (to_i32_small (total_slabs c * 32)) by lia.
  reflexivity.
Qed.

Lemma table31_ok : table_ok table31 [[]].
Proof.
  split; [vm_compute; split; reflexivity|].
  split; [reflexivity|].
  split; [split; vm_compute; repeat constructor|].
  split.
  - split; [reflexivity|]. split; [reflexivity|].
    intros n. do 4 (destruct n as [|n]; [intros _; reflexivity|]).
    intros H. discriminate H.
  - split; [reflexivity|]. split; [|split].
    + intros [|b] ch H; [|destruct b; discriminate H].
      injection H as <-. split; [vm_compute; eauto|vm_compute; reflexivity].
    + constructor.
    + intros n. split; [intros H; inversion H|].
      intros [_ H]. exfalso. revert H.
      generalize (Z.to_nat n). intros m.
      do 4 (destruct m as [|m]; [discriminate|]). discriminate.
Qed.



(** ** Keys: broadcast, comparison, presence *)

Lemma byte_at_insert l i j b : (i < length l)%nat ->
  byte_at (<[i := b]> l) j = if Nat.eqb i j then b else byte_at l j.
Proof.
  intros Hi. unfold byte_at. rewrite !nth_lookup.
  destruct (Nat.eqb_spec i j) as [->|Hne].
  - rewrite list_lookup_insert_eq by exact Hi. reflexivity.
  - rewrite list_lookup_insert_ne by exact Hne. reflexivity.
Qed.

Lemma store_word_bytes buf i src buf' :
  store_word buf i src = Some buf' ->
  forall j, byte_at buf' j
            = if (4 * i <=? j)%nat && (j <? 4 * i + 4)%nat then byte_at src j
              else byte_at buf j.
Proof.
  unfold store_word.
  destruct (Z.leb_spec (4 * Z.of_nat i + 4) (Z.of_nat (length buf))) as [Hl|]; [|discriminate].
  intros H j. apply (inj Some) in H. subst buf'.
  rewrite !byte_at_insert by (rewrite ?length_insert; lia).
  destruct (Nat.eqb_spec (4 * i + 3) j), (Nat.eqb_spec (4 * i + 2) j),
    (Nat.eqb_spec (4 * i + 1) j), (Nat.eqb_spec (4 * i) j),
    (Nat.leb_spec (4 * i) j), (Nat.ltb_spec j (4 * i + 4));
    try lia; try reflexivity; cbn [andb]; f_equal; lia.
Qed.

Lemma WarpSyncKey_loop_bytes src n : forall i buf buf',
  WarpSyncKey_loop src n i buf = Some buf' ->
  forall j, byte_at buf' j
            = if (4 * i <=? j)%nat && (j <? 4 * (i + n))%nat then byte_at src j
              else byte_at buf j.
Proof.
  induction n as [|n IH]; intros i buf buf' H j.
  - injection H as <-.
    destruct (Nat.leb_spec (4 * i) j), (Nat.ltb_spec j (4 * (i + 0))); try lia; reflexivity.
  - cbn [WarpSyncKey_loop] in H.
    destruct (store_word buf i src) as [b1|] eqn:E; [|discriminate].
    rewrite (IH (S i) b1 buf' H j), (store_word_bytes buf i src b1 E j).
    destruct (Nat.leb_spec (4 * S i) j), (Nat.ltb_spec j (4 * (S i + n))),
      (Nat.leb_spec (4 * i) j), (Nat.ltb_spec j (4 * i + 4)),
      (Nat.ltb_spec j (4 * (i + S n))); try lia; reflexivity.
Qed.

Lemma chunks_of_exact dk : 0 <= dk -> dk mod 4 = 0 -> (4 * chunks_of dk = Z.to_nat dk)%nat.
Proof.
  intros H0 Hm. unfold chunks_of.
  pose proof (Z.div_mod dk 4 ltac:(lia)). pose proof (Z.div_pos dk 4 H0 ltac:(lia)). lia.
Qed.

Lemma read_bytes_ext a b n :
  (forall j, (j < n)%nat -> byte_at a j = byte_at b j) -> read_bytes a n = read_bytes b n.
Proof.
  intros H. unfold read_bytes. apply map_ext_in. intros j Hj. apply in_seq in Hj.
  apply H. lia.
Qed.

(** after the broadcast every lane holds the key bytes of the source lane *)
Lemma sync_key_key_of c k : key_size_ok c -> key_of c (sync_key c k) = key_of c k.
Proof.
  intros [[H0 H32] Hm]. unfold key_of, sync_key.
  destruct (WarpSyncKey_loop_some k (chunks_of (dsize_key_ c)) 0 (src_key_buffer c))
    as (buf & Hb & _).
  { rewrite src_key_buffer_length. pose proof (chunks_of_bound (dsize_key_ c) 32 H32). lia. }
  rewrite Hb. cbn [default from_option id].
  apply read_bytes_ext. intros j Hj.
  rewrite (WarpSyncKey_loop_bytes _ _ _ _ _ Hb j).
  pose proof (chunks_of_exact _ H0 Hm).
  destruct (Nat.leb_spec (4 * 0) j), (Nat.ltb_spec j (4 * (0 + chunks_of (dsize_key_ c))));
    try lia; reflexivity.
Qed.

Lemma cmp_iff a b dk :
  cmp a b dk = true <-> read_bytes a (Z.to_nat dk) = read_bytes b (Z.to_nat dk).
Proof.
  unfold cmp. rewrite forallb_forall. split.
  - intros H. apply read_bytes_ext. intros j Hj.
    specialize (H j ltac:(apply in_seq; lia)). apply Byte.byte_dec_bl in H. exact H.
  - intros H j Hj. apply in_seq in Hj.
    rewrite (read_bytes_byte_at a b _ j H) by lia. apply Byte.byte_dec_lb. reflexivity.
Qed.

Lemma matches_iff c k u : key_size_ok c ->
  matches c (sync_key c k) u = true <-> u <> EMPTY_PAIR_PTR /\ key_bytes c u = key_of c k.
Proof.
  intros Hk. unfold matches. rewrite andb_true_iff, negb_true_iff, Z.eqb_neq, cmp_iff.
  fold (key_of c (extract_ptr (pair_allocator_ctx_ c) u)).
  fold (key_of c (sync_key c k)). rewrite (sync_key_key_of c k Hk). reflexivity.
Qed.

Lemma elem_of_occupied_units s u :
  u ∈ occupied_units s <-> u <> EMPTY_PAIR_PTR /\ exists i, (i < 31)%nat /\ s !! i = Some u.
Proof.
  unfold occupied_units. rewrite list_elem_of_filter, elem_of_take.
  split; intros [H (i & H1 & H2)]; (split; [exact H|exists i; tauto]).
Qed.

(** a slab that holds no record with the key of the request *)
Lemma found_in_absent c k ud : key_size_ok c ->
  (forall u, u ∈ occupied_units ud -> key_bytes c u <> key_of c k) ->
  found_in c k ud = -1.
Proof.
  intros Hk H. unfold found_in. apply find_first_none. rewrite Forall_fmap.
  apply Forall_forall. intros u Hu. cbn.
  destruct (matches c (sync_key c k) u) eqn:E; [|reflexivity].
  apply (matches_iff c k u Hk) in E as [Hne Heq].
  exfalso. apply (H u); [|exact Heq].
  apply elem_of_occupied_units. split; [exact Hne|].
  apply elem_of_take in Hu as (i & Hu & Hi). eauto.
Qed.

Lemma found_in_present c k ud : key_size_ok c -> 0 <= found_in c k ud ->
  exists u, zget ud (found_in c k ud) = Some u /\ u ∈ occupied_units ud
            /\ key_bytes c u = key_of c k.
Proof.
  intros Hk H. destruct (found_in_some c k ud H) as (Hlt & u & Hu & Hm).
  apply (matches_iff c k u Hk) in Hm as [Hne Heq].
  exists u. split; [exact Hu|]. split; [|exact Heq].
  apply elem_of_occupied_units. split; [exact Hne|].
  apply zget_Some in Hu as [Hr Hu]. exists (Z.to_nat (found_in c k ud)).
  split; [lia|exact Hu].
Qed.
(** ** The handles in the data slots *)

Lemma filter_insert_perm {A} (P : A -> Prop) `{forall x, Decision (P x)} (l : list A) :
  forall (i : nat) old v, l !! i = Some old -> ~ P old ->
  filter P (<[i := v]> l) ≡ₚ filter P [v] ++ filter P l.
Proof.
  induction l as [|x l IH]; intros [|i] old v Hi Hold; try discriminate.
  - injection Hi as ->. cbn [insert list_insert].
    rewrite (filter_cons_False P old l) by exact Hold.
    change (v :: l) with ([v] ++ l). rewrite filter_app. reflexivity.
  - cbn [insert list_insert]. cbn in Hi. specialize (IH i old v Hi Hold).
    destruct (decide (P x)) as [Hx|Hx].
    + rewrite !(filter_cons_True P x) by exact Hx. rewrite IH.
      apply Permutation_middle.
    + rewrite !(filter_cons_False P x) by exact Hx. exact IH.
Qed.

Lemma concat_map_insert_perm {A B} (f : A -> list B) (l : list A) :
  forall (i : nat) s s' x, l !! i = Some s -> f s' ≡ₚ x ++ f s ->
  concat (map f (<[i := s']> l)) ≡ₚ x ++ concat (map f l).
Proof.
  induction l as [|y l IH]; intros [|i] s s' x Hi Hf; try discriminate.
  - injection Hi as ->. cbn [insert list_insert map concat].
    rewrite Hf, app_assoc. reflexivity.
  - cbn [insert list_insert map concat]. cbn in Hi.
    rewrite (IH i s s' x Hi Hf).
    rewrite !app_assoc. apply Permutation_app_tail. apply Permutation_app_comm.
Qed.

Lemma concat_map_insert_same {A B} (f : A -> list B) (l : list A) (i : nat) s s' :
  l !! i = Some s -> f s' = f s -> concat (map f (<[i := s']> l)) = concat (map f l).
Proof.
  intros Hi Hf. change (map f (<[i := s']> l)) with (f <$> <[i := s']> l).
  rewrite list_fmap_insert, Hf. rewrite list_insert_id; [reflexivity|].
  rewrite list_lookup_fmap, Hi. reflexivity.
Qed.

Lemma occupied_units_write_data (s : Slab) lane v :
  0 <= lane < 31 -> zget s lane = Some EMPTY_PAIR_PTR ->
  occupied_units (zset s lane v)
  ≡ₚ filter (fun u => u <> EMPTY_PAIR_PTR) [v] ++ occupied_units s.
Proof.
  intros Hl Hz. apply zget_Some in Hz as [Hr Hz]. unfold occupied_units, zset.
  rewrite (proj2 (in_range_spec s lane) Hr).
  rewrite take_insert_lt by lia.
  apply (filter_insert_perm _ _ _ EMPTY_PAIR_PTR).
  - rewrite lookup_take_lt by lia. exact Hz.
  - intros H. apply H. reflexivity.
Qed.

Lemma occupied_units_write_next (s : Slab) lane v :
  31 <= lane -> occupied_units (zset s lane v) = occupied_units s.
Proof.
  intros Hl. unfold occupied_units. rewrite (take_zset_ge s 31 lane v) by exact Hl.
  reflexivity.
Qed.

Lemma occupied_units_empty_slab : occupied_units empty_slab = [].
Proof. reflexivity. Qed.

Lemma table_units_ext c c' :
  bucket_list_head_ c' = bucket_list_head_ c ->
  slab_mem (slab_list_allocator_ctx_ c') = slab_mem (slab_list_allocator_ctx_ c) ->
  table_units c' = table_units c.
Proof. intros H1 H2. unfold table_units. rewrite H1, H2. reflexivity. Qed.

Lemma table_units_write_data c curr b lane v s :
  slab_at c curr b = Some s -> 0 <= lane < 31 -> zget s lane = Some EMPTY_PAIR_PTR ->
  table_units (write_unit c curr b lane v)
  ≡ₚ filter (fun u => u <> EMPTY_PAIR_PTR) [v] ++ table_units c.
Proof.
  intros Hs Hl Hz. pose proof (occupied_units_write_data s lane v Hl Hz) as Hocc.
  unfold slab_at in Hs. unfold write_unit, table_units.
  destruct (curr =? HEAD_SLAB_PTR); rewrite Hs; cbn;
    apply zget_Some in Hs as [Hr Hs]; unfold zset at 1;
    rewrite (proj2 (in_range_spec _ _) Hr).
  - rewrite (concat_map_insert_perm occupied_units _ _ s _ _ Hs Hocc).
    rewrite app_assoc. reflexivity.
  - rewrite (concat_map_insert_perm occupied_units _ _ s _ _ Hs Hocc).
    rewrite !app_assoc. apply Permutation_app_tail. apply Permutation_app_comm.
Qed.

Lemma table_units_write_next c curr b lane v :
  31 <= lane -> table_units (write_unit c curr b lane v) = table_units c.
Proof.
  intros Hl. unfold write_unit, table_units.
  destruct (curr =? HEAD_SLAB_PTR).
  - destruct (zget (bucket_list_head_ c) b) as [s|] eqn:Hs; [|reflexivity]. cbn.
    apply zget_Some in Hs as [Hr Hs]. unfold zset at 1.
    rewrite (proj2 (in_range_spec _ _) Hr).
    rewrite (concat_map_insert_same occupied_units _ _ s _ Hs); [reflexivity|].
    apply occupied_units_write_next. exact Hl.
  - destruct (zget (slab_mem (slab_list_allocator_ctx_ c)) curr) as [s|] eqn:Hs;
      [|reflexivity]. cbn.
    apply zget_Some in Hs as [Hr Hs]. unfold zset at 1.
    rewrite (proj2 (in_range_spec _ _) Hr).
    rewrite (concat_map_insert_same occupied_units _ _ s _ Hs); [reflexivity|].
    apply occupied_units_write_next. exact Hl.
Qed.

Lemma elem_of_concat_map {A B} (f : A -> list B) (l : list A) x :
  x ∈ concat (map f l) <-> exists s, s ∈ l /\ x ∈ f s.
Proof.
  induction l as [|y l IH]; cbn [map concat].
  - split; [intros H; inversion H|intros (s & H & _); inversion H].
  - rewrite elem_of_app, IH. split.
    + intros [H|(s & H1 & H2)]; [exists y; split; [apply list_elem_of_here|exact H]|].
      exists s. split; [apply list_elem_of_further; exact H1|exact H2].
    + intros (s & H1 & H2). apply elem_of_cons in H1 as [->|H1]; [left; exact H2|].
      right. exists s. split; assumption.
Qed.

(** the units a warp reads are units of the table *)
Lemma read_slab_units c curr b u :
  u ∈ occupied_units (read_slab c curr b) -> u ∈ table_units c.
Proof.
  unfold read_slab, table_units. intros H. apply elem_of_app.
  destruct (curr =? HEAD_SLAB_PTR).
  - destruct (zget (bucket_list_head_ c) b) as [s|] eqn:Hs;
      cbn [from_option id] in H; [|rewrite occupied_units_empty_slab in H; inversion H].
    left. apply zget_Some in Hs as [_ Hs]. apply elem_of_concat_map.
    exists s. split; [eapply list_elem_of_lookup_2; eauto|exact H].
  - destruct (zget (slab_mem (slab_list_allocator_ctx_ c)) curr) as [s|] eqn:Hs;
      cbn [from_option id] in H; [|rewrite occupied_units_empty_slab in H; inversion H].
    right. apply zget_Some in Hs as [_ Hs]. apply elem_of_concat_map.
    exists s. split; [eapply list_elem_of_lookup_2; eauto|exact H].
Qed.

Lemma key_bytes_ext c c' u :
  pair_allocator_ctx_ c' = pair_allocator_ctx_ c -> dsize_key_ c' = dsize_key_ c ->
  key_bytes c' u = key_bytes c u.
Proof. intros H1 H2. unfold key_bytes, key_of. rewrite H1, H2. reflexivity. Qed.
(** ** The Insert of a key that is not in the table *)

Lemma found_in_table_absent c k curr b : key_size_ok c ->
  (forall u, u ∈ table_units c -> key_bytes c u <> key_of c k) ->
  found_in c k (read_slab c curr b) = -1.
Proof.
  intros Hk Habs. apply found_in_absent; [exact Hk|].
  intros u Hu. apply Habs. eapply read_slab_units; eauto.
Qed.

Lemma insert_walk_absent c k b p : key_size_ok c -> pool_ok c ->
  is_Some (first_free (slab_used (slab_list_allocator_ctx_ c)) 0) ->
  (forall u, u ∈ table_units c -> key_bytes c u <> key_of c k) ->
  forall rest curr, path c b curr rest ->
  snd (insert_walk c k b p curr rest) = true
  /\ pair_allocator_ctx_ (fst (insert_walk c k b p curr rest)) = pair_allocator_ctx_ c
  /\ table_units (fst (insert_walk c k b p curr rest))
     ≡ₚ filter (fun u => u <> EMPTY_PAIR_PTR) [p] ++ table_units c.
Proof.
  intros Hk Hpool Hfree Habs.
  induction rest as [|q rest IH]; intros curr Hp; cbn [insert_walk];
    rewrite (found_in_table_absent c k curr b Hk Habs);
    change (0 <=? -1) with false; cbv iota;
    destruct (Z.leb_spec 0 (empty_in (read_slab c curr b))) as [He|He].
  1, 3: (destruct Hp as [[s Hs] _]; rewrite (read_slab_slab_at _ _ _ _ Hs) in *;
         destruct (empty_in_some _ He) as [Hlt Hz];
         pose proof (empty_in_ge s);
         cbn [fst snd]; split; [reflexivity|]; split; [apply write_unit_pairs|];
         apply (table_units_write_data c curr b _ p s Hs); [lia|exact Hz]).
  - destruct Hfree as [n Hn]. destruct Hp as [[s Hs] _].
    rewrite (AllocateSlab_some c n Hn).
    set (c1 := with_slabs c _).
    pose proof (first_free_spec _ _ _ Hn) as [Hrange Hfr]. rewrite Z.sub_0_r in Hfr.
    destruct Hpool as (Hpl & Hph & Hpe). pose proof (Hpe _ Hfr) as Hmem.
    assert (Hn0' : (n =? HEAD_SLAB_PTR) = false) by (apply Z.eqb_neq; lia).
    assert (Hnot : ~ same_slab curr b n b).
    { unfold same_slab. destruct (curr =? HEAD_SLAB_PTR) eqn:E; [intros [? _]; lia|].
      intros ->. rewrite (read_slab_slab_at _ _ _ _ Hs) in He.
      unfold slab_at in Hs. rewrite E in Hs.
      apply zget_Some in Hs as [_ Hs]. rewrite Hmem in Hs. injection Hs as <-.
      rewrite empty_in_empty_slab in He. lia. }
    assert (Hsn : slab_at (write_unit c1 curr b NEXT_SLAB_PTR_LANE n) n b = Some empty_slab).
    { rewrite slab_at_write_other by exact Hnot.
      unfold slab_at. rewrite Hn0'. apply zget_Some. split; [cbn; lia|exact Hmem]. }
    cbn [fst snd]. split; [reflexivity|]. split; [rewrite !write_unit_pairs; reflexivity|].
    rewrite (table_units_write_data _ n b 0 p empty_slab Hsn); [|lia|reflexivity].
    rewrite table_units_write_next by (unfold NEXT_SLAB_PTR_LANE; lia).
    reflexivity.
  - destruct Hp as (_ & _ & _ & _ & Hp). apply IH. exact Hp.
Qed.
(** ** The eager allocation of Insert *)

Lemma byte_at_read_bytes k n j : (j < n)%nat -> byte_at (read_bytes k n) j = byte_at k j.
Proof.
  intros Hj. unfold read_bytes, byte_at at 1.
  rewrite (nth_indep _ x00 (byte_at k 0)) by (rewrite length_map, length_seq; lia).
  rewrite map_nth, seq_nth by lia. reflexivity.
Qed.

Lemma read_bytes_length k n : length (read_bytes k n) = n.
Proof. unfold read_bytes. rewrite length_map, length_seq. reflexivity. Qed.

Lemma key_of_record c k v : key_of c (record_of c k v) = key_of c k.
Proof.
  unfold key_of, record_of. apply read_bytes_ext. intros j Hj.
  unfold byte_at at 1. rewrite app_nth1 by (rewrite read_bytes_length; exact Hj).
  apply byte_at_read_bytes. exact Hj.
Qed.

Lemma in_hand_length {A} (xs : list A) : forall act,
  length (in_hand xs act) = length (filter (fun b => b = true) (take (length xs) act)).
Proof.
  induction xs as [|x xs IH]; intros [|a act]; try reflexivity.
  cbn [in_hand length take]. destruct a.
  - rewrite filter_cons_True by reflexivity. cbn [length]. rewrite IH. reflexivity.
  - rewrite filter_cons_False by discriminate. apply IH.
Qed.



(** ** A warp that inserts new keys *)

Lemma zget_of_nat {A} (l : list A) (j : nat) : zget l (Z.of_nat j) = l !! j.
Proof.
  unfold zget. destruct (in_range l (Z.of_nat j)) eqn:E.
  - rewrite Nat2Z.id. reflexivity.
  - symmetry. apply lookup_ge_None.
    destruct (Nat.le_gt_cases (length l) j) as [H|H]; [exact H|].
    assert (in_range l (Z.of_nat j) = true) by (apply in_range_spec; lia). congruence.
Qed.

Lemma lookup_zset_eq {A} (l : list A) i x :
  0 <= i < Z.of_nat (length l) -> zset l i x !! Z.to_nat i = Some x.
Proof.
  intros H. rewrite <- zget_of_nat, Z2Nat.id by lia. apply zget_zset_eq. exact H.
Qed.

Lemma lookup_zset_ne {A} (l : list A) i (j : nat) x :
  0 <= i -> j <> Z.to_nat i -> zset l i x !! j = l !! j.
Proof.
  intros Hi H. rewrite <- !zget_of_nat. apply zget_zset_ne. lia.
Qed.







Section InsertNew.
Variable c1 : HashmapCUDAContext.
Variable L : lanes.
Variable prealloc : list ptr_t.
Variable act0 : list bool.
Variable X : nat.
Hypothesis Hk : key_size_ok c1.
Hypothesis HL : lanes_ok c1 L.
Hypothesis Hpl : length prealloc = 32%nat.
Hypothesis Hkl : length (key L) = 32%nat.
Hypothesis Hst : store_ok c1 (table_units c1 ++ in_hand prealloc act0).
Hypothesis Hrec : forall (i : nat) p k, act0 !! i = Some true ->
  prealloc !! i = Some p -> key L !! i = Some k -> key_bytes c1 p = key_of c1 k.

End InsertNew.

Lemma store_ok_range c held u :
  store_ok c held -> u ∈ held ->
  0 <= u < Z.of_nat (length (pair_mem (pair_allocator_ctx_ c))) /\ u <> EMPTY_PAIR_PTR.
Proof.
  intros (_ & Hrange & Hle & _) Hu.
  rewrite Forall_app in Hrange. destruct Hrange as [Hrange _].
  rewrite Forall_forall in Hrange. specialize (Hrange u Hu). lia.
Qed.

(** ** A batch that inserts new keys *)

Section LaunchTrace.
Variable warp : nat -> HashmapCUDAContext -> nat
                -> outcome (HashmapCUDAContext * list write).
Variable Inv : list nat -> HashmapCUDAContext -> Prop.
Variable Q : HashmapCUDAContext -> list write -> HashmapCUDAContext -> Prop.
Variable N : nat.
Hypothesis Q_nil : forall c, Q c [] c.
Hypothesis Q_app : forall c tr1 c1 tr2 c2,
  Q c tr1 c1 -> Q c1 tr2 c2 -> Q c (tr1 ++ tr2) c2.
Hypothesis Inv_warp : forall w rest c, Inv (w :: rest) c ->
  exists n c' tr, Inv rest c' /\ Q c tr c' /\ map fst tr = warp_tids N w
    /\ forall fuel, (n <= fuel)%nat -> warp fuel c w = Returned (c', tr).

End LaunchTrace.






Lemma key_of_config c c' k : same_config c c' -> key_of c' k = key_of c k.
Proof. intros (_ & H & _). unfold key_of. rewrite H. reflexivity. Qed.




(** ** A sequence of batch Inserts of new keys *)


(** ** More fuel never changes a result *)




(** ** The fresh table *)

Lemma table_units_fresh nb cap dk dv num_slabs stack_init :
  table_units (HashmapCUDA nb cap dk dv num_slabs stack_init) = [].
Proof.
  unfold table_units, HashmapCUDA. cbn.
  assert (H : forall n, concat (map occupied_units (repeat empty_slab n)) = []).
  { induction n as [|n IH]; [reflexivity|]. cbn [repeat map concat].
    rewrite IH. reflexivity. }
  rewrite !H. reflexivity.
Qed.







(** ** A batch of one request *)

Lemma Insert_prealloc_idle n : forall c ks vs,
  length ks = n -> length vs = n ->
  Insert_prealloc c (repeat false n) ks vs = (c, repeat EMPTY_PAIR_PTR n).
Proof.
  induction n as [|n IH]; intros c [|k ks] [|v vs] Hk Hv; try discriminate;
    [reflexivity|].
  cbn [repeat Insert_prealloc]. rewrite IH by (cbn in Hk, Hv; lia). reflexivity.
Qed.

Lemma Insert_prealloc_first c act k ks v vs :
  Insert_prealloc c (true :: act) (k :: ks) (v :: vs)
  = let '(p, a) := Allocate (pair_allocator_ctx_ c) in
    let '(c', ps) :=
      Insert_prealloc (with_pairs c (store_record a p (record_of c k v))) act ks vs in
    (c', p :: ps).
Proof. reflexivity. Qed.

Lemma single_lane_done r r' :
  regs_ok r' -> active r = true :: repeat false 31 ->
  active r' = zset (active r) 0 false -> work_queue r' = 0.
Proof.
  intros Hr' Ha Ha'. rewrite work_queue_bits by exact Hr'. rewrite Ha', Ha. reflexivity.
Qed.

(** the batch Insert of one key: the record is taken and written, and the
    request walks the chain of its bucket *)
Lemma Insert_single c chains k v :
  table_ok c chains -> dsize_key_ c <= MAX_KEY_BYTESIZE -> (0 < free_slabs c)%nat ->
  exists ch n,
    chains !! Z.to_nat (ComputeBucket c k) = Some ch
    /\ forall fuel, (n <= fuel)%nat ->
         HashmapCUDA_Insert fuel [0%nat] c [k] [v] 1
         = let pa := Allocate (pair_allocator_ctx_ c) in
           let c1 := with_pairs c (store_record (snd pa) (fst pa) (record_of c k v)) in
           let res := insert_walk c1 k (ComputeBucket c k) (fst pa) HEAD_SLAB_PTR ch in
           Returned (fst res,
                     [(0%nat, (if snd res then fst pa else NULL_ITERATOR, snd res))]).
Proof.
  intros Hok Hk Hfree.
  destruct (Allocate (pair_allocator_ctx_ c)) as [p a] eqn:Ea. cbn [fst snd].
  set (c1 := with_pairs c (store_record a p (record_of c k v))).
  set (L := {| bucket_id := ComputeBucket c k :: repeat 0 31;
               key := k :: repeat [] 31; value := v :: repeat [] 31 |}).
  set (act := true :: repeat false 31).
  assert (HL : warp_lanes c [k] [v] 1 0 = (L, act)) by reflexivity.
  assert (HP : Insert_prealloc c act (key L) (value L)
               = (c1, p :: repeat EMPTY_PAIR_PTR 31)).
  { unfold act, L. cbn [key value]. rewrite Insert_prealloc_first, Ea.
    rewrite (Insert_prealloc_idle 31) by reflexivity. reflexivity. }
  assert (Hok1 : table_ok c1 chains) by (apply table_ok_with_pairs; exact Hok).
  destruct (init_regs_ok act eq_refl) as [Hr0 Hc0].
  assert (Hs0 : src_lane (init_regs act) = 0) by reflexivity.
  destruct (Insert_step c1 chains L (p :: repeat EMPTY_PAIR_PTR 31) (init_regs act) Hok1)
    as (ch & n & r' & Hch & (Hstep & Hit & Hmk) & Hr' & _ & _ & Hact'); try assumption.
  { unfold lanes_ok, L. cbn [bucket_id]. constructor.
    - apply (ComputeBucket_range c k (proj1 Hok)).
    - apply Forall_repeat. destruct Hok as (Hnb & _). change (num_buckets_ c1) with (num_buckets_ c). lia. }
  { rewrite Hs0. lia. }
  assert (Hb : src_bucket L (init_regs act) = ComputeBucket c k) by reflexivity.
  assert (Hky : src_key_of L (init_regs act) = k) by reflexivity.
  assert (Hpp : src_prealloc (p :: repeat EMPTY_PAIR_PTR 31) (init_regs act) = p)
    by reflexivity.
  rewrite Hb, Hky, Hpp, Hs0 in *.
  exists ch, n. split; [exact Hch|]. intros fuel Hf.
  unfold HashmapCUDA_Insert, InsertKernel. cbn [launch].
  rewrite (kernel_warp_busy (Insert fuel) c [k] [v] 1 0
             (fst (insert_walk c1 k (ComputeBucket c k) p HEAD_SLAB_PTR ch)) r').
  - f_equal. f_equal. unfold warp_writes. cbn [Nat.mul Nat.sub Nat.min seq map Nat.add].
    rewrite Hit, Hmk.
    destruct (snd (insert_walk c1 k (ComputeBucket c k) p HEAD_SLAB_PTR ch)); reflexivity.
  - lia.
  - rewrite HL. cbn [fst snd]. unfold Insert. rewrite HP.
    apply (warp_loop_of_steps _ n _ _ _ _ fuel Hstep); [|exact Hf].
    apply (single_lane_done (init_regs act) r' Hr' eq_refl Hact').
Qed.

(** the batch Search of one key *)
Lemma Search_single c chains k :
  table_ok c chains -> dsize_key_ c <= MAX_KEY_BYTESIZE ->
  exists ch n,
    chains !! Z.to_nat (ComputeBucket c k) = Some ch
    /\ forall fuel, (n <= fuel)%nat ->
         HashmapCUDA_Search fuel [0%nat] c [k] 1
         = let res := search_walk c k (ComputeBucket c k) HEAD_SLAB_PTR ch in
           Returned (c, [(0%nat, (if snd res then fst res else NULL_ITERATOR, snd res))]).
Proof.
  intros Hok Hk.
  set (L := {| bucket_id := ComputeBucket c k :: repeat 0 31;
               key := k :: repeat [] 31; value := repeat [] 32 |}).
  set (act := true :: repeat false 31).
  assert (HL : warp_lanes c [k] [] 1 0 = (L, act)) by reflexivity.
  destruct (init_regs_ok act eq_refl) as [Hr0 Hc0].
  assert (Hs0 : src_lane (init_regs act) = 0) by reflexivity.
  destruct (Search_step c chains L (init_regs act) Hok Hk)
    as (ch & n & r' & Hch & Hstep & Hr' & _ & _ & Hact' & Hit & Hmk); try assumption.
  { unfold lanes_ok, L. cbn [bucket_id]. constructor.
    - apply (ComputeBucket_range c k (proj1 Hok)).
    - apply Forall_repeat. destruct Hok as (Hnb & _). lia. }
  { rewrite Hs0. lia. }
  assert (Hb : src_bucket L (init_regs act) = ComputeBucket c k) by reflexivity.
  assert (Hky : src_key_of L (init_regs act) = k) by reflexivity.
  rewrite Hb, Hky, Hs0 in *.
  exists ch, n. split; [exact Hch|]. intros fuel Hf.
  unfold HashmapCUDA_Search, SearchKernel. cbn [launch].
  rewrite (kernel_warp_busy (Search fuel) c [k] [] 1 0 c r').
  - f_equal. f_equal. unfold warp_writes. cbn [Nat.mul Nat.sub Nat.min seq map Nat.add].
    rewrite Hit, Hmk.
    destruct (snd (search_walk c k (ComputeBucket c k) HEAD_SLAB_PTR ch)); reflexivity.
  - lia.
  - rewrite HL. cbn [fst snd]. unfold Search.
    apply (warp_loop_of_steps _ n _ _ _ _ fuel Hstep); [|exact Hf].
    apply (single_lane_done (init_regs act) r' Hr' eq_refl Hact').
Qed.
(** ** A full head slab: the chain grows by one slab *)

Lemma find_first_exists l : true ∈ l -> 0 <= find_first l.
Proof.
  intros H. pose proof (find_first_ge l) as Hge.
  destruct (Z.eq_dec (find_first l) (-1)) as [E|E]; [|lia].
  apply find_first_none in E. rewrite Forall_forall in E.
  specialize (E true H). discriminate.
Qed.

Lemma found_in_exists c k ud u : key_size_ok c ->
  u ∈ occupied_units ud -> key_bytes c u = key_of c k -> 0 <= found_in c k ud.
Proof.
  intros Hk Hu Heq. unfold found_in. apply find_first_exists.
  apply elem_of_occupied_units in Hu as (Hne & i & Hi & Hui).
  apply (list_elem_of_fmap_2' _ _ u).
  - apply elem_of_take. exists i. split; [exact Hui|exact Hi].
  - symmetry. apply matches_iff; [exact Hk|]. split; assumption.
Qed.

Lemma filter_all {A} (P : A -> Prop) `{forall x, Decision (P x)} (l : list A) :
  Forall P l -> filter P l = l.
Proof.
  induction 1 as [|x l Hx _ IH]; [reflexivity|].
  rewrite filter_cons_True by exact Hx. f_equal. exact IH.
Qed.

Lemma occupied_units_full (s : Slab) :
  length s = 32%nat -> empty_in s = -1 -> length (occupied_units s) = 31%nat.
Proof.
  intros Hl He. unfold occupied_units. rewrite filter_all.
  - rewrite length_take. lia.
  - apply Forall_forall. intros u Hu. apply elem_of_take in Hu as (i & Hu & Hi).
    apply (empty_in_none s He i u Hi Hu).
Qed.

Lemma insert_walk_extend c chains (b : nat) k p s :
  table_ok c chains -> chains !! b = Some [] ->
  found_in c k (read_slab c HEAD_SLAB_PTR (Z.of_nat b)) = -1 ->
  empty_in (read_slab c HEAD_SLAB_PTR (Z.of_nat b)) = -1 ->
  first_free (slab_used (slab_list_allocator_ctx_ c)) 0 = Some s ->
  snd (insert_walk c k (Z.of_nat b) p HEAD_SLAB_PTR []) = true
  /\ table_ok (fst (insert_walk c k (Z.of_nat b) p HEAD_SLAB_PTR [])) (<[b := [s]]> chains)
  /\ S (free_slabs (fst (insert_walk c k (Z.of_nat b) p HEAD_SLAB_PTR []))) = free_slabs c
  /\ pair_allocator_ctx_ (fst (insert_walk c k (Z.of_nat b) p HEAD_SLAB_PTR []))
     = pair_allocator_ctx_ c
  /\ same_config c (fst (insert_walk c k (Z.of_nat b) p HEAD_SLAB_PTR []))
  /\ take 31 (read_slab (fst (insert_walk c k (Z.of_nat b) p HEAD_SLAB_PTR []))
                HEAD_SLAB_PTR (Z.of_nat b))
     = take 31 (read_slab c HEAD_SLAB_PTR (Z.of_nat b))
  /\ read_slab (fst (insert_walk c k (Z.of_nat b) p HEAD_SLAB_PTR [])) s (Z.of_nat b)
     = zset empty_slab 0 p.
Proof.
  intros Hok Hb Hf He Hs.
  pose proof (table_ok_link c chains b [] s Hok Hb Hs) as Hlink.
  pose proof (free_slabs_alloc c s Hs) as Hfs.
  pose proof (first_free_spec _ _ _ Hs) as [Hrange Hfr]. rewrite Z.sub_0_r in Hfr.
  pose proof Hok as (_ & _ & _ & (Hpl & Hph & Hpe) & _ & H6 & _).
  pose proof (Hpe _ Hfr) as Hmem.
  destruct (H6 b [] Hb) as [[hd Hhd] _].
  cbn [insert_walk]. rewrite Hf, He. change (0 <=? -1) with false. cbv iota.
  rewrite (AllocateSlab_some c s Hs) in *. cbn [fst snd] in *.
  change (chain_tail []) with HEAD_SLAB_PTR in Hlink. cbn [app] in Hlink.
  set (c1 := with_slabs c _) in *.
  set (c2 := write_unit c1 HEAD_SLAB_PTR (Z.of_nat b) NEXT_SLAB_PTR_LANE s) in *.
  assert (Hs0' : (s =? HEAD_SLAB_PTR) = false) by (apply Z.eqb_neq; lia).
  assert (Hnot : ~ same_slab HEAD_SLAB_PTR (Z.of_nat b) s (Z.of_nat b)).
  { unfold same_slab. change (HEAD_SLAB_PTR =? HEAD_SLAB_PTR) with true. cbv iota.
    intros [? _]. lia. }
  assert (Hnot' : ~ same_slab s (Z.of_nat b) HEAD_SLAB_PTR (Z.of_nat b)).
  { unfold same_slab. rewrite Hs0'. lia. }
  assert (Hsn : slab_at c2 s (Z.of_nat b) = Some empty_slab).
  { unfold c2. rewrite slab_at_write_other by exact Hnot.
    unfold slab_at. rewrite Hs0'. apply zget_Some. split; [cbn; lia|exact Hmem]. }
  assert (Hhd1 : slab_at c1 HEAD_SLAB_PTR (Z.of_nat b) = Some hd) by exact Hhd.
  split; [reflexivity|]. split.
  { apply table_ok_write_data; [exact Hlink|unfold NEXT_SLAB_PTR_LANE; lia|].
    right. split; [lia|]. unfold c2.
    rewrite (proj1 (proj2 (proj2 (proj2 (proj2 (write_unit_config _ _ _ _ _)))))).
    cbn. unfold zset. rewrite (proj2 (in_range_spec _ s)) by lia.
    apply list_lookup_insert_eq. lia. }
  split; [rewrite free_slabs_write; unfold c2; rewrite free_slabs_write; exact Hfs|].
  split; [rewrite write_unit_pairs; unfold c2; rewrite write_unit_pairs; reflexivity|].
  split.
  { eapply same_config_trans; [|apply same_config_write].
    eapply same_config_trans; [|apply same_config_write]. repeat split. }
  split.
  - rewrite read_slab_write_other by exact Hnot'.
    unfold c2. rewrite (read_slab_write_same c1 _ _ _ _ hd Hhd1).
    rewrite (read_slab_slab_at c _ _ hd Hhd).
    apply take_zset_ge. unfold NEXT_SLAB_PTR_LANE. lia.
  - apply (read_slab_write_same c2 s (Z.of_nat b) 0 p empty_slab Hsn).
Qed.

Lemma ComputeBucket_config c c' k : same_config c c' -> ComputeBucket c' k = ComputeBucket c k.
Proof. intros (H1 & H2 & _). unfold ComputeBucket. rewrite H1, H2. reflexivity. Qed.

Lemma occupied_units_take s s' : take 31 s = take 31 s' -> occupied_units s = occupied_units s'.
Proof. unfold occupied_units. intros ->. reflexivity. Qed.

(** the record a request writes, and the records it leaves alone *)
Lemma store_record_keys c a p k v u :
  pair_mem a = pair_mem (pair_allocator_ctx_ c) ->
  0 <= p < Z.of_nat (length (pair_mem (pair_allocator_ctx_ c))) ->
  key_bytes (with_pairs c (store_record a p (record_of c k v))) p = key_of c k
  /\ (u <> p -> key_bytes (with_pairs c (store_record a p (record_of c k v))) u
                = key_bytes c u).
Proof.
  intros Hm Hp. unfold key_bytes, key_of, extract_ptr. cbn. rewrite Hm. split.
  - rewrite zget_zset_eq by exact Hp. apply (key_of_record c k v).
  - intros Hne. rewrite zget_zset_ne by congruence. reflexivity.
Qed.

(** A full head slab.  In a well-formed table whose records are allocated and carry
    distinct keys, let the chain of the bucket of key [k] be its head slab
    alone, with every data slot of the head slab occupied (slotsPerSlab =
    31 keys), and let [k] be a key that is not in the table; a record and
    a slab are free.  Then Insert(k, v) returns with success=true and the
    record it allocated; it claims a slab [s] of the pool that was free,
    links it as the next pointer of the head slab, and the chain of the
    bucket is the head slab followed by [s]; afterwards Search succeeds,
    with an iterator to a record of that key, for [k] and for every key of
    the bucket held by the head slab. *)
Theorem full_head_slab_grows_chain (c : HashmapCUDAContext) (chains : list (list Z))
  (k v : list byte) (p : ptr_t) (free : list ptr_t) :
  table_ok c chains -> key_size_ok c -> store_ok c (table_units c) ->
  chains !! Z.to_nat (ComputeBucket c k) = Some [] ->
  empty_in (read_slab c HEAD_SLAB_PTR (ComputeBucket c k)) = -1 ->
  key_of c k ∉ map (key_bytes c) (table_units c) ->
  pair_free (pair_allocator_ctx_ c) = p :: free ->
  (0 < free_slabs c)%nat ->
  exists n s c',
    Z.of_nat (length (occupied_units (read_slab c HEAD_SLAB_PTR (ComputeBucket c k))))
    = slotsPerSlab
    /\ (forall fuel, (n <= fuel)%nat ->
          HashmapCUDA_Insert fuel [0%nat] c [k] [v] 1
          = Returned (c', [(0%nat, (p, true))]))
    /\ slab_used (slab_list_allocator_ctx_ c) !! Z.to_nat s = Some false
    /\ slab_used (slab_list_allocator_ctx_ c') !! Z.to_nat s = Some true
    /\ S (free_slabs c') = free_slabs c
    /\ next_of c' HEAD_SLAB_PTR (ComputeBucket c k) = s
    /\ table_ok c' (<[Z.to_nat (ComputeBucket c k) := [s]]> chains)
    /\ forall k' : list byte,
         ComputeBucket c k' = ComputeBucket c k ->
         key_of c k' = key_of c k
         \/ key_of c k' ∈ map (key_bytes c)
                            (occupied_units (read_slab c HEAD_SLAB_PTR (ComputeBucket c k))) ->
         exists m it,
           key_bytes c' it = key_of c k'
           /\ forall fuel, (m <= fuel)%nat ->
                HashmapCUDA_Search fuel [0%nat] c' [k'] 1
                = Returned (c', [(0%nat, (it, true))]).
Proof.
  intros Hok Hk Hst Hch Hfull Hnew Hpf Hfree.
  set (b := ComputeBucket c k) in *. set (head := read_slab c HEAD_SLAB_PTR b) in *.
  pose proof (ComputeBucket_range c k (proj1 Hok)) as Hb. fold b in Hb.
  assert (Hbb : Z.of_nat (Z.to_nat b) = b) by lia.
  assert (HA : Allocate (pair_allocator_ctx_ c)
               = (p, {| pair_free := free; pair_mem := pair_mem (pair_allocator_ctx_ c) |}))
    by (unfold Allocate; rewrite Hpf; reflexivity).
  set (a := {| pair_free := free; pair_mem := pair_mem (pair_allocator_ctx_ c) |}) in *.
  set (c1 := with_pairs c (store_record a p (record_of c k v))).
  assert (Hpin : p ∈ table_units c ++ pair_free (pair_allocator_ctx_ c))
    by (rewrite Hpf; apply elem_of_app; right; apply list_elem_of_here).
  assert (Hpr : 0 <= p < Z.of_nat (length (pair_mem (pair_allocator_ctx_ c)))).
  { destruct Hst as (_ & Hr & _). rewrite Forall_forall in Hr. apply Hr. exact Hpin. }
  assert (Hpne : p <> EMPTY_PAIR_PTR) by (destruct Hst as (_ & _ & Hle & _); lia).
  assert (Hpu : forall u, u ∈ table_units c -> u <> p).
  { intros u Hu ->. destruct Hst as (Hnd & _). rewrite Hpf in Hnd.
    apply NoDup_app in Hnd as (_ & Hdis & _). apply (Hdis p Hu). apply list_elem_of_here. }
  destruct (store_record_keys c a p k v p eq_refl Hpr) as [Hkp _].
  assert (Hku : forall u, u <> p -> key_bytes c1 u = key_bytes c u)
    by (intros u Hu; apply (store_record_keys c a p k v u eq_refl Hpr); exact Hu).
  fold c1 in Hkp.
  assert (Hok1 : table_ok c1 chains) by (apply table_ok_with_pairs; exact Hok).
  assert (Hk1 : key_size_ok c1) by exact Hk.
  assert (Hf1 : found_in c1 k (read_slab c1 HEAD_SLAB_PTR (Z.of_nat (Z.to_nat b))) = -1).
  { apply found_in_absent; [exact Hk1|]. intros u Hu Heq.
    apply read_slab_units in Hu. change (table_units c1) with (table_units c) in Hu.
    apply Hnew.
    change (key_of c1 k) with (key_of c k) in Heq. rewrite <- Heq.
    rewrite (Hku u (Hpu u Hu)).
    apply (list_elem_of_fmap_2 (key_bytes c)). exact Hu. }
  assert (He1 : empty_in (read_slab c1 HEAD_SLAB_PTR (Z.of_nat (Z.to_nat b))) = -1)
    by (rewrite Hbb; exact Hfull).
  destruct (free_slabs_first_free c1 Hfree) as [s Hs].
  destruct (insert_walk_extend c1 chains (Z.to_nat b) k p s Hok1 Hch Hf1 He1 Hs)
    as (Hsnd & Hok' & Hfs & Hpa & Hcfg & Hhead & Hnew_slab).
  rewrite Hbb in *.
  set (c' := fst (insert_walk c1 k b p HEAD_SLAB_PTR [])) in *.
  destruct (Insert_single c chains k v Hok (proj2 (proj1 Hk)) Hfree)
    as (ch & n & Hch' & Hrun).
  fold b in Hch', Hrun. rewrite Hch in Hch'. injection Hch' as <-.
  rewrite HA in Hrun. cbn [fst snd] in Hrun. cbv zeta in Hrun.
  fold a c1 c' in Hrun. rewrite Hsnd in Hrun.
  pose proof (first_free_spec _ _ _ Hs) as [Hrange Hfr]. rewrite Z.sub_0_r in Hfr.
  assert (Hlk : <[Z.to_nat b := [s]]> chains !! Z.to_nat b = Some [s]).
  { apply list_lookup_insert_eq. eapply lookup_lt_Some. exact Hch. }
  pose proof Hok' as (_ & _ & Hlen' & _ & _ & H6' & _ & H8').
  pose proof (H6' _ _ Hlk) as Hpath. rewrite Hbb in Hpath.
  exists n, s, c'.
  split.
  { rewrite (occupied_units_full head); [reflexivity| |exact Hfull].
    apply read_slab_length. apply Hok. }
  split; [exact Hrun|]. split; [exact Hfr|].
  split; [apply H8'; eapply elem_of_chain_concat; [exact Hlk|apply list_elem_of_here]|].
  split; [exact Hfs|].
  split; [destruct Hpath as (_ & Hn & _); exact Hn|].
  split; [exact Hok'|].
  intros k' Hbk' Hk'.
  assert (Hcfg' : same_config c c').
  { eapply same_config_trans; [|exact Hcfg].
    repeat split. unfold c1. cbn. apply zset_length. }
  assert (Hkc' : key_size_ok c').
  { unfold key_size_ok. destruct Hcfg' as (_ & -> & _). exact Hk. }
  assert (Hkey' : forall u, key_bytes c' u = key_bytes c1 u).
  { intros u. apply key_bytes_ext; [exact Hpa|]. destruct Hcfg as (_ & H & _). exact H. }
  assert (Hko : key_of c' k' = key_of c k') by (apply key_of_config; exact Hcfg').
  destruct (Search_single c' (<[Z.to_nat b := [s]]> chains) k' Hok' (proj2 (proj1 Hkc')))
    as (ch' & m & Hch' & Hsrch).
  rewrite (ComputeBucket_config c c' k' Hcfg'), Hbk' in Hch', Hsrch.
  rewrite Hlk in Hch'. injection Hch' as <-.
  cbn [search_walk] in Hsrch.
  destruct (Z.leb_spec 0 (found_in c' k' (read_slab c' HEAD_SLAB_PTR b))) as [Hfh|Hfh].
  - destruct (found_in_present c' k' _ Hkc' Hfh) as (u & Hzu & _ & Hku').
    exists m, u. split; [rewrite Hku'; exact Hko|].
    intros fuel Hf. rewrite (Hsrch fuel Hf). cbn [fst snd].
    rewrite (shfl_sync_zget _ _ _ _ Hzu). reflexivity.
  - assert (Hfs2 : 0 <= found_in c' k' (read_slab c' s b)).
    { destruct Hk' as [Hsame|Hin].
      - apply (found_in_exists c' k' _ p Hkc').
        + rewrite Hnew_slab. apply elem_of_occupied_units. split; [exact Hpne|].
          exists 0%nat. split; [lia|reflexivity].
        + rewrite Hkey', Hkp, Hko. symmetry. exact Hsame.
      - exfalso. apply list_elem_of_fmap in Hin as (u & Hu1 & Hu2).
        assert (0 <= found_in c' k' (read_slab c' HEAD_SLAB_PTR b)); [|lia].
        apply (found_in_exists c' k' _ u Hkc').
        + rewrite (occupied_units_take _ _ Hhead). exact Hu2.
        + rewrite Hkey', Hko, Hu1. apply Hku. apply Hpu.
          eapply read_slab_units. exact Hu2. }
    destruct (found_in_present c' k' _ Hkc' Hfs2) as (u & Hzu & _ & Hku').
    exists m, u. split; [rewrite Hku'; exact Hko|].
    intros fuel Hf. rewrite (Hsrch fuel Hf).
    destruct (Z.leb_spec 0 (found_in c' k' (read_slab c' s b))); [|lia].
    cbn [fst snd]. rewrite (shfl_sync_zget _ _ _ _ Hzu). reflexivity.
Qed.

Lemma table31_store_ok : key_size_ok table31 /\ store_ok table31 (table_units table31).
Proof.
  split; [split; [split; vm_compute; discriminate|reflexivity]|].
  split; [apply (bool_decide_unpack _); vm_compute; exact I|].
  split; [apply (bool_decide_unpack _); vm_compute; exact I|].
  split; [vm_compute; discriminate|].
  apply (bool_decide_unpack _). vm_compute. exact I.
Qed.

Lemma full_head_slab_grows_chain_witness :
  exists n c',
    forall fuel, (n <= fuel)%nat ->
      HashmapCUDA_Insert fuel [0%nat] table31 [u32_bytes 32] [u32_bytes 320] 1
      = Returned (c', [(0%nat, (31, true))]).
Proof.
  assert (Hch : [[]] !! Z.to_nat (ComputeBucket table31 (u32_bytes 32)) = Some (@nil Z))
    by (vm_compute; reflexivity).
  assert (Hfull : empty_in (read_slab table31 HEAD_SLAB_PTR
                              (ComputeBucket table31 (u32_bytes 32))) = -1)
    by (vm_compute; reflexivity).
  assert (Hnew : key_of table31 (u32_bytes 32)
                 ∉ map (key_bytes table31) (table_units table31))
    by (apply (bool_decide_unpack _); vm_compute; exact I).
  assert (Hpf : pair_free (pair_allocator_ctx_ table31) = 31 :: map Z.of_nat (seq 32 32))
    by (vm_compute; reflexivity).
  assert (Hfree : (0 < free_slabs table31)%nat) by (vm_compute; lia).
  destruct (full_head_slab_grows_chain table31 [[]] (u32_bytes 32) (u32_bytes 320) 31
              (map Z.of_nat (seq 32 32)) table31_ok (proj1 table31_store_ok)
              (proj2 table31_store_ok) Hch Hfull Hnew Hpf Hfree)
    as (n & s & c' & _ & Hrun & _).
  exists n, c'. exact Hrun.
Defined.
(** * Further properties of the code *)

(** ** The votes of a warp *)

Lemma WarpFindKey_find_first c key_ptr ud :
  length ud = 32%nat ->
  WarpFindKey c key_ptr ud = find_first (map (matches c key_ptr) (take 31 ud)).
Proof.
  intros Hl. unfold WarpFindKey.
  rewrite ballot_pair by (rewrite length_imap; exact Hl).
  rewrite ffs_lane_bits. f_equal.
  apply list_eq. intros i.
  rewrite list_lookup_fmap.
  destruct (decide (i < 31)%nat) as [Hi|Hi].
  - rewrite !lookup_take_lt by exact Hi. rewrite list_lookup_imap.
    destruct (ud !! i) as [u|]; [|reflexivity]. cbn.
    unfold is_lane_found, matches. rewrite pair_lane_bit by exact Hi. reflexivity.
  - rewrite !lookup_take_ge by lia. reflexivity.
Qed.

Lemma find_first_take_spec {A} (f : A -> bool) (ud : list A) :
  length ud = 32%nat ->
  -1 <= find_first (map f (take 31 ud)) < 31
  /\ (forall i : nat, find_first (map f (take 31 ud)) = Z.of_nat i ->
        (exists u, ud !! i = Some u /\ f u = true)
        /\ forall j u, (j < i)%nat -> ud !! j = Some u -> f u = false)
  /\ (find_first (map f (take 31 ud)) = -1 ->
        forall j u, (j < 31)%nat -> ud !! j = Some u -> f u = false).
Proof.
  intros Hl. pose proof (find_first_ge (map f (take 31 ud))) as Hge.
  pose proof (find_first_lt (map f (take 31 ud))) as Hlt.
  rewrite length_map, length_take in Hlt.
  split; [lia|]. split.
  - intros i Hi.
    destruct (find_first_some (map f (take 31 ud)) (Z.of_nat i) ltac:(lia) Hi)
      as [Hhit Hbefore].
    rewrite Nat2Z.id in Hhit, Hbefore.
    assert (Hi31 : (i < 31)%nat) by lia.
    split.
    + rewrite list_lookup_fmap, lookup_take_lt in Hhit by exact Hi31.
      destruct (ud !! i) as [u|]; [|discriminate]. exists u. split; [reflexivity|].
      cbn in Hhit. congruence.
    + intros j u Hj Hu. specialize (Hbefore j Hj).
      rewrite list_lookup_fmap, lookup_take_lt, Hu in Hbefore by lia.
      cbn in Hbefore. congruence.
  - intros Hnone j u Hj Hu. apply find_first_none in Hnone.
    rewrite Forall_fmap in Hnone. eapply Forall_lookup_1 in Hnone.
    2: { rewrite lookup_take_lt by exact Hj. exact Hu. }
    exact Hnone.
Qed.

(** WarpFindEmpty: the lowest data lane (0..30) whose unit is the empty
    marker, or -1 when the 31 data lanes are occupied; lane 31, which holds
    the next pointer, is never reported, whatever it holds. *)
Theorem WarpFindEmpty_lowest_empty_data_lane (unit_data : list ptr_t) :
  length unit_data = 32%nat ->
  -1 <= WarpFindEmpty unit_data < 31
  /\ (forall i : nat, WarpFindEmpty unit_data = Z.of_nat i ->
        unit_data !! i = Some EMPTY_PAIR_PTR
        /\ forall j u, (j < i)%nat -> unit_data !! j = Some u -> u <> EMPTY_PAIR_PTR)
  /\ (WarpFindEmpty unit_data = -1 ->
        forall j u, (j < 31)%nat -> unit_data !! j = Some u -> u <> EMPTY_PAIR_PTR).
Proof.
  intros Hl. rewrite (WarpFindEmpty_empty_in unit_data Hl). unfold empty_in.
  destruct (find_first_take_spec (fun u => u =? EMPTY_PAIR_PTR) unit_data Hl)
    as (H1 & H2 & H3).
  split; [exact H1|]. split.
  - intros i Hi. destruct (H2 i Hi) as [(u & Hu & Hf) Hb].
    apply Z.eqb_eq in Hf. subst u. split; [exact Hu|].
    intros j u Hj Hju. apply Z.eqb_neq. apply (Hb j u Hj Hju).
  - intros Hn j u Hj Hu. apply Z.eqb_neq. apply (H3 Hn j u Hj Hu).
Qed.

Lemma WarpFindEmpty_lowest_empty_data_lane_witness :
  -1 <= WarpFindEmpty (repeat 7 3 ++ repeat EMPTY_PAIR_PTR 29) < 31.
Proof.
  exact (proj1 (WarpFindEmpty_lowest_empty_data_lane
                  (repeat 7 3 ++ repeat EMPTY_PAIR_PTR 29) eq_refl)).
Defined.

(** WarpFindKey: the lowest data lane (0..30) whose unit is a record
    handle and whose record starts with the [dsize_key_] bytes of the key
    the lanes compare with, or -1 when no data lane holds such a record. *)
Theorem WarpFindKey_lowest_matching_data_lane (c : HashmapCUDAContext)
  (key_ptr : list byte) (unit_data : list ptr_t) :
  length unit_data = 32%nat ->
  -1 <= WarpFindKey c key_ptr unit_data < 31
  /\ (forall i : nat, WarpFindKey c key_ptr unit_data = Z.of_nat i ->
        (exists u, unit_data !! i = Some u /\ u <> EMPTY_PAIR_PTR
                   /\ key_bytes c u = key_of c key_ptr)
        /\ forall j u, (j < i)%nat -> unit_data !! j = Some u ->
             u = EMPTY_PAIR_PTR \/ key_bytes c u <> key_of c key_ptr)
  /\ (WarpFindKey c key_ptr unit_data = -1 ->
        forall j u, (j < 31)%nat -> unit_data !! j = Some u ->
          u = EMPTY_PAIR_PTR \/ key_bytes c u <> key_of c key_ptr).
Proof.
  intros Hl. rewrite (WarpFindKey_find_first c key_ptr unit_data Hl).
  destruct (find_first_take_spec (matches c key_ptr) unit_data Hl) as (H1 & H2 & H3).
  assert (Hm : forall u, matches c key_ptr u = true
                         <-> u <> EMPTY_PAIR_PTR /\ key_bytes c u = key_of c key_ptr).
  { intros u. unfold matches.
    rewrite andb_true_iff, negb_true_iff, Z.eqb_neq, cmp_iff. reflexivity. }
  assert (Hn : forall u, matches c key_ptr u = false ->
                         u = EMPTY_PAIR_PTR \/ key_bytes c u <> key_of c key_ptr).
  { intros u Hf. destruct (Z.eq_dec u EMPTY_PAIR_PTR) as [He|He]; [left; exact He|].
    right. intros Heq. assert (matches c key_ptr u = true) by (apply Hm; auto).
    congruence. }
  split; [exact H1|]. split.
  - intros i Hi. destruct (H2 i Hi) as [(u & Hu & Hf) Hb].
    apply Hm in Hf. split; [exists u; tauto|].
    intros j u' Hj Hju. apply Hn. apply (Hb j u' Hj Hju).
  - intros Hnone j u Hj Hu. apply Hn. apply (H3 Hnone j u Hj Hu).
Qed.

Lemma WarpFindKey_lowest_matching_data_lane_witness :
  -1 <= WarpFindKey table31 (u32_bytes 5) (read_slab table31 HEAD_SLAB_PTR 0) < 31.
Proof.
  assert (Hl : length (read_slab table31 HEAD_SLAB_PTR 0) = 32%nat) by reflexivity.
  exact (proj1 (WarpFindKey_lowest_matching_data_lane table31 (u32_bytes 5)
                  (read_slab table31 HEAD_SLAB_PTR 0) Hl)).
Defined.

(** ** The key broadcast *)

(** WarpSyncKey writes whole 4-byte words only: the first
    4 * (dsize_key_ / 4) bytes of the receiving buffer become the bytes of
    the key of the source lane, every other byte of the buffer keeps the
    value it had, and the buffer keeps its length. *)
Theorem WarpSyncKey_copies_whole_words (c : HashmapCUDAContext)
  (keys : list (list byte)) (lane : Z) (buf buf' : list byte) :
  WarpSyncKey c keys lane buf = Some buf' ->
  length buf' = length buf
  /\ forall j : nat,
       byte_at buf' j
       = if (j <? 4 * chunks_of (dsize_key_ c))%nat
         then byte_at (shfl_sync [] keys lane) j
         else byte_at buf j.
Proof.
  unfold WarpSyncKey. intros H. split.
  - revert H. generalize 0%nat. generalize (chunks_of (dsize_key_ c)).
    intros n. revert buf. induction n as [|n IH]; intros buf i H.
    + injection H as <-. reflexivity.
    + cbn [WarpSyncKey_loop] in H.
      destruct (store_word buf i (shfl_sync [] keys lane)) as [b1|] eqn:E; [|discriminate].
      rewrite (IH b1 (S i) H). unfold store_word in E.
      destruct (4 * Z.of_nat i + 4 <=? Z.of_nat (length buf)); [|discriminate].
      injection E as <-. rewrite !length_insert. reflexivity.
  - intros j. rewrite (WarpSyncKey_loop_bytes _ _ _ _ _ H j).
    destruct (Nat.leb_spec (4 * 0) j), (Nat.ltb_spec j (4 * (0 + chunks_of (dsize_key_ c)))),
      (Nat.ltb_spec j (4 * chunks_of (dsize_key_ c))); try lia; reflexivity.
Qed.

Lemma WarpSyncKey_copies_whole_words_witness :
  exists buf',
    WarpSyncKey (HashmapCUDA 7 16 6 4 2 []) [repeat x01 6] 0 (repeat x09 32) = Some buf'
    /\ byte_at buf' 3 = x01 /\ byte_at buf' 4 = x09.
Proof.
  assert (H : WarpSyncKey (HashmapCUDA 7 16 6 4 2 []) [repeat x01 6] 0 (repeat x09 32)
              = Some (repeat x01 4 ++ repeat x09 28)) by reflexivity.
  exists (repeat x01 4 ++ repeat x09 28). split; [exact H|].
  destruct (WarpSyncKey_copies_whole_words _ _ _ _ _ H) as [_ Hb].
  split; [rewrite (Hb 3%nat)|rewrite (Hb 4%nat)]; reflexivity.
Defined.

(** ** The spatial hasher *)

(** SpatialHasher: for a positive bucket count that fits an [int] the
    hash of every key, negative coordinates included, is a bucket index. *)
Theorem SpatialHasher_is_bucket_index (bucket_count_ : Z) (key : Z * Z * Z) :
  0 < bucket_count_ < 2 ^ 31 ->
  0 <= SpatialHasher bucket_count_ key < bucket_count_.
Proof.
  intros Hb. unfold SpatialHasher. cbv zeta.
  set (x := Z.lxor _ _).
  pose proof (Z.rem_bound_abs x bucket_count_ ltac:(lia)) as Habs.
  assert (Hr : - bucket_count_ < Z.rem x bucket_count_ < bucket_count_) by lia.
  destruct (Z.ltb_spec (Z.rem x bucket_count_) 0).
  - rewrite to_i32_small by lia. unfold to_u64. rewrite Z.mod_small by lia. lia.
  - unfold to_u64. rewrite Z.mod_small by lia. lia.
Qed.

Lemma SpatialHasher_is_bucket_index_witness :
  0 <= SpatialHasher 1000000 (-3, 5, -70) < 1000000.
Proof. apply SpatialHasher_is_bucket_index. lia. Defined.
(** ** Counting *)

(** CountElemsPerBucket: on a well-formed table whose slab count times 32
    fits an [int], the result has one entry per bucket, and the entry of a
    bucket is the number of occupied data slots on its chain, head slab
    and chained slabs together; the entries add up to the occupied data
    slots of the table. *)
Theorem CountElemsPerBucket_counts_chains (c : HashmapCUDAContext)
  (chains : list (list Z)) :
  table_ok c chains ->
  total_slabs c * WARP_WIDTH < 2 ^ 31 ->
  exists n counts,
    (forall fuel, (n <= fuel)%nat -> CountElemsPerBucket fuel c = Returned counts)
    /\ Z.of_nat (length counts) = num_buckets_ c
    /\ (forall (b : nat) (ch : list Z), chains !! b = Some ch ->
          counts !! b
          = Some (occupied_in (read_slab c HEAD_SLAB_PTR (Z.of_nat b))
                  + sum_Z (map (fun q => occupied_in (read_slab c q (Z.of_nat b))) ch)))
    /\ sum_Z counts = occupied_slots c.
Proof.
  intros Hok Hsz.
  exists (length (concat chains)),
         (imap (fun i ch => chain_count c (Z.of_nat i) ch) chains).
  split; [intros fuel Hf; apply (CountElemsPerBucket_chains c chains fuel Hok Hsz Hf)|].
  split.
  { rewrite length_imap. destruct Hok as (_ & H2 & _ & _ & H5 & _). lia. }
  split; [|apply chains_counts_sum; exact Hok].
  intros b ch Hb. rewrite list_lookup_imap, Hb. reflexivity.
Qed.

Lemma CountElemsPerBucket_counts_chains_witness :
  exists n counts,
    (forall fuel, (n <= fuel)%nat -> CountElemsPerBucket fuel table31 = Returned counts)
    /\ sum_Z counts = occupied_slots table31.
Proof.
  assert (Hsz : total_slabs table31 * WARP_WIDTH < 2 ^ 31) by (vm_compute; reflexivity).
  destruct (CountElemsPerBucket_counts_chains table31 [[]] table31_ok Hsz)
    as (n & counts & Hrun & _ & _ & Hsum).
  exists n, counts. split; assumption.
Defined.

(** ** The constructor *)

Lemma imap_repeat_const {A B} (f : nat -> A -> B) (x : A) (y : B) n :
  (forall i, f i x = y) -> imap f (repeat x n) = repeat y n.
Proof.
  intros H. revert f H. induction n as [|n IH]; intros f H; [reflexivity|].
  cbn [repeat imap]. rewrite H. f_equal. apply IH. intros i. apply H.
Qed.

(** HashmapCUDA::HashmapCUDA: the table it builds is well formed, every
    chain is a head slab alone, no data slot is occupied, every slab of
    the pool is free, and, when the bucket count times 32 fits an [int],
    CountElemsPerBucket is 0 for every bucket and the load factor is 0. *)
Theorem HashmapCUDA_builds_empty_table (nb cap dk dv : Z) (num_slabs : nat)
  (stack_init : list byte) :
  0 < nb < 2 ^ 32 -> Z.of_nat num_slabs < HEAD_SLAB_PTR ->
  table_ok (HashmapCUDA nb cap dk dv num_slabs stack_init) (repeat [] (Z.to_nat nb))
  /\ table_units (HashmapCUDA nb cap dk dv num_slabs stack_init) = []
  /\ free_slabs (HashmapCUDA nb cap dk dv num_slabs stack_init) = num_slabs
  /\ (nb * WARP_WIDTH < 2 ^ 31 ->
      forall fuel,
        CountElemsPerBucket fuel (HashmapCUDA nb cap dk dv num_slabs stack_init)
        = Returned (repeat 0 (Z.to_nat nb))
        /\ exists q,
             ComputeLoadFactor fuel (HashmapCUDA nb cap dk dv num_slabs stack_init)
             = Returned q /\ (q == 0)%Q).
Proof.
  intros Hnb Hslabs. set (c := HashmapCUDA nb cap dk dv num_slabs stack_init).
  pose proof (HashmapCUDA_table_ok nb cap dk dv num_slabs stack_init Hnb Hslabs) as Hok.
  fold c in Hok.
  split; [exact Hok|]. split; [apply table_units_fresh|].
  split; [apply HashmapCUDA_free_slabs|].
  intros Hsz fuel.
  assert (Hts : total_slabs c = nb).
  { unfold total_slabs, c, HashmapCUDA. cbn.
    assert (H : length (filter (fun b => b = true) (repeat false num_slabs)) = 0%nat).
    { clear. induction num_slabs as [|n IH]; [reflexivity|]. cbn [repeat].
      rewrite filter_cons_False by discriminate. exact IH. }
    rewrite H. lia. }
  assert (Hsz' : total_slabs c * WARP_WIDTH < 2 ^ 31) by (rewrite Hts; exact Hsz).
  assert (Hf : (length (concat (repeat (@nil Z) (Z.to_nat nb))) <= fuel)%nat)
    by (rewrite concat_repeat_nil; cbn; lia).
  assert (Hocc : occupied_slots c = 0).
  { pose proof (chains_counts_sum c _ Hok) as Hs. rewrite <- Hs.
    rewrite (imap_repeat_const _ _ 0).
    - clear. induction (Z.to_nat nb) as [|n IH]; [reflexivity|].
      cbn [repeat]. rewrite sum_Z_cons, IH. reflexivity.
    - intros i. unfold chain_count. cbn [map]. change (sum_Z []) with 0.
      assert (Hrd : read_slab c HEAD_SLAB_PTR (Z.of_nat i) = empty_slab).
      { unfold read_slab. change (HEAD_SLAB_PTR =? HEAD_SLAB_PTR) with true. cbv iota.
        destruct (zget (bucket_list_head_ c) (Z.of_nat i)) as [s|] eqn:E; [|reflexivity].
        apply zget_Some in E as [_ E]. unfold c, HashmapCUDA in E. cbn in E.
        apply lookup_repeat in E as [-> _]. reflexivity. }
      rewrite Hrd, occupied_in_empty. reflexivity. }
  split.
  - rewrite (CountElemsPerBucket_chains c _ fuel Hok Hsz' Hf).
    f_equal. apply imap_repeat_const. intros i.
    unfold chain_count. cbn [map]. change (sum_Z []) with 0.
    assert (Hrd : read_slab c HEAD_SLAB_PTR (Z.of_nat i) = empty_slab).
    { unfold read_slab. change (HEAD_SLAB_PTR =? HEAD_SLAB_PTR) with true. cbv iota.
      destruct (zget (bucket_list_head_ c) (Z.of_nat i)) as [s|] eqn:E; [|reflexivity].
      apply zget_Some in E as [_ E]. unfold c, HashmapCUDA in E. cbn in E.
      apply lookup_repeat in E as [-> _]. reflexivity. }
    rewrite Hrd, occupied_in_empty. reflexivity.
  - eexists. split; [apply (ComputeLoadFactor_value c _ fuel Hok Hsz' Hf)|].
    rewrite Hocc. unfold Qdiv. apply Qmult_0_l.
Qed.

Lemma HashmapCUDA_builds_empty_table_witness :
  table_units (HashmapCUDA 8 64 4 4 4 []) = []
  /\ free_slabs (HashmapCUDA 8 64 4 4 4 []) = 4%nat.
Proof.
  assert (Hnb : 0 < 8 < 2 ^ 32) by lia.
  assert (Hs : Z.of_nat 4 < HEAD_SLAB_PTR) by (vm_compute; reflexivity).
  destruct (HashmapCUDA_builds_empty_table 8 64 4 4 4 [] Hnb Hs) as (_ & H1 & H2 & _).
  split; assumption.
Defined.

(** ** A batch of new keys on any table *)


(** ** What Search returns *)

Lemma search_walk_spec c k b : key_size_ok c -> forall rest curr,
  (snd (search_walk c k b curr rest) = true
   <-> exists q u, q ∈ curr :: rest /\ u ∈ occupied_units (read_slab c q b)
                   /\ key_bytes c u = key_of c k)
  /\ (snd (search_walk c k b curr rest) = true ->
      key_bytes c (fst (search_walk c k b curr rest)) = key_of c k
      /\ fst (search_walk c k b curr rest) ∈ table_units c)
  /\ (snd (search_walk c k b curr rest) = false ->
      fst (search_walk c k b curr rest) = NULL_ITERATOR).
Proof.
  intros Hk. induction rest as [|q rest IH]; intros curr; cbn [search_walk];
    destruct (Z.leb_spec 0 (found_in c k (read_slab c curr b))) as [Hf|Hf]; cbn [fst snd].
  1, 3: (destruct (found_in_present c k _ Hk Hf) as (u & Hzu & Hu & Hku);
         rewrite (shfl_sync_zget _ _ _ _ Hzu);
         split; [split; [intros _; exists curr, u; split; [apply list_elem_of_here|auto]
                        |reflexivity]|];
         split; [intros _; split; [exact Hku|eapply read_slab_units; exact Hu]
                |discriminate]).
  - split; [|split; [discriminate|reflexivity]].
    split; [discriminate|]. intros (q & u & Hq & Hu & Hku).
    apply list_elem_of_singleton in Hq. subst q.
    pose proof (found_in_exists c k _ u Hk Hu Hku). lia.
  - destruct (IH q) as (IH1 & IH2 & IH3).
    split; [|split; assumption].
    rewrite IH1. split.
    + intros (q' & u & Hq & Hrest). exists q', u.
      split; [apply list_elem_of_further; exact Hq|exact Hrest].
    + intros (q' & u & Hq & Hu & Hku). apply elem_of_cons in Hq as [->|Hq].
      * pose proof (found_in_exists c k _ u Hk Hu Hku). lia.
      * exists q', u. auto.
Qed.


(** Search of one key: the table is left as it is; the request succeeds
    exactly when an occupied data slot on the chain of the key's bucket
    holds a record with the bytes of the key; the iterator of a hit is a
    handle held by the table whose record carries the key, and the
    iterator of a miss is the null iterator. *)
Theorem Search_hits_keys_on_chain (c : HashmapCUDAContext) (chains : list (list Z))
  (k : list byte) :
  table_ok c chains -> key_size_ok c ->
  exists ch n it ok,
    chains !! Z.to_nat (ComputeBucket c k) = Some ch
    /\ (forall fuel, (n <= fuel)%nat ->
          HashmapCUDA_Search fuel [0%nat] c [k] 1 = Returned (c, [(0%nat, (it, ok))]))
    /\ (ok = true
        <-> exists q u, q ∈ HEAD_SLAB_PTR :: ch
                        /\ u ∈ occupied_units (read_slab c q (ComputeBucket c k))
                        /\ key_bytes c u = key_of c k)
    /\ (ok = true -> key_bytes c it = key_of c k /\ it ∈ table_units c)
    /\ (ok = false -> it = NULL_ITERATOR).
Proof.
  intros Hok Hk.
  destruct (Search_single c chains k Hok (proj2 (proj1 Hk))) as (ch & n & Hch & Hrun).
  destruct (search_walk_spec c k (ComputeBucket c k) Hk ch HEAD_SLAB_PTR) as (H1 & H2 & H3).
  cbv zeta in Hrun.
  set (res := search_walk c k (ComputeBucket c k) HEAD_SLAB_PTR ch) in *.
  exists ch, n, (if snd res then fst res else NULL_ITERATOR), (snd res).
  split; [exact Hch|]. split; [exact Hrun|]. split; [exact H1|].
  split; intros Hs; rewrite Hs; [apply H2; exact Hs|reflexivity].
Qed.

Lemma Search_hits_keys_on_chain_witness :
  exists ch n it ok,
    ([[]] : list (list Z)) !! Z.to_nat (ComputeBucket table31 (u32_bytes 5)) = Some ch
    /\ forall fuel, (n <= fuel)%nat ->
         HashmapCUDA_Search fuel [0%nat] table31 [u32_bytes 5] 1
         = Returned (table31, [(0%nat, (it, ok))]).
Proof.
  destruct (Search_hits_keys_on_chain table31 [[]] (u32_bytes 5) table31_ok
              (proj1 table31_store_ok)) as (ch & n & it & ok & H1 & H2 & _).
  exists ch, n, it, ok. split; assumption.
Defined.
(** ** Requests for keys the table does not hold *)





Lemma remove_walk_absent c k b : key_size_ok c ->
  (forall u, u ∈ table_units c -> key_bytes c u <> key_of c k) ->
  forall rest curr, remove_walk c k b curr rest = (c, false).
Proof.
  intros Hk Habs. induction rest as [|q rest IH]; intros curr; cbn [remove_walk];
    rewrite (found_in_table_absent c k curr b Hk Habs);
    change (0 <=? -1) with false; cbv iota; [reflexivity|apply IH].
Qed.

(** The not-found branch of Remove clears the flag of the whole warp.
    When the table holds no record with the key of the lowest active lane
    of a warp, Remove returns with the table as it was and with every mask
    [false]: the requests of the other lanes of the warp are dropped,
    whatever their keys are. *)
Theorem Remove_miss_ends_the_warp (c : HashmapCUDAContext) (chains : list (list Z))
  (L : lanes) (act : list bool) :
  table_ok c chains -> key_size_ok c -> lanes_ok c L -> length act = 32%nat ->
  0 <= src_lane (init_regs act) ->
  (forall u, u ∈ table_units c ->
     key_bytes c u <> key_of c (src_key_of L (init_regs act))) ->
  exists n r',
    (forall fuel, (n <= fuel)%nat -> Remove fuel c L act = Returned (c, r'))
    /\ mask r' = repeat false 32
    /\ active r' = repeat false 32.
Proof.
  intros Hok Hk HL Hact Hs Habs.
  destruct (init_regs_ok act Hact) as [Hr Hc].
  destruct (Remove_step c chains L (init_regs act) Hok (proj2 (proj1 Hk)) HL Hr Hc Hs)
    as (ch & n & r' & _ & Hres & _ & Hr' & _ & _).
  cbv zeta in Hres.
  rewrite (remove_walk_absent c _ _ Hk Habs) in Hres. cbn [fst snd] in Hres.
  destruct Hres as (Hst & Ha & Hm).
  assert (Ha' : active r' = repeat false 32).
  { rewrite Ha. cbn [active init_regs]. rewrite <- Hact. clear.
    induction act as [|x l IH]; [reflexivity|]. cbn [map length repeat]. rewrite IH.
    reflexivity. }
  exists n, r'. split; [|split; [rewrite Hm; reflexivity|exact Ha']].
  intros fuel Hf. unfold Remove.
  eapply warp_loop_of_steps; [exact Hst| |exact Hf].
  rewrite work_queue_bits by exact Hr'. rewrite Ha. apply lane_bits_all_false.
Qed.

Lemma Remove_miss_ends_the_warp_witness :
  exists n r',
    (forall fuel, (n <= fuel)%nat ->
       Remove fuel table31
         (fst (warp_lanes table31 (keys_of [99; 5]) [] 2 0))
         (snd (warp_lanes table31 (keys_of [99; 5]) [] 2 0))
       = Returned (table31, r'))
    /\ mask r' = repeat false 32
    /\ active r' = repeat false 32.
Proof.
  apply (Remove_miss_ends_the_warp table31 [[]] _ _ table31_ok (proj1 table31_store_ok)).
  - apply (warp_lanes_facts table31 (keys_of [99; 5]) [] 2 0 (proj1 table31_ok)).
  - reflexivity.
  - vm_compute. discriminate.
  - apply Forall_forall. apply (bool_decide_unpack _). vm_compute. exact I.
Defined.

(** the same on a launch: the second request asks for a key the table
    holds, and is reported as not removed because the first key is absent *)
Example RemoveKernel_drops_request :
  HashmapCUDA_Remove 100 [0%nat] table31 (keys_of [99; 5]) 2
  = Returned (table31, [(0%nat, (NULL_ITERATOR, false)); (1%nat, (NULL_ITERATOR, false))])
  /\ u32_bytes 5 ∈ map (key_bytes table31) (table_units table31).
Proof.
  split; [vm_compute; reflexivity|].
  apply (bool_decide_unpack _). vm_compute. exact I.
Qed.
(** ** The slabs before and after an Insert *)

Lemma slab_grows_refl p s : slab_grows p s s.
Proof. unfold slab_grows. apply Forall2_same_length_lookup. split; [reflexivity|].
  intros i x y H1 H2. left. congruence. Qed.

Lemma slab_grows_trans p s1 s2 s3 :
  slab_grows p s1 s2 -> slab_grows p s2 s3 -> slab_grows p s1 s3.
Proof.
  unfold slab_grows. rewrite !Forall2_same_length_lookup.
  intros [L1 H1] [L2 H2]. split; [congruence|]. intros i x z Hx Hz.
  assert (Hi : (i < length (take 31 s2))%nat)
    by exact (eq_ind _ (fun n => (i < n)%nat) (lookup_lt_Some _ _ _ Hx) _ L1).
  destruct (lookup_lt_is_Some_2 (take 31 s2) i Hi) as [y Hy].
  pose proof (H1 i x y Hx Hy) as E1. pose proof (H2 i y z Hy Hz) as E2.
  clear -E1 E2. destruct E1 as [E1|[E1 E1']], E2 as [E2|[E2 E2']]; subst; auto.
Qed.

Lemma slab_grows_take p s s' : take 31 s' = take 31 s -> slab_grows p s s'.
Proof. unfold slab_grows. intros ->. apply (slab_grows_refl p s). Qed.

Lemma slab_grows_zset p s e :
  zget s e = Some EMPTY_PAIR_PTR -> slab_grows p s (zset s e p).
Proof.
  intros Hz. apply zget_Some in Hz as [Hr Hz].
  unfold slab_grows. apply Forall2_same_length_lookup.
  split; [rewrite !length_take, zset_length; reflexivity|].
  intros i x y Hx Hy. apply lookup_take_Some in Hx as [Hx Hi].
  apply lookup_take_Some in Hy as [Hy _].
  destruct (Nat.eq_dec i (Z.to_nat e)) as [->|Hne].
  - rewrite lookup_zset_eq in Hy by exact Hr. right. split; congruence.
  - rewrite lookup_zset_ne in Hy by (assumption || lia). left. congruence.
Qed.

Lemma slab_at_same c curr b curr' b' :
  same_slab curr b curr' b' -> slab_at c curr' b' = slab_at c curr b.
Proof.
  unfold same_slab, slab_at. destruct (curr =? HEAD_SLAB_PTR) eqn:E.
  - intros [-> ->]. reflexivity.
  - intros ->. rewrite E. reflexivity.
Qed.

(** a write into an empty data slot, or into the next pointer *)
Lemma read_slab_write_grows c curr b e v p q b' :
  (forall s, slab_at c curr b = Some s ->
             (zget s e = Some EMPTY_PAIR_PTR /\ v = p) \/ 31 <= e) ->
  slab_grows p (read_slab c q b') (read_slab (write_unit c curr b e v) q b').
Proof.
  intros Hs. destruct (slab_at c curr b) as [s|] eqn:Es.
  - destruct (same_slab_dec curr b q b') as [Hsame|Hother].
    + rewrite !read_slab_default.
      rewrite (slab_at_write_same c curr b e v q b' s Hsame Es).
      rewrite (slab_at_same c curr b q b' Hsame), Es. cbn [default from_option id].
      destruct (Hs s eq_refl) as [[Hz ->]|He].
      * apply slab_grows_zset. exact Hz.
      * apply slab_grows_take. apply take_zset_ge. exact He.
    + rewrite read_slab_write_other by exact Hother. apply slab_grows_refl.
  - rewrite write_unit_none by exact Es. apply slab_grows_refl.
Qed.

Lemma path_slab_at c b curr rest : path c b curr rest -> is_Some (slab_at c curr b).
Proof. destruct rest; intros [H _]; exact H. Qed.

Lemma insert_walk_new c chains (b : nat) ch k p :
  table_ok c chains -> chains !! b = Some ch -> key_size_ok c ->
  is_Some (first_free (slab_used (slab_list_allocator_ctx_ c)) 0) ->
  (forall u, u ∈ table_units c -> key_bytes c u <> key_of c k) ->
  p <> EMPTY_PAIR_PTR ->
  forall rest curr pre, HEAD_SLAB_PTR :: ch = pre ++ curr :: rest ->
  path c (Z.of_nat b) curr rest ->
  exists ch',
    table_ok (fst (insert_walk c k (Z.of_nat b) p curr rest)) (<[b := ch']> chains)
    /\ (ch' = ch \/ exists s, ch' = ch ++ [s] /\ forall b', read_slab c s b' = empty_slab)
    /\ (forall q b', slab_grows p (read_slab c q b')
                       (read_slab (fst (insert_walk c k (Z.of_nat b) p curr rest)) q b'))
    /\ exists q, q ∈ HEAD_SLAB_PTR :: ch'
                 /\ p ∈ occupied_units
                          (read_slab (fst (insert_walk c k (Z.of_nat b) p curr rest))
                             q (Z.of_nat b)).
Proof.
  intros Hok Hb Hk Hfree Habs Hp.
  induction rest as [|q rest IH]; intros curr pre Hsplit Hpath; cbn [insert_walk];
    rewrite (found_in_table_absent c k curr (Z.of_nat b) Hk Habs);
    change (0 <=? -1) with false; cbv iota;
    destruct (Z.leb_spec 0 (empty_in (read_slab c curr (Z.of_nat b)))) as [He|He].
  1, 3: (destruct (path_slab_at _ _ _ _ Hpath) as [s Hs];
         rewrite (read_slab_slab_at _ _ _ _ Hs) in *;
         destruct (empty_in_some _ He) as [Hlt Hz];
         exists ch; cbn [fst]; rewrite list_insert_id by exact Hb;
         split; [apply table_ok_write_data;
                 [exact Hok|unfold NEXT_SLAB_PTR_LANE; lia|eapply on_chain_used; eauto]|];
         split; [left; reflexivity|];
         split; [intros q0 b'; apply read_slab_write_grows; intros s0 Hs0; left;
                 split; congruence|];
         exists curr; split;
           [rewrite Hsplit; apply elem_of_app; right; apply list_elem_of_here|];
         rewrite (read_slab_write_same c curr (Z.of_nat b) _ p s Hs);
         apply elem_of_occupied_units; split; [exact Hp|];
         exists (Z.to_nat (empty_in s)); split; [lia|];
         apply lookup_zset_eq; apply zget_Some in Hz; tauto).
  - destruct Hfree as [n Hn].
    pose proof (chain_tail_split ch pre curr Hsplit) as Htail.
    pose proof (table_ok_link c chains b ch n Hok Hb Hn) as Hlink.
    rewrite Htail in Hlink.
    pose proof (first_free_spec _ _ _ Hn) as [Hrange Hfr]. rewrite Z.sub_0_r in Hfr.
    pose proof Hok as (_ & _ & _ & (Hp1 & Hp2 & Hp3) & _).
    pose proof (Hp3 _ Hfr) as Hmem.
    assert (HnH : (n =? HEAD_SLAB_PTR) = false) by (apply Z.eqb_neq; lia).
    assert (Hempty : forall b', read_slab c n b' = empty_slab).
    { intros b'. unfold read_slab. rewrite HnH.
      rewrite (proj2 (zget_Some _ n empty_slab)); [reflexivity|]. split; [lia|exact Hmem]. }
    rewrite (AllocateSlab_some c n Hn) in *. cbn [snd fst] in *.
    set (c2 := with_slabs c {| slab_used := zset (slab_used (slab_list_allocator_ctx_ c)) n true;
                               slab_mem := slab_mem (slab_list_allocator_ctx_ c) |}) in *.
    set (w1 := write_unit c2 curr (Z.of_nat b) NEXT_SLAB_PTR_LANE n) in *.
    assert (Hcn : ~ same_slab curr (Z.of_nat b) n (Z.of_nat b)).
    { unfold same_slab. destruct (curr =? HEAD_SLAB_PTR) eqn:E; [lia|].
      intros ->. apply Z.eqb_neq in E.
      destruct (on_chain_used c chains b ch pre curr [] Hok Hb Hsplit) as [?|[_ Hu]];
        [tauto|congruence]. }
    assert (Hs1 : slab_at w1 n (Z.of_nat b) = Some empty_slab).
    { unfold w1. rewrite slab_at_write_other by exact Hcn.
      unfold slab_at. rewrite HnH. apply zget_Some. split; [cbn; lia|exact Hmem]. }
    exists (ch ++ [n]). split; [|split; [|split]].
    + apply table_ok_write_data; [exact Hlink|unfold NEXT_SLAB_PTR_LANE; lia|].
      right. split; [lia|]. unfold w1, c2.
      rewrite (proj1 (proj2 (proj2 (proj2 (proj2 (write_unit_config _ _ _ _ _)))))).
      cbn. unfold zset. rewrite (proj2 (in_range_spec _ n)) by lia.
      apply list_lookup_insert_eq. lia.
    + right. exists n. split; [reflexivity|exact Hempty].
    + intros q0 b'. apply (slab_grows_trans p _ (read_slab w1 q0 b')).
      * change (read_slab c q0 b') with (read_slab c2 q0 b').
        apply read_slab_write_grows. intros s0 _. right. unfold NEXT_SLAB_PTR_LANE. lia.
      * apply read_slab_write_grows. intros s0 Hs0. left.
        rewrite Hs1 in Hs0. injection Hs0 as <-. split; reflexivity.
    + exists n. split; [apply elem_of_cons; right; apply elem_of_app; right;
                        apply list_elem_of_here|].
      rewrite (read_slab_write_same w1 n (Z.of_nat b) 0 p empty_slab Hs1).
      apply elem_of_occupied_units. split; [exact Hp|].
      exists 0%nat. split; [lia|reflexivity].
  - destruct Hpath as (_ & _ & _ & _ & Hpath).
    apply (IH q (pre ++ [curr])); [|exact Hpath]. rewrite <- app_assoc. exact Hsplit.
Qed.
(** ** Lookups before and after an Insert *)

Lemma matches_frame c c' k' p :
  key_size_ok c -> key_size_ok c' -> key_of c' k' = key_of c k' ->
  key_bytes c' p <> key_of c' k' ->
  forall l l',
    Forall2 (fun u u' => u' = u \/ (u = EMPTY_PAIR_PTR /\ u' = p)) l l' ->
    (forall u, u ∈ l -> u <> EMPTY_PAIR_PTR -> key_bytes c' u = key_bytes c u) ->
    map (matches c' (sync_key c' k')) l' = map (matches c (sync_key c k')) l.
Proof.
  intros Hk Hk' Hko Hp l l' HF. induction HF as [|u u' l l' HR HF IH]; intros Hkb;
    [reflexivity|].
  cbn [map]. f_equal.
  - destruct HR as [->|[-> ->]].
    + apply Bool.eq_iff_eq_true. rewrite !matches_iff by assumption.
      split; intros [Hne He]; (split; [exact Hne|]).
      * rewrite <- (Hkb u (list_elem_of_here _ _) Hne), <- Hko. exact He.
      * rewrite (Hkb u (list_elem_of_here _ _) Hne), Hko. exact He.
    + destruct (matches c' (sync_key c' k') p) eqn:E1;
        [apply (matches_iff c' k' p Hk') in E1; tauto|].
      destruct (matches c (sync_key c k') EMPTY_PAIR_PTR) eqn:E2;
        [apply (matches_iff c k' _ Hk) in E2; tauto|reflexivity].
  - apply IH. intros x Hx. apply Hkb. apply list_elem_of_further. exact Hx.
Qed.

Lemma found_in_frame c c' k' p s s' :
  key_size_ok c -> key_size_ok c' -> key_of c' k' = key_of c k' ->
  key_bytes c' p <> key_of c' k' ->
  slab_grows p s s' ->
  (forall u, u ∈ occupied_units s -> key_bytes c' u = key_bytes c u) ->
  found_in c' k' s' = found_in c k' s
  /\ (0 <= found_in c k' s ->
      shfl_sync EMPTY_PAIR_PTR s' (found_in c k' s)
      = shfl_sync EMPTY_PAIR_PTR s (found_in c k' s)).
Proof.
  intros Hk Hk' Hko Hp Hg Hkb. split.
  - unfold found_in. f_equal. apply (matches_frame c c' k' p Hk Hk' Hko Hp _ _ Hg).
    intros u Hu Hne. apply Hkb. unfold occupied_units.
    apply list_elem_of_filter. split; assumption.
  - intros Hf. destruct (found_in_some c k' s Hf) as (Hlt & u & Hu & Hm).
    apply (matches_iff c k' u Hk) in Hm as [Hne _].
    rewrite (shfl_sync_zget _ _ _ _ Hu). apply shfl_sync_zget.
    apply zget_Some in Hu as [Hr Hu].
    unfold slab_grows in Hg. apply Forall2_same_length_lookup in Hg as [Hlen Hg].
    assert (Hu31 : take 31 s !! Z.to_nat (found_in c k' s) = Some u)
      by (apply lookup_take_Some; split; [exact Hu|lia]).
    assert (Hi : (Z.to_nat (found_in c k' s) < length (take 31 s'))%nat)
      by exact (eq_ind _ (fun n => (Z.to_nat (found_in c k' s) < n)%nat)
                  (lookup_lt_Some _ _ _ Hu31) _ Hlen).
    destruct (lookup_lt_is_Some_2 _ _ Hi) as [u' Hu'].
    destruct (Hg _ _ _ Hu31 Hu') as [->|[-> _]]; [|tauto].
    apply lookup_take_Some in Hu' as [Hu' _].
    apply zget_Some. split; [|exact Hu'].
    pose proof (lookup_lt_Some _ _ _ Hu') as Hlt'.
    apply Nat2Z.inj_lt in Hlt'. rewrite Z2Nat.id in Hlt' by lia.
    split; [lia|exact Hlt'].
Qed.

Lemma search_walk_frame c c' k' b' :
  (forall q, found_in c' k' (read_slab c' q b') = found_in c k' (read_slab c q b')
             /\ (0 <= found_in c k' (read_slab c q b') ->
                 shfl_sync EMPTY_PAIR_PTR (read_slab c' q b') (found_in c k' (read_slab c q b'))
                 = shfl_sync EMPTY_PAIR_PTR (read_slab c q b')
                     (found_in c k' (read_slab c q b')))) ->
  forall rest curr, search_walk c' k' b' curr rest = search_walk c k' b' curr rest.
Proof.
  intros H. induction rest as [|q rest IH]; intros curr; cbn [search_walk];
    destruct (H curr) as [-> Hs];
    destruct (Z.leb_spec 0 (found_in c k' (read_slab c curr b'))) as [Hf|Hf];
    try (rewrite (Hs Hf)); try reflexivity.
  apply IH.
Qed.

Lemma search_walk_snoc c k b n :
  found_in c k (read_slab c n b) = -1 ->
  forall rest curr, search_walk c k b curr (rest ++ [n]) = search_walk c k b curr rest.
Proof.
  intros Hn. induction rest as [|q rest IH]; intros curr; cbn [search_walk app];
    destruct (0 <=? found_in c k (read_slab c curr b)); try reflexivity.
  - rewrite Hn. reflexivity.
  - apply IH.
Qed.

(** the Insert of a key new to the table, as a call of one request *)
Lemma Insert_single_new c chains k v p free :
  table_ok c chains -> key_size_ok c -> store_ok c (table_units c) ->
  (forall u, u ∈ table_units c -> key_bytes c u <> key_of c k) ->
  pair_free (pair_allocator_ctx_ c) = p :: free ->
  (0 < free_slabs c)%nat ->
  exists n ch ch' c',
    chains !! Z.to_nat (ComputeBucket c k) = Some ch
    /\ (forall fuel, (n <= fuel)%nat ->
          HashmapCUDA_Insert fuel [0%nat] c [k] [v] 1 = Returned (c', [(0%nat, (p, true))]))
    /\ table_ok c' (<[Z.to_nat (ComputeBucket c k) := ch']> chains)
    /\ (ch' = ch \/ exists s, ch' = ch ++ [s] /\ forall b', read_slab c s b' = empty_slab)
    /\ (forall q b', slab_grows p (read_slab c q b') (read_slab c' q b'))
    /\ (exists q, q ∈ HEAD_SLAB_PTR :: ch'
                  /\ p ∈ occupied_units (read_slab c' q (ComputeBucket c k)))
    /\ same_config c c'
    /\ pair_allocator_ctx_ c'
       = {| pair_free := free;
            pair_mem := zset (pair_mem (pair_allocator_ctx_ c)) p (record_of c k v) |}
    /\ table_units c' ≡ₚ p :: table_units c
    /\ key_bytes c' p = key_of c k
    /\ (forall u, u ∈ table_units c -> key_bytes c' u = key_bytes c u)
    /\ 0 <= p < Z.of_nat (length (pair_mem (pair_allocator_ctx_ c))).
Proof.
  intros Hok Hk Hst Hnew Hpf Hfree.
  set (b := ComputeBucket c k) in *.
  pose proof (ComputeBucket_range c k (proj1 Hok)) as Hb. fold b in Hb.
  assert (Hbb : Z.of_nat (Z.to_nat b) = b) by lia.
  assert (HA : Allocate (pair_allocator_ctx_ c)
               = (p, {| pair_free := free; pair_mem := pair_mem (pair_allocator_ctx_ c) |}))
    by (unfold Allocate; rewrite Hpf; reflexivity).
  set (a := {| pair_free := free; pair_mem := pair_mem (pair_allocator_ctx_ c) |}) in *.
  set (c1 := with_pairs c (store_record a p (record_of c k v))).
  assert (Hpin : p ∈ table_units c ++ pair_free (pair_allocator_ctx_ c))
    by (rewrite Hpf; apply elem_of_app; right; apply list_elem_of_here).
  assert (Hpr : 0 <= p < Z.of_nat (length (pair_mem (pair_allocator_ctx_ c)))).
  { destruct Hst as (_ & Hr & _). rewrite Forall_forall in Hr. apply Hr. exact Hpin. }
  assert (Hpne : p <> EMPTY_PAIR_PTR) by (destruct Hst as (_ & _ & Hle & _); lia).
  assert (Hpu : forall u, u ∈ table_units c -> u <> p).
  { intros u Hu ->. destruct Hst as (Hnd & _). rewrite Hpf in Hnd.
    apply NoDup_app in Hnd as (_ & Hdis & _). apply (Hdis p Hu). apply list_elem_of_here. }
  destruct (store_record_keys c a p k v p eq_refl Hpr) as [Hkp _].
  assert (Hku : forall u, u <> p -> key_bytes c1 u = key_bytes c u)
    by (intros u Hu; apply (store_record_keys c a p k v u eq_refl Hpr); exact Hu).
  fold c1 in Hkp.
  assert (Hok1 : table_ok c1 chains) by (apply table_ok_with_pairs; exact Hok).
  assert (Hk1 : key_size_ok c1) by exact Hk.
  assert (Hnew1 : forall u, u ∈ table_units c1 -> key_bytes c1 u <> key_of c1 k).
  { intros u Hu. change (table_units c1) with (table_units c) in Hu.
    rewrite (Hku u (Hpu u Hu)). apply Hnew. exact Hu. }
  destruct (Insert_single c chains k v Hok (proj2 (proj1 Hk)) Hfree)
    as (ch & n & Hch & Hrun).
  fold b in Hch, Hrun.
  rewrite HA in Hrun. cbn [fst snd] in Hrun. cbv zeta in Hrun. fold a c1 in Hrun.
  pose proof Hok1 as (_ & _ & _ & Hpool1 & _ & Hpaths & _).
  pose proof (Hpaths _ _ Hch) as Hpath. rewrite Hbb in Hpath.
  pose proof (free_slabs_first_free c1 Hfree) as Hff.
  destruct (insert_walk_absent c1 k b p Hk1 Hpool1 Hff Hnew1 ch HEAD_SLAB_PTR Hpath)
    as (Hsnd & Hpa & Hperm).
  destruct (insert_walk_ok c1 chains (Z.to_nat b) ch k p Hok1 Hch Hff ch HEAD_SLAB_PTR []
              eq_refl) as (_ & _ & Hcfg & _).
  destruct (insert_walk_new c1 chains (Z.to_nat b) ch k p Hok1 Hch Hk1 Hff Hnew1 Hpne
              ch HEAD_SLAB_PTR [] eq_refl) as (ch' & Hok' & Hshape & Hgrow & Hplace).
  { rewrite Hbb. exact Hpath. }
  rewrite Hbb in *.
  set (c' := fst (insert_walk c1 k b p HEAD_SLAB_PTR ch)) in *.
  rewrite Hsnd in Hrun.
  rewrite filter_cons_True in Hperm by exact Hpne. cbn [filter app] in Hperm.
  assert (Hkey' : forall u, key_bytes c' u = key_bytes c1 u).
  { intros u. apply key_bytes_ext; [exact Hpa|]. destruct Hcfg as (_ & H & _). exact H. }
  exists n, ch, ch', c'.
  split; [exact Hch|]. split; [exact Hrun|]. split; [exact Hok'|].
  split; [exact Hshape|]. split; [exact Hgrow|]. split; [exact Hplace|].
  split.
  { eapply same_config_trans; [|exact Hcfg].
    repeat split. unfold c1. cbn. apply zset_length. }
  split; [rewrite Hpa; reflexivity|]. split; [exact Hperm|].
  split; [rewrite Hkey'; exact Hkp|]. split; [|exact Hpr].
  intros u Hu. rewrite Hkey'. apply Hku. apply Hpu. exact Hu.
Qed.

(** Insert and Search round trip.  In a well-formed table whose records
    are allocated and carry distinct keys, with a record and a slab free,
    the Insert of a key [k] that the table does not hold returns with
    success=true and the handle [p] that was on top of the free stack;
    afterwards Search(k) returns that same handle with success=true, the
    record behind it holds the bytes of [k] and of the value, the table
    holds [p] besides the handles it held, and keys are still distinct. *)
Theorem Insert_then_Search_returns_the_record (c : HashmapCUDAContext)
  (chains : list (list Z)) (k v : list byte) (p : ptr_t) (free : list ptr_t) :
  table_ok c chains -> key_size_ok c -> store_ok c (table_units c) ->
  key_of c k ∉ map (key_bytes c) (table_units c) ->
  pair_free (pair_allocator_ctx_ c) = p :: free ->
  (0 < free_slabs c)%nat ->
  exists n m c',
    (forall fuel, (n <= fuel)%nat ->
       HashmapCUDA_Insert fuel [0%nat] c [k] [v] 1 = Returned (c', [(0%nat, (p, true))]))
    /\ (forall fuel, (m <= fuel)%nat ->
          HashmapCUDA_Search fuel [0%nat] c' [k] 1 = Returned (c', [(0%nat, (p, true))]))
    /\ ExtractIterators c' [p]
       = [(key_of c k, read_bytes v (Z.to_nat (dsize_value_ c)))]
    /\ pair_free (pair_allocator_ctx_ c') = free
    /\ table_units c' ≡ₚ p :: table_units c
    /\ unique_keys c'.
Proof.
  intros Hok Hk Hst Hnew Hpf Hfree.
  assert (Habs : forall u, u ∈ table_units c -> key_bytes c u <> key_of c k).
  { intros u Hu He. apply Hnew. rewrite <- He.
    apply (list_elem_of_fmap_2 (key_bytes c)). exact Hu. }
  destruct (Insert_single_new c chains k v p free Hok Hk Hst Habs Hpf Hfree)
    as (n & ch & ch' & c' & Hch & Hrun & Hok' & _ & _ & (q & Hq & Hpq) & Hcfg & Hpa
        & Hperm & Hkp & Hku & Hpr).
  assert (Hkc' : key_size_ok c').
  { unfold key_size_ok. destruct Hcfg as (_ & -> & _). exact Hk. }
  assert (Hko : key_of c' k = key_of c k) by (apply key_of_config; exact Hcfg).
  destruct (Search_single c' _ k Hok' (proj2 (proj1 Hkc'))) as (ch2 & m & Hch2 & Hsrch).
  rewrite (ComputeBucket_config c c' k Hcfg) in Hch2, Hsrch.
  rewrite list_lookup_insert_eq in Hch2 by (eapply lookup_lt_Some; exact Hch).
  injection Hch2 as <-.
  destruct (search_walk_spec c' k (ComputeBucket c k) Hkc' ch' HEAD_SLAB_PTR)
    as (H1 & H2 & _).
  cbv zeta in Hsrch.
  set (res := search_walk c' k (ComputeBucket c k) HEAD_SLAB_PTR ch') in *.
  assert (Hhit : snd res = true).
  { apply H1. exists q, p. split; [exact Hq|]. split; [exact Hpq|].
    rewrite Hkp, Hko. reflexivity. }
  destruct (H2 Hhit) as [Hkit Hin].
  assert (Hit : fst res = p).
  { rewrite Hperm in Hin. apply elem_of_cons in Hin as [Hin|Hin]; [exact Hin|].
    exfalso. apply (Habs _ Hin). rewrite <- (Hku _ Hin), Hkit, Hko. reflexivity. }
  rewrite Hhit, Hit in Hsrch.
  exists n, m, c'. split; [exact Hrun|]. split; [exact Hsrch|].
  split.
  { unfold ExtractIterators. cbn [map]. unfold extract_ptr. rewrite Hpa. cbn [pair_mem].
    rewrite zget_zset_eq by exact Hpr. cbn [default from_option id].
    destruct Hcfg as (_ & -> & -> & _). f_equal. f_equal.
    - apply (key_of_record c k v).
    - unfold record_of. rewrite drop_app_length' by (symmetry; apply read_bytes_length).
      apply read_bytes_ext. intros j Hj. apply byte_at_read_bytes. exact Hj. }
  split; [rewrite Hpa; reflexivity|]. split; [exact Hperm|].
  unfold unique_keys. rewrite (Permutation_map (key_bytes c') Hperm). cbn [map].
  rewrite Hkp.
  rewrite (map_ext_in (key_bytes c') (key_bytes c))
    by (intros u Hu; apply Hku; apply list_elem_of_In; exact Hu).
  apply NoDup_cons. split; [exact Hnew|apply Hst].
Qed.

Lemma table0_ok : table_ok table0 [[]].
Proof. apply (HashmapCUDA_table_ok 1 64 4 4 4 []); vm_compute; try discriminate; auto. Qed.

Lemma table0_store_ok : key_size_ok table0 /\ store_ok table0 (table_units table0).
Proof.
  split; [split; [split; vm_compute; discriminate|reflexivity]|].
  split; [apply (bool_decide_unpack _); vm_compute; exact I|].
  split; [apply (bool_decide_unpack _); vm_compute; exact I|].
  split; [vm_compute; discriminate|].
  apply (bool_decide_unpack _). vm_compute. exact I.
Qed.

Lemma Insert_then_Search_returns_the_record_witness :
  exists n m c',
    (forall fuel, (n <= fuel)%nat ->
       HashmapCUDA_Insert fuel [0%nat] table0 [u32_bytes 7] [u32_bytes 70] 1
       = Returned (c', [(0%nat, (0, true))]))
    /\ (forall fuel, (m <= fuel)%nat ->
          HashmapCUDA_Search fuel [0%nat] c' [u32_bytes 7] 1
          = Returned (c', [(0%nat, (0, true))]))
    /\ ExtractIterators c' [0] = [(u32_bytes 7, u32_bytes 70)].
Proof.
  assert (Hnew : key_of table0 (u32_bytes 7)
                 ∉ map (key_bytes table0) (table_units table0))
    by (apply (bool_decide_unpack _); vm_compute; exact I).
  assert (Hpf : pair_free (pair_allocator_ctx_ table0) = 0 :: map Z.of_nat (seq 1 63))
    by (vm_compute; reflexivity).
  assert (Hfree : (0 < free_slabs table0)%nat) by (vm_compute; lia).
  destruct (Insert_then_Search_returns_the_record table0 [[]] (u32_bytes 7) (u32_bytes 70) 0
              (map Z.of_nat (seq 1 63)) table0_ok (proj1 table0_store_ok)
              (proj2 table0_store_ok) Hnew Hpf Hfree)
    as (n & m & c' & Hrun & Hsrch & Hext & _).
  exists n, m, c'. split; [exact Hrun|]. split; [exact Hsrch|exact Hext].
Defined.

(** Insert leaves the other lookups alone.  Under the same conditions,
    after the Insert of a key [k] new to the table, the Search of any key
    [k'] with other key bytes returns what it returned before the Insert:
    the same iterator and the same success flag. *)
Theorem Insert_keeps_other_lookups (c : HashmapCUDAContext)
  (chains : list (list Z)) (k v : list byte) (p : ptr_t) (free : list ptr_t) :
  table_ok c chains -> key_size_ok c -> store_ok c (table_units c) ->
  key_of c k ∉ map (key_bytes c) (table_units c) ->
  pair_free (pair_allocator_ctx_ c) = p :: free ->
  (0 < free_slabs c)%nat ->
  exists n c',
    (forall fuel, (n <= fuel)%nat ->
       HashmapCUDA_Insert fuel [0%nat] c [k] [v] 1 = Returned (c', [(0%nat, (p, true))]))
    /\ forall k' : list byte, key_of c k' <> key_of c k ->
       exists m it ok,
         forall fuel, (m <= fuel)%nat ->
           HashmapCUDA_Search fuel [0%nat] c [k'] 1 = Returned (c, [(0%nat, (it, ok))])
           /\ HashmapCUDA_Search fuel [0%nat] c' [k'] 1 = Returned (c', [(0%nat, (it, ok))]).
Proof.
  intros Hok Hk Hst Hnew Hpf Hfree.
  assert (Habs : forall u, u ∈ table_units c -> key_bytes c u <> key_of c k).
  { intros u Hu He. apply Hnew. rewrite <- He.
    apply (list_elem_of_fmap_2 (key_bytes c)). exact Hu. }
  destruct (Insert_single_new c chains k v p free Hok Hk Hst Habs Hpf Hfree)
    as (n & ch & ch' & c' & Hch & Hrun & Hok' & Hshape & Hgrow & _ & Hcfg & Hpa
        & Hperm & Hkp & Hku & Hpr).
  exists n, c'. split; [exact Hrun|]. intros k' Hne.
  assert (Hkc' : key_size_ok c').
  { unfold key_size_ok. destruct Hcfg as (_ & -> & _). exact Hk. }
  assert (Hko : key_of c' k' = key_of c k') by (apply key_of_config; exact Hcfg).
  pose proof (ComputeBucket_range c k (proj1 Hok)) as Hb.
  pose proof (ComputeBucket_range c k' (proj1 Hok)) as Hb'.
  destruct (Search_single c chains k' Hok (proj2 (proj1 Hk))) as (ch1 & m1 & Hch1 & Hs1).
  destruct (Search_single c' _ k' Hok' (proj2 (proj1 Hkc'))) as (ch2 & m2 & Hch2 & Hs2).
  rewrite (ComputeBucket_config c c' k' Hcfg) in Hch2, Hs2.
  cbv zeta in Hs1, Hs2.
  assert (Hframe : forall rest curr,
            search_walk c' k' (ComputeBucket c k') curr rest
            = search_walk c k' (ComputeBucket c k') curr rest).
  { apply search_walk_frame. intros q.
    apply (found_in_frame c c' k' p _ _ Hk Hkc' Hko).
    - rewrite Hkp, Hko. congruence.
    - apply Hgrow.
    - intros u Hu. apply Hku. eapply read_slab_units. exact Hu. }
  assert (Hsame : search_walk c' k' (ComputeBucket c k') HEAD_SLAB_PTR ch2
                  = search_walk c k' (ComputeBucket c k') HEAD_SLAB_PTR ch1).
  { rewrite Hframe.
    destruct (Nat.eq_dec (Z.to_nat (ComputeBucket c k')) (Z.to_nat (ComputeBucket c k)))
      as [He|Hd].
    - rewrite He in Hch1, Hch2.
      rewrite list_lookup_insert_eq in Hch2 by (eapply lookup_lt_Some; exact Hch).
      rewrite Hch in Hch1. injection Hch1 as <-. injection Hch2 as <-.
      destruct Hshape as [->|(s & -> & Hs)]; [reflexivity|].
      apply search_walk_snoc. rewrite Hs. apply found_in_empty_slab.
    - rewrite list_lookup_insert_ne in Hch2 by congruence.
      rewrite Hch1 in Hch2. injection Hch2 as <-. reflexivity. }
  rewrite Hsame in Hs2.
  set (res := search_walk c k' (ComputeBucket c k') HEAD_SLAB_PTR ch1) in *.
  exists (Nat.max m1 m2), (if snd res then fst res else NULL_ITERATOR), (snd res).
  intros fuel Hf. split; [apply Hs1; lia|apply Hs2; lia].
Qed.

Lemma Insert_keeps_other_lookups_witness :
  exists n c',
    (forall fuel, (n <= fuel)%nat ->
       HashmapCUDA_Insert fuel [0%nat] table31 [u32_bytes 32] [u32_bytes 320] 1
       = Returned (c', [(0%nat, (31, true))]))
    /\ exists m it ok,
         forall fuel, (m <= fuel)%nat ->
           HashmapCUDA_Search fuel [0%nat] table31 [u32_bytes 5] 1
           = Returned (table31, [(0%nat, (it, ok))])
           /\ HashmapCUDA_Search fuel [0%nat] c' [u32_bytes 5] 1
              = Returned (c', [(0%nat, (it, ok))]).
Proof.
  assert (Hnew : key_of table31 (u32_bytes 32)
                 ∉ map (key_bytes table31) (table_units table31))
    by (apply (bool_decide_unpack _); vm_compute; exact I).
  assert (Hpf : pair_free (pair_allocator_ctx_ table31) = 31 :: map Z.of_nat (seq 32 32))
    by (vm_compute; reflexivity).
  assert (Hfree : (0 < free_slabs table31)%nat) by (vm_compute; lia).
  destruct (Insert_keeps_other_lookups table31 [[]] (u32_bytes 32) (u32_bytes 320) 31
              (map Z.of_nat (seq 32 32)) table31_ok (proj1 table31_store_ok)
              (proj2 table31_store_ok) Hnew Hpf Hfree)
    as (n & c' & Hrun & Hother).
  exists n, c'. split; [exact Hrun|].
  apply (Hother (u32_bytes 5)). vm_compute. discriminate.
Defined.
(** ** Remove of one key *)










(** ** Insert of a key the table holds *)

Lemma insert_walk_present c k b p q post : key_size_ok c ->
  0 <= found_in c k (read_slab c q b) ->
  forall pre curr rest, curr :: rest = pre ++ q :: post ->
  (forall q0, q0 ∈ pre -> empty_in (read_slab c q0 b) = -1) ->
  insert_walk c k b p curr rest = (with_pairs c (Free (pair_allocator_ctx_ c) p), false).
Proof.
  intros Hk Hq. induction pre as [|x pre IH]; intros curr rest Hsplit Hfull;
    cbn [app] in Hsplit; injection Hsplit as -> ->.
  - destruct post; cbn [insert_walk];
      destruct (Z.leb_spec 0 (found_in c k (read_slab c q b))); (reflexivity || lia).
  - assert (Hx : empty_in (read_slab c x b) = -1)
      by (apply Hfull; apply list_elem_of_here).
    destruct (pre ++ q :: post) as [|h t] eqn:E; [destruct pre; discriminate|].
    cbn [insert_walk]. destruct (0 <=? found_in c k (read_slab c x b)); [reflexivity|].
    rewrite Hx. change (0 <=? -1) with false. cbv iota.
    apply IH; [reflexivity|]. intros q0 Hq0. apply Hfull. apply list_elem_of_further.
    exact Hq0.
Qed.

(** Insert of a key the table holds.  Let a slab on the chain of the
    bucket of [k] hold a record with the key bytes of [k], and let every
    slab before it on the chain have no empty data slot.  Then Insert(k, v)
    returns with success=false and the null iterator; the head slabs and
    the slab pool are as they were, the record taken for the request is
    back on top of the free stack, and the records held by the table keep
    their bytes. *)
Theorem Insert_of_held_key_is_rejected (c : HashmapCUDAContext) (chains : list (list Z))
  (k v : list byte) (p : ptr_t) (free : list ptr_t) (ch pre post : list Z) (q : Z)
  (u : ptr_t) :
  table_ok c chains -> key_size_ok c -> store_ok c (table_units c) ->
  pair_free (pair_allocator_ctx_ c) = p :: free ->
  (0 < free_slabs c)%nat ->
  chains !! Z.to_nat (ComputeBucket c k) = Some ch ->
  HEAD_SLAB_PTR :: ch = pre ++ q :: post ->
  (forall q0, q0 ∈ pre -> empty_in (read_slab c q0 (ComputeBucket c k)) = -1) ->
  u ∈ occupied_units (read_slab c q (ComputeBucket c k)) ->
  key_bytes c u = key_of c k ->
  exists n c',
    (forall fuel, (n <= fuel)%nat ->
       HashmapCUDA_Insert fuel [0%nat] c [k] [v] 1
       = Returned (c', [(0%nat, (NULL_ITERATOR, false))]))
    /\ bucket_list_head_ c' = bucket_list_head_ c
    /\ slab_list_allocator_ctx_ c' = slab_list_allocator_ctx_ c
    /\ pair_free (pair_allocator_ctx_ c') = pair_free (pair_allocator_ctx_ c)
    /\ forall u', u' ∈ table_units c ->
         extract_ptr (pair_allocator_ctx_ c') u' = extract_ptr (pair_allocator_ctx_ c) u'.
Proof.
  intros Hok Hk Hst Hpf Hfree Hch Hsplit Hfull Hu Hku.
  set (b := ComputeBucket c k) in *.
  assert (HA : Allocate (pair_allocator_ctx_ c)
               = (p, {| pair_free := free; pair_mem := pair_mem (pair_allocator_ctx_ c) |}))
    by (unfold Allocate; rewrite Hpf; reflexivity).
  set (a := {| pair_free := free; pair_mem := pair_mem (pair_allocator_ctx_ c) |}) in *.
  set (c1 := with_pairs c (store_record a p (record_of c k v))).
  assert (Hpin : p ∈ table_units c ++ pair_free (pair_allocator_ctx_ c))
    by (rewrite Hpf; apply elem_of_app; right; apply list_elem_of_here).
  assert (Hpr : 0 <= p < Z.of_nat (length (pair_mem (pair_allocator_ctx_ c)))).
  { destruct Hst as (_ & Hr & _). rewrite Forall_forall in Hr. apply Hr. exact Hpin. }
  assert (Hpu : forall u', u' ∈ table_units c -> u' <> p).
  { intros u' Hu' ->. destruct Hst as (Hnd & _). rewrite Hpf in Hnd.
    apply NoDup_app in Hnd as (_ & Hdis & _). apply (Hdis p Hu'). apply list_elem_of_here. }
  assert (Hk1 : key_size_ok c1) by exact Hk.
  assert (Hf1 : 0 <= found_in c1 k (read_slab c1 q b)).
  { apply (found_in_exists c1 k _ u Hk1); [exact Hu|].
    change (key_of c1 k) with (key_of c k). rewrite <- Hku.
    apply (store_record_keys c a p k v u eq_refl Hpr).
    apply Hpu. eapply read_slab_units. exact Hu. }
  destruct (Insert_single c chains k v Hok (proj2 (proj1 Hk)) Hfree)
    as (ch0 & n & Hch0 & Hrun).
  fold b in Hch0, Hrun. rewrite Hch in Hch0. injection Hch0 as <-.
  rewrite HA in Hrun. cbn [fst snd] in Hrun. cbv zeta in Hrun. fold a c1 in Hrun.
  rewrite (insert_walk_present c1 k b p q post Hk1 Hf1 pre HEAD_SLAB_PTR ch Hsplit Hfull)
    in Hrun.
  cbn [fst snd] in Hrun.
  exists n, (with_pairs c1 (Free (pair_allocator_ctx_ c1) p)).
  split; [exact Hrun|]. split; [reflexivity|]. split; [reflexivity|].
  split; [cbn; rewrite Hpf; reflexivity|].
  intros u' Hu'. unfold extract_ptr. cbn.
  rewrite zget_zset_ne by (intros E; symmetry in E; revert E; apply Hpu, Hu').
  reflexivity.
Qed.

Lemma table32_ok : table_ok table32 [[0]].
Proof.
  split; [vm_compute; split; reflexivity|].
  split; [reflexivity|].
  split; [split; vm_compute; repeat constructor|].
  split.
  - split; [reflexivity|]. split; [reflexivity|].
    intros n. destruct n as [|n]; [intros H; discriminate H|].
    do 3 (destruct n as [|n]; [intros _; reflexivity|]).
    intros H. discriminate H.
  - split; [reflexivity|]. split; [|split].
    + intros [|b] ch H; [|destruct b; discriminate H].
      injection H as <-.
      split; [vm_compute; eauto|]. split; [vm_compute; reflexivity|].
      split; [discriminate|]. split; [discriminate|].
      split; [vm_compute; eauto|vm_compute; reflexivity].
    + apply (bool_decide_unpack _). vm_compute. exact I.
    + intros n. cbn [concat app]. rewrite list_elem_of_singleton. split.
      * intros ->. split; [lia|reflexivity].
      * intros [Hn H]. destruct (Z.to_nat n) as [|m] eqn:E; [lia|].
        exfalso. revert H. do 3 (destruct m as [|m]; [discriminate|]). discriminate.
Qed.

Lemma table32_store_ok : key_size_ok table32 /\ store_ok table32 (table_units table32).
Proof.
  split; [split; [split; vm_compute; discriminate|reflexivity]|].
  split; [apply (bool_decide_unpack _); vm_compute; exact I|].
  split; [apply (bool_decide_unpack _); vm_compute; exact I|].
  split; [vm_compute; discriminate|].
  apply (bool_decide_unpack _). vm_compute. exact I.
Qed.

Lemma Insert_of_held_key_is_rejected_witness :
  exists n c',
    (forall fuel, (n <= fuel)%nat ->
       HashmapCUDA_Insert fuel [0%nat] table32 [u32_bytes 32] [u32_bytes 999] 1
       = Returned (c', [(0%nat, (NULL_ITERATOR, false))]))
    /\ bucket_list_head_ c' = bucket_list_head_ table32
    /\ slab_list_allocator_ctx_ c' = slab_list_allocator_ctx_ table32.
Proof.
  assert (Hpf : pair_free (pair_allocator_ctx_ table32) = 32 :: map Z.of_nat (seq 33 31))
    by (vm_compute; reflexivity).
  assert (Hfree : (0 < free_slabs table32)%nat) by (vm_compute; lia).
  assert (Hch : [[0]] !! Z.to_nat (ComputeBucket table32 (u32_bytes 32)) = Some [0])
    by (vm_compute; reflexivity).
  assert (Hfull : forall q0, q0 ∈ [HEAD_SLAB_PTR] ->
            empty_in (read_slab table32 q0 (ComputeBucket table32 (u32_bytes 32))) = -1).
  { intros q0 Hq0. apply list_elem_of_singleton in Hq0. subst q0. vm_compute. reflexivity. }
  assert (Hu : 31 ∈ occupied_units
                      (read_slab table32 0 (ComputeBucket table32 (u32_bytes 32))))
    by (apply (bool_decide_unpack _); vm_compute; exact I).
  assert (Hku : key_bytes table32 31 = key_of table32 (u32_bytes 32))
    by (vm_compute; reflexivity).
  destruct (Insert_of_held_key_is_rejected table32 [[0]] (u32_bytes 32) (u32_bytes 999) 32
              (map Z.of_nat (seq 33 31)) [0] [HEAD_SLAB_PTR] [] 0 31
              table32_ok (proj1 table32_store_ok) (proj2 table32_store_ok)
              Hpf Hfree Hch eq_refl Hfull Hu Hku)
    as (n & c' & Hrun & Hh & Hs & _).
  exists n, c'. split; [exact Hrun|]. split; assumption.
Defined.
(** ** Insert into a chain with an empty slot *)

Lemma insert_walk_fill c k b p q post :
  (forall q0, found_in c k (read_slab c q0 b) = -1) ->
  0 <= empty_in (read_slab c q b) ->
  forall pre curr rest, curr :: rest = pre ++ q :: post ->
  (forall q0, q0 ∈ pre -> empty_in (read_slab c q0 b) = -1) ->
  insert_walk c k b p curr rest
  = (write_unit c q b (empty_in (read_slab c q b)) p, true).
Proof.
  intros Hnf Hq. induction pre as [|x pre IH]; intros curr rest Hsplit Hfull;
    cbn [app] in Hsplit; injection Hsplit as -> ->.
  - destruct post; cbn [insert_walk]; rewrite Hnf; change (0 <=? -1) with false; cbv iota;
      destruct (Z.leb_spec 0 (empty_in (read_slab c q b))); (reflexivity || lia).
  - assert (Hx : empty_in (read_slab c x b) = -1)
      by (apply Hfull; apply list_elem_of_here).
    destruct (pre ++ q :: post) as [|h t] eqn:E; [destruct pre; discriminate|].
    cbn [insert_walk]. rewrite Hnf, Hx. change (0 <=? -1) with false. cbv iota.
    apply IH; [reflexivity|]. intros q0 Hq0. apply Hfull. apply list_elem_of_further.
    exact Hq0.
Qed.

Lemma chain_slab_at c chains (b : nat) ch q :
  table_ok c chains -> chains !! b = Some ch -> q ∈ HEAD_SLAB_PTR :: ch ->
  is_Some (slab_at c q (Z.of_nat b)).
Proof.
  intros Hok Hb Hq. pose proof Hok as (_ & _ & _ & _ & _ & Hpaths & _).
  pose proof (Hpaths _ _ Hb) as Hpath.
  apply elem_of_cons in Hq as [->|Hq]; [eapply path_slab_at; exact Hpath|].
  pose proof (path_nodes _ _ _ _ Hpath) as Hn. rewrite Forall_forall in Hn.
  destruct (Hn q Hq) as (H1 & _ & H3). unfold slab_at.
  destruct (Z.eqb_spec q HEAD_SLAB_PTR); [contradiction|exact H3].
Qed.

(** Insert reuses an empty slot.  Let [q] be the first slab on the chain
    of the bucket of [k] with an empty data slot (the slabs before it are
    full), and let [k] be a key the table does not hold; a record is free
    (and a slab, which is not taken).  Then Insert(k, v) returns with
    success=true and the record it allocated, writes that handle into the
    lowest empty data lane of [q], and changes no other slab: no slab is
    claimed and the chains are as they were. *)
Theorem Insert_fills_first_empty_slot (c : HashmapCUDAContext) (chains : list (list Z))
  (k v : list byte) (p : ptr_t) (free : list ptr_t) (ch pre post : list Z) (q : Z) :
  table_ok c chains -> key_size_ok c -> store_ok c (table_units c) ->
  key_of c k ∉ map (key_bytes c) (table_units c) ->
  pair_free (pair_allocator_ctx_ c) = p :: free ->
  (0 < free_slabs c)%nat ->
  chains !! Z.to_nat (ComputeBucket c k) = Some ch ->
  HEAD_SLAB_PTR :: ch = pre ++ q :: post ->
  (forall q0, q0 ∈ pre -> empty_in (read_slab c q0 (ComputeBucket c k)) = -1) ->
  0 <= empty_in (read_slab c q (ComputeBucket c k)) ->
  exists n c',
    (forall fuel, (n <= fuel)%nat ->
       HashmapCUDA_Insert fuel [0%nat] c [k] [v] 1 = Returned (c', [(0%nat, (p, true))]))
    /\ read_slab c' q (ComputeBucket c k)
       = zset (read_slab c q (ComputeBucket c k))
              (empty_in (read_slab c q (ComputeBucket c k))) p
    /\ (forall q' b', ~ same_slab q (ComputeBucket c k) q' b' ->
          read_slab c' q' b' = read_slab c q' b')
    /\ slab_used (slab_list_allocator_ctx_ c') = slab_used (slab_list_allocator_ctx_ c)
    /\ table_ok c' chains.
Proof.
  intros Hok Hk Hst Hnew Hpf Hfree Hch Hsplit Hfull He.
  set (b := ComputeBucket c k) in *.
  pose proof (ComputeBucket_range c k (proj1 Hok)) as Hb. fold b in Hb.
  assert (Hbb : Z.of_nat (Z.to_nat b) = b) by lia.
  assert (HA : Allocate (pair_allocator_ctx_ c)
               = (p, {| pair_free := free; pair_mem := pair_mem (pair_allocator_ctx_ c) |}))
    by (unfold Allocate; rewrite Hpf; reflexivity).
  set (a := {| pair_free := free; pair_mem := pair_mem (pair_allocator_ctx_ c) |}) in *.
  set (c1 := with_pairs c (store_record a p (record_of c k v))).
  assert (Hpin : p ∈ table_units c ++ pair_free (pair_allocator_ctx_ c))
    by (rewrite Hpf; apply elem_of_app; right; apply list_elem_of_here).
  assert (Hpr : 0 <= p < Z.of_nat (length (pair_mem (pair_allocator_ctx_ c)))).
  { destruct Hst as (_ & Hr & _). rewrite Forall_forall in Hr. apply Hr. exact Hpin. }
  assert (Hpu : forall u, u ∈ table_units c -> u <> p).
  { intros u Hu ->. destruct Hst as (Hnd & _). rewrite Hpf in Hnd.
    apply NoDup_app in Hnd as (_ & Hdis & _). apply (Hdis p Hu). apply list_elem_of_here. }
  assert (Hok1 : table_ok c1 chains) by (apply table_ok_with_pairs; exact Hok).
  assert (Hk1 : key_size_ok c1) by exact Hk.
  assert (Hnf : forall q0, found_in c1 k (read_slab c1 q0 b) = -1).
  { intros q0. apply found_in_table_absent; [exact Hk1|].
    intros u Hu Heq. change (table_units c1) with (table_units c) in Hu.
    apply Hnew. change (key_of c1 k) with (key_of c k) in Heq. rewrite <- Heq.
    pose proof (proj2 (store_record_keys c a p k v u eq_refl Hpr) (Hpu u Hu)) as E.
    fold c1 in E. rewrite E.
    apply (list_elem_of_fmap_2 (key_bytes c)). exact Hu. }
  destruct (Insert_single c chains k v Hok (proj2 (proj1 Hk)) Hfree)
    as (ch0 & n & Hch0 & Hrun).
  fold b in Hch0, Hrun. rewrite Hch in Hch0. injection Hch0 as <-.
  rewrite HA in Hrun. cbn [fst snd] in Hrun. cbv zeta in Hrun. fold a c1 in Hrun.
  rewrite (insert_walk_fill c1 k b p q post Hnf He pre HEAD_SLAB_PTR ch Hsplit Hfull)
    in Hrun.
  cbn [fst snd] in Hrun.
  change (read_slab c1 q b) with (read_slab c q b) in Hrun.
  set (e := empty_in (read_slab c q b)) in *.
  assert (Hq : q ∈ HEAD_SLAB_PTR :: ch)
    by (rewrite Hsplit; apply elem_of_app; right; apply list_elem_of_here).
  destruct (chain_slab_at c1 chains (Z.to_nat b) ch q Hok1 Hch Hq) as [s Hs].
  rewrite Hbb in Hs.
  exists n, (write_unit c1 q b e p).
  split; [exact Hrun|]. split.
  { rewrite (read_slab_write_same c1 q b e p s Hs).
    change (read_slab c q b) with (read_slab c1 q b).
    rewrite (read_slab_slab_at _ _ _ _ Hs). reflexivity. }
  split; [intros q' b' Hn; apply (read_slab_write_other c1 q b e p q' b' Hn)|].
  split; [apply (write_unit_config c1 q b e p)|].
  destruct (empty_in_some _ He) as [Hlt _]. fold e in Hlt.
  apply table_ok_write_data; [exact Hok1|unfold NEXT_SLAB_PTR_LANE; lia|].
  eapply (on_chain_used c1 chains (Z.to_nat b) ch pre q post); eauto.
Qed.

Lemma table32_less1_ok : table_ok table32_less1 [[0]].
Proof.
  split; [vm_compute; split; reflexivity|].
  split; [reflexivity|].
  split; [split; vm_compute; repeat constructor|].
  split.
  - split; [reflexivity|]. split; [reflexivity|].
    intros n. destruct n as [|n]; [intros H; discriminate H|].
    do 3 (destruct n as [|n]; [intros _; reflexivity|]).
    intros H. discriminate H.
  - split; [reflexivity|]. split; [|split].
    + intros [|b] ch H; [|destruct b; discriminate H].
      injection H as <-.
      split; [vm_compute; eauto|]. split; [vm_compute; reflexivity|].
      split; [discriminate|]. split; [discriminate|].
      split; [vm_compute; eauto|vm_compute; reflexivity].
    + apply (bool_decide_unpack _). vm_compute. exact I.
    + intros n. cbn [concat app]. rewrite list_elem_of_singleton. split.
      * intros ->. split; [lia|reflexivity].
      * intros [Hn H]. destruct (Z.to_nat n) as [|m] eqn:E; [lia|].
        exfalso. revert H. do 3 (destruct m as [|m]; [discriminate|]). discriminate.
Qed.

Lemma table32_less1_store_ok :
  key_size_ok table32_less1 /\ store_ok table32_less1 (table_units table32_less1).
Proof.
  split; [split; [split; vm_compute; discriminate|reflexivity]|].
  split; [apply (bool_decide_unpack _); vm_compute; exact I|].
  split; [apply (bool_decide_unpack _); vm_compute; exact I|].
  split; [vm_compute; discriminate|].
  apply (bool_decide_unpack _). vm_compute. exact I.
Qed.

Lemma Insert_fills_first_empty_slot_witness :
  exists n c',
    (forall fuel, (n <= fuel)%nat ->
       HashmapCUDA_Insert fuel [0%nat] table32_less1 [u32_bytes 40] [u32_bytes 400] 1
       = Returned (c', [(0%nat, (0, true))]))
    /\ slab_used (slab_list_allocator_ctx_ c')
       = slab_used (slab_list_allocator_ctx_ table32_less1).
Proof.
  assert (Hnew : key_of table32_less1 (u32_bytes 40)
                 ∉ map (key_bytes table32_less1) (table_units table32_less1))
    by (apply (bool_decide_unpack _); vm_compute; exact I).
  assert (Hpf : pair_free (pair_allocator_ctx_ table32_less1)
                = 0 :: 32 :: map Z.of_nat (seq 33 31))
    by (vm_compute; reflexivity).
  assert (Hfree : (0 < free_slabs table32_less1)%nat) by (vm_compute; lia).
  assert (Hch : [[0]] !! Z.to_nat (ComputeBucket table32_less1 (u32_bytes 40)) = Some [0])
    by (vm_compute; reflexivity).
  assert (Hfull : forall q0, q0 ∈ @nil Z ->
            empty_in (read_slab table32_less1 q0
                        (ComputeBucket table32_less1 (u32_bytes 40))) = -1)
    by (intros q0 Hq0; inversion Hq0).
  assert (He : 0 <= empty_in (read_slab table32_less1 HEAD_SLAB_PTR
                                (ComputeBucket table32_less1 (u32_bytes 40))))
    by (vm_compute; discriminate).
  destruct (Insert_fills_first_empty_slot table32_less1 [[0]] (u32_bytes 40)
              (u32_bytes 400) 0 (32 :: map Z.of_nat (seq 33 31)) [0] [] [0]
              HEAD_SLAB_PTR table32_less1_ok (proj1 table32_less1_store_ok)
              (proj2 table32_less1_store_ok) Hnew Hpf Hfree Hch eq_refl Hfull He)
    as (n & c' & Hrun & _ & _ & Hused & _).
  exists n, c'. split; assumption.
Defined.
(** ** A batch Search, request by request *)




